(** * furtrap: a shallow embedding of the crawler and its save protocol

    The development follows the Go sources: [client.go] (the retrying
    transport and the cookie loader), [submission.go] (the archive marker
    and the save protocol), [artist.go] (the gallery and watchlist
    crawlers).  Go strings and byte slices are Rocq strings (sequences of
    bytes); a [nil] slice and an empty one are not distinguished. *)

From Stdlib Require Import String Ascii List ZArith NArith Bool Lia Arith DecimalString.
Import ListNotations.
Open Scope string_scope.
Set Implicit Arguments.

(** ** The part of Go's [strings], [strconv] and [fmt] the sources use *)

Definition bytes := string.

Fixpoint HasPrefix (s p : string) : bool :=
  match p, s with
  | EmptyString, _ => true
  | String a p', String b s' => Ascii.eqb a b && HasPrefix s' p'
  | String _ _, EmptyString => false
  end.

Fixpoint drop (n : nat) (s : string) : string :=
  match n, s with
  | O, _ => s
  | S k, String _ s' => drop k s'
  | S _, EmptyString => EmptyString
  end.

Fixpoint take (n : nat) (s : string) : string :=
  match n, s with
  | O, _ => EmptyString
  | S k, String a s' => String a (take k s')
  | S _, EmptyString => EmptyString
  end.

Definition HasSuffix (s suffix : string) : bool :=
  (String.length suffix <=? String.length s)%nat &&
  String.eqb (drop (String.length s - String.length suffix) s) suffix.

Definition TrimPrefix (s p : string) : string :=
  if HasPrefix s p then drop (String.length p) s else s.

Definition TrimSuffix (s suffix : string) : string :=
  if HasSuffix s suffix then take (String.length s - String.length suffix) s else s.

(** [strings.Split s sep] for a separator of one byte.  The result is never
    empty: a string without the separator is its own single field. *)
Fixpoint Split (s : string) (sep : ascii) : list string :=
  match s with
  | EmptyString => [EmptyString]
  | String a s' =>
      if Ascii.eqb a sep then EmptyString :: Split s' sep
      else match Split s' sep with
           | field :: fields => String a field :: fields
           | [] => [String a EmptyString]
           end
  end.

Fixpoint Contains (s : string) (c : ascii) : bool :=
  match s with
  | EmptyString => false
  | String a s' => Ascii.eqb a c || Contains s' c
  end.

Fixpoint map_bytes (f : ascii -> ascii) (s : string) : string :=
  match s with
  | EmptyString => EmptyString
  | String a s' => String (f a) (map_bytes f s')
  end.

Definition is_space (a : ascii) : bool :=
  let n := nat_of_ascii a in
  ((9 <=? n) && (n <=? 13))%nat || (n =? 32)%nat.

Fixpoint trim_left (s : string) : string :=
  match s with
  | String a s' => if is_space a then trim_left s' else s
  | EmptyString => EmptyString
  end.

Fixpoint rev_string (s acc : string) : string :=
  match s with
  | EmptyString => acc
  | String a s' => rev_string s' (String a acc)
  end.

(** [strings.TrimSpace] on the ASCII white space ([\t \n \v \f \r] and the
    blank); the multi-byte Unicode spaces are left in place. *)
Definition TrimSpace (s : string) : string :=
  trim_left (rev_string (trim_left (rev_string s "")) "").

Definition upper (a : ascii) : ascii :=
  let n := nat_of_ascii a in
  if ((97 <=? n) && (n <=? 122))%nat then ascii_of_nat (n - 32) else a.

Definition ToUpper (s : string) : string := map_bytes upper s.

(** The [%d] verb. *)
Definition FormatUint (n : N) : string := NilEmpty.string_of_uint (N.to_uint n).
Definition FormatInt (n : nat) : string := NilEmpty.string_of_uint (Nat.to_uint n).

Definition digit (a : ascii) : option N :=
  let n := N_of_ascii a in
  if ((48 <=? n) && (n <=? 57))%N then Some (n - 48)%N else None.

Fixpoint digits (s : string) (acc : N) : option N :=
  match s with
  | EmptyString => Some acc
  | String a s' =>
      match digit a with
      | Some d => digits s' (10 * acc + d)%N
      | None => None
      end
  end.

(** ** Errors

    An error value is either created by [errors.New] (the package's
    sentinels, and the opaque errors of the standard library and of the
    network) or by [fmt.Errorf] with one [%w] verb, which wraps an error
    between two pieces of text.  Sentinels are told apart by their text. *)

Inductive error : Type :=
| errors_New (text : string)
| fmt_Errorf (before : string) (wrapped : error) (after : string).

Fixpoint Error (e : error) : string :=
  match e with
  | errors_New text => text
  | fmt_Errorf before wrapped after => before ++ Error wrapped ++ after
  end.

Fixpoint error_eqb (a b : error) : bool :=
  match a, b with
  | errors_New s, errors_New t => String.eqb s t
  | fmt_Errorf p e q, fmt_Errorf p' e' q' =>
      String.eqb p p' && error_eqb e e' && String.eqb q q'
  | _, _ => false
  end.

Fixpoint errors_Is (err target : error) : bool :=
  error_eqb err target ||
  match err with
  | fmt_Errorf _ wrapped _ => errors_Is wrapped target
  | errors_New _ => false
  end.

(** A string between double quotes, as [strconv.Quote] prints one that
    needs no escape. *)
Definition quoted (s : string) : string := String "034" (s ++ String "034" "").

(** [strconv.ParseUint s 10 64] and [strconv.ParseInt s 10 64]. *)
Definition ParseUint (s : string) : N + error :=
  let syntax := errors_New ("strconv.ParseUint: parsing " ++ quoted s ++ ": invalid syntax") in
  let range :=
    errors_New ("strconv.ParseUint: parsing " ++ quoted s ++ ": value out of range") in
  match s with
  | EmptyString => inr syntax
  | _ =>
      match digits s 0 with
      | None => inr syntax
      | Some n => if (n <? 2 ^ 64)%N then inl n else inr range
      end
  end.

Definition ParseInt (s : string) : Z + error :=
  let syntax := errors_New ("strconv.ParseInt: parsing " ++ quoted s ++ ": invalid syntax") in
  let range :=
    errors_New ("strconv.ParseInt: parsing " ++ quoted s ++ ": value out of range") in
  let '(negative, body) :=
    match s with
    | String "-" s' => (true, s')
    | String "+" s' => (false, s')
    | _ => (false, s)
    end in
  match body with
  | EmptyString => inr syntax
  | _ =>
      match digits body 0 with
      | None => inr syntax
      | Some n =>
          let z := if negative then (- Z.of_N n)%Z else Z.of_N n in
          if ((- 2 ^ 63 <=? z) && (z <? 2 ^ 63))%Z then inl z else inr range
      end
  end.

(** ** client.go: the transport *)

Definition highUserThreshold : Z := 10000.
Definition second : Z := 1000000000.
Definition highUserDelayTime : Z := 5 * 60 * second.
Definition defaultDelayTime : Z := 1 * second.
Definition defaultRetryCount : Z := 3.
Definition defaultRetryInterval : Z := 5 * second.
Definition cookiesTxtFieldCount : nat := 7.
Definition oneWeekDuration : Z := 7 * 24 * 3600 * second.

Definition ErrRegisteredUsersNotFound := errors_New "could not find registered users count".
Definition ErrHTTPStatusNotOK := errors_New "HTTP request failed with non-200 status".
Definition ErrHTTPNotFound := errors_New "HTTP 404 Not Found".
Definition ErrExpiredCookie := errors_New "cookie is expiring, update your cookies.txt file".
Definition ErrInvalidCookie := errors_New "invalid cookie format".

(** What [http.Client.Do] hands back: a transport-level failure (refused
    connection, timeout of the request context, ...) or a response, whose
    body [io.ReadAll] reads entirely or fails on. *)
Record Response : Type := {
  StatusCode : Z;
  Status : string;
  Body : bytes + error
}.

Inductive RoundTrip : Type :=
| TransportError (e : error)
| Responded (r : Response).

Record Cookie : Type := {
  Name : string;
  Value : string;
  Domain : string;
  Path : string
}.

(** What lies outside the program.  [newRequest] is the verdict of
    [http.NewRequestWithContext] on a uri, [roundTrip n uri] what the
    request number [n] of the run comes back with when it asks for [uri],
    [clock n] the [n]-th reading of [time.Now] as Unix seconds and
    nanoseconds, [url_Parse] the verdict of [url.Parse],
    [registeredUsersOnline] the figure that the document query and the
    regular expression of [parseRegisteredUsersOnline] find in a page, and
    [os_Open] a file as [bufio.Scanner] delivers it: its lines, then the
    error the scanner ends with, if any.

    [Network] adds the history of a run: the requests performed and the
    [time.Sleep] calls (in nanoseconds), oldest first, and the number of
    clock readings made. *)
Record Outside : Type := {
  newRequest : string -> option error;
  roundTrip : nat -> string -> RoundTrip;
  clock : nat -> Z * Z;
  url_Parse : string -> option error;
  registeredUsersOnline : bytes -> Z + error;
  os_Open : string -> (list string * option error) + error
}.

Record Network : Type := {
  outside : Outside;
  sent : list string;
  slept : list Z;
  clockReads : nat
}.

Definition send (uri : string) (net : Network) : Network :=
  {| outside := outside net; sent := sent net ++ [uri]; slept := slept net;
     clockReads := clockReads net |}.

Definition time_Sleep (d : Z) (net : Network) : Network :=
  {| outside := outside net; sent := sent net; slept := slept net ++ [d];
     clockReads := clockReads net |}.

(** The [HTTPClient] struct; the cookie jar of its [http.Client] is the
    list of the cookies handed to [Jar.SetCookies], each with the URL it
    was set for, oldest first.  [delayFunc] gives the pause chosen for a
    number of registered users. *)
Record HTTPClient : Type := {
  tryCount : Z;
  retryInterval : Z;
  delayFunc : Z -> Z;
  Jar : list (string * Cookie)
}.

Definition NewHTTPClient : HTTPClient :=
  {| tryCount := defaultRetryCount;
     retryInterval := defaultRetryInterval;
     delayFunc := fun registeredUsers =>
       if (registeredUsers >? highUserThreshold)%Z then highUserDelayTime else defaultDelayTime;
     Jar := [] |}.

Definition SetRetryPolicy (count interval : Z) (h : HTTPClient) : HTTPClient :=
  {| tryCount := count; retryInterval := interval; delayFunc := delayFunc h; Jar := Jar h |}.

Definition SetDelayFunc (fn : Z -> Z) (h : HTTPClient) : HTTPClient :=
  {| tryCount := tryCount h; retryInterval := retryInterval h; delayFunc := fn; Jar := Jar h |}.

(** What [HTTPClient.get] makes of the outcome of [client.Do]. *)
Definition read_response (outcome : RoundTrip) : bytes * option error :=
  match outcome with
  | TransportError err => ("", Some (fmt_Errorf "GET failed: " err ""))
  | Responded response =>
      if (StatusCode response =? 404)%Z then
        ("", Some (fmt_Errorf "resource not found: " ErrHTTPNotFound ""))
      else if negb (StatusCode response =? 200)%Z then
        ("", Some (fmt_Errorf "" ErrHTTPStatusNotOK (": " ++ Status response)))
      else
        match Body response with
        | inr err => ("", Some (fmt_Errorf "failed to read response body: " err ""))
        | inl body => (body, None)
        end
  end.

(** [HTTPClient.get]: one request, no retry. *)
Definition HTTPClient_get (uri : string) (net : Network) : (bytes * option error) * Network :=
  match newRequest (outside net) uri with
  | Some err => (("", Some (fmt_Errorf "failed to create request: " err "")), net)
  | None => (read_response (roundTrip (outside net) (length (sent net)) uri), send uri net)
  end.

(** The loop of [HTTPClient.Get], [for attempt := range h.tryCount]:
    [remaining] attempts are left and [lastErr] is the error of the last
    one made. *)
Fixpoint Get_attempts (h : HTTPClient) (uri : string) (remaining : nat)
    (lastErr : option error) (net : Network) : (bytes * option error) * Network :=
  match remaining with
  | O => (("", lastErr), net)
  | S remaining' =>
      let '((data, err), net1) := HTTPClient_get uri net in
      match err with
      | None => ((data, None), net1)
      | Some e => Get_attempts h uri remaining' (Some e) (time_Sleep (retryInterval h) net1)
      end
  end.

Definition HTTPClient_Get (h : HTTPClient) (uri : string) (net : Network)
    : (bytes * option error) * Network :=
  Get_attempts h uri (Z.to_nat (tryCount h)) None net.

(** The three classes of failure of the transport boundary. *)
Inductive failure : Type := notFound | badStatus | transportFailure.

Definition classify (e : error) : failure :=
  if errors_Is e ErrHTTPNotFound then notFound
  else if errors_Is e ErrHTTPStatusNotOK then badStatus
  else transportFailure.

(** *** Time

    A [time.Time] is its count of seconds since January 1 of year 1, an
    [int64], and its nanoseconds.  [time.Unix] shifts the Unix epoch by
    [unixToInternal] in 64-bit arithmetic, which wraps around. *)

Record Time : Type := { sec : Z; nsec : Z }.

Definition unixToInternal : Z := 62135596800.

Definition wrap64 (z : Z) : Z := ((z + 2 ^ 63) mod 2 ^ 64 - 2 ^ 63)%Z.

Definition time_Unix (s : Z) : Time :=
  {| sec := wrap64 (s + unixToInternal); nsec := 0 |}.

Definition time_Now (net : Network) : Time * Network :=
  let '(s, ns) := clock (outside net) (clockReads net) in
  ({| sec := s + unixToInternal; nsec := ns |},
   {| outside := outside net; sent := sent net; slept := slept net;
      clockReads := S (clockReads net) |}).

Definition Time_Add (t : Time) (d : Z) : Time :=
  let dsec := Z.quot d second in
  let ns := (nsec t + Z.rem d second)%Z in
  if (ns >=? second)%Z then {| sec := sec t + (dsec + 1); nsec := ns - second |}
  else if (ns <? 0)%Z then {| sec := sec t + (dsec - 1); nsec := ns + second |}
  else {| sec := sec t + dsec; nsec := ns |}.

Definition Time_Before (t u : Time) : bool :=
  (sec t <? sec u)%Z || ((sec t =? sec u)%Z && (nsec t <? nsec u)%Z).

(** *** Cookies *)

Definition SetCookies (cookieURL : string) (cookie : Cookie) (h : HTTPClient) : HTTPClient :=
  {| tryCount := tryCount h; retryInterval := retryInterval h; delayFunc := delayFunc h;
     Jar := Jar h ++ [(cookieURL, cookie)] |}.

(** [HTTPClient.parseCookieLine]: one line of a cookies.txt file. *)
Definition parseCookieLine (line : string) (h : HTTPClient) (net : Network)
    : option error * (HTTPClient * Network) :=
  if String.eqb line "" || HasPrefix line "#" then (None, (h, net))
  else
    let parts := Split line "009" in
    if negb (length parts =? cookiesTxtFieldCount)%nat then
      (Some (fmt_Errorf "" ErrInvalidCookie (": " ++ line)), (h, net))
    else
      let domain := nth 0 parts "" in
      let path := nth 2 parts "" in
      let secure := String.eqb (ToUpper (nth 3 parts "")) "TRUE" in
      let expiration := nth 4 parts "" in
      let name := nth 5 parts "" in
      let value := nth 6 parts "" in
      match ParseInt expiration with
      | inr err =>
          (Some (fmt_Errorf ("invalid expiration time for cookie " ++ name ++ ": ") err ""),
           (h, net))
      | inl expireTime =>
          let cookieExpire := time_Unix expireTime in
          let '(now, net1) := time_Now net in
          let oneWeekFromNow := Time_Add now oneWeekDuration in
          if Time_Before cookieExpire oneWeekFromNow then
            (Some (fmt_Errorf "" ErrExpiredCookie (": " ++ name)), (h, net1))
          else
            let scheme := if secure then "https" else "http" in
            let cookieURL := scheme ++ "://" ++ domain ++ path in
            match url_Parse (outside net1) cookieURL with
            | Some err =>
                (Some (fmt_Errorf ("invalid URL for cookie " ++ name ++ ": ") err ""),
                 (h, net1))
            | None =>
                let cookie := {| Name := name; Value := value; Domain := domain; Path := path |} in
                (None, (SetCookies cookieURL cookie h, net1))
            end
      end.

(** The scanner loop of [HTTPClient.LoadCookies]. *)
Fixpoint LoadCookies_lines (lines : list string) (h : HTTPClient) (net : Network)
    : option error * (HTTPClient * Network) :=
  match lines with
  | [] => (None, (h, net))
  | text :: rest =>
      let line := TrimSpace text in
      match parseCookieLine line h net with
      | (Some err, state) => (Some (fmt_Errorf "failed to load cookie: " err ""), state)
      | (None, (h1, net1)) => LoadCookies_lines rest h1 net1
      end
  end.

Definition LoadCookies (filename : string) (h : HTTPClient) (net : Network)
    : option error * (HTTPClient * Network) :=
  match os_Open (outside net) filename with
  | inr err => (Some (fmt_Errorf "failed to open cookies file: " err ""), (h, net))
  | inl (lines, scanErr) =>
      match LoadCookies_lines lines h net with
      | (Some err, state) => (Some err, state)
      | (None, state) =>
          match scanErr with
          | Some err => (Some (fmt_Errorf "error reading cookies file: " err ""), state)
          | None => (None, state)
          end
      end
  end.

(** [HTTPClient.GetWithDelay]. *)
Definition HTTPClient_GetWithDelay (h : HTTPClient) (uri : string) (net : Network)
    : (bytes * option error) * Network :=
  let '((ret, err), net1) := HTTPClient_Get h uri net in
  match err with
  | Some e => ((ret, Some e), net1)
  | None =>
      match registeredUsersOnline (outside net1) ret with
      | inr e => ((ret, Some e), net1)
      | inl registeredUsers => ((ret, None), time_Sleep (delayFunc h registeredUsers) net1)
      end
  end.

(** ** Paths and the file system

    A path is resolved element by element, the way [filepath.Clean] reads
    it: empty elements and [.] are skipped, [..] steps back over the
    element before it, or stays when the path is rooted and nothing is left
    to step over.  A resolved path is its rootedness and its elements, last
    element first.  There are no symbolic links, and two paths name the
    same file exactly when they resolve alike. *)

Definition Location : Type := (bool * list string)%type.

Definition clean_step (rooted : bool) (out : list string) (elem : string) : list string :=
  if String.eqb elem "" || String.eqb elem "." then out
  else if String.eqb elem ".." then
    match out with
    | last :: before => if String.eqb last ".." then elem :: out else before
    | [] => if rooted then [] else [elem]
    end
  else elem :: out.

Definition is_rooted (s : string) : bool := HasPrefix s "/".

Definition resolve (s : string) : Location :=
  (is_rooted s, fold_left (clean_step (is_rooted s)) (Split s "/") []).

Definition render (p : Location) : string :=
  let body := String.concat "/" (rev (snd p)) in
  if fst p then "/" ++ body
  else match snd p with
       | [] => "."
       | _ :: _ => body
       end.

(** [filepath.Clean] and [filepath.Join] of a directory and one more element. *)
Definition Clean (s : string) : string := render (resolve s).

Definition filepath_Join (dir elem : string) : string :=
  if String.eqb dir "" then
    if String.eqb elem "" then "" else Clean elem
  else Clean (dir ++ "/" ++ elem).

Definition parent (p : Location) : Location := (fst p, clean_step (fst p) (snd p) "..").

Fixpoint list_eqb (l m : list string) : bool :=
  match l, m with
  | [], [] => true
  | a :: l', b :: m' => String.eqb a b && list_eqb l' m'
  | _, _ => false
  end.

Definition path_eqb (p q : Location) : bool :=
  Bool.eqb (fst p) (fst q) && list_eqb (snd p) (snd q).

(** An entry of the file system: a directory, or a file with the bytes
    written so far and whether they were flushed by [Sync] since the last
    write. *)
Inductive Entry : Type :=
| Directory
| File (content : bytes) (synced : bool).

Definition FS : Type := list (Location * Entry).

Fixpoint lookup (fs : FS) (p : Location) : option Entry :=
  match fs with
  | [] => None
  | (q, e) :: fs' => if path_eqb q p then Some e else lookup fs' p
  end.

Fixpoint unlink (p : Location) (fs : FS) : FS :=
  match fs with
  | [] => []
  | (q, e) :: fs' => if path_eqb q p then unlink p fs' else (q, e) :: unlink p fs'
  end.

Definition store (p : Location) (e : Entry) (fs : FS) : FS := (p, e) :: unlink p fs.

(** The root, the working directory and the directories above it are
    there without an entry. *)
Definition implicit_dir (p : Location) : bool := forallb (String.eqb "..") (snd p).

Definition is_dir (fs : FS) (p : Location) : bool :=
  implicit_dir p ||
  match lookup fs p with
  | Some Directory => true
  | _ => false
  end.

Definition ENOENT := errors_New "no such file or directory".
Definition EISDIR := errors_New "is a directory".
Definition ENOTDIR := errors_New "not a directory".

(** [os.Mkdir], [os.Create] (create or truncate), a [Write] of one byte at
    the end of the file, [Sync], and [os.Rename] of a file. *)
Definition mkdir (p : Location) (fs : FS) : option error * FS :=
  if is_dir fs p then (None, fs)
  else match lookup fs p with
       | Some _ => (Some ENOTDIR, fs)
       | None => if is_dir fs (parent p) then (None, store p Directory fs)
                 else (Some ENOENT, fs)
       end.

Definition create (p : Location) (fs : FS) : option error * FS :=
  if is_dir fs p then (Some EISDIR, fs)
  else if is_dir fs (parent p) then (None, store p (File "" false) fs)
  else (Some ENOENT, fs).

Definition write_byte (p : Location) (b : ascii) (fs : FS) : option error * FS :=
  match lookup fs p with
  | Some (File content _) => (None, store p (File (content ++ String b "") false) fs)
  | _ => (Some ENOENT, fs)
  end.

Definition fsync (p : Location) (fs : FS) : option error * FS :=
  match lookup fs p with
  | Some (File content _) => (None, store p (File content true) fs)
  | _ => (Some ENOENT, fs)
  end.

Definition rename (old new : Location) (fs : FS) : option error * FS :=
  match lookup fs old with
  | Some (File content synced) =>
      if is_dir fs new then (Some EISDIR, fs)
      else if is_dir fs (parent new) then
        (None, store new (File content synced) (unlink old fs))
      else (Some ENOENT, fs)
  | _ => (Some ENOENT, fs)
  end.

(** ** Programs

    The code above the transport runs against a client (the [Client]
    interface of client.go), the file system, and the moment the process is
    killed: [budget] is the number of file-system operations the process
    still gets to perform, [None] when it is left alone.  A program returns,
    panics, is killed, or exhausts the fuel of a loop. *)

Class Client (C : Type) : Type := {
  Get : string -> C -> (bytes * option error) * C;
  GetWithDelay : string -> C -> (bytes * option error) * C
}.

Record World (C : Type) : Type := {
  client : C;
  disk : FS;
  budget : option nat
}.

Inductive Outcome (A : Type) : Type :=
| Return (a : A)
| Panicked (message : string)
| Killed
| OutOfFuel.

Arguments Panicked {A} message.
Arguments Killed {A}.
Arguments OutOfFuel {A}.

Definition M (C A : Type) : Type := World C -> Outcome A * World C.

Definition ret {C A : Type} (a : A) : M C A := fun w => (Return a, w).

Definition bind {C A B : Type} (m : M C A) (k : A -> M C B) : M C B :=
  fun w =>
    match m w with
    | (Return a, w') => k a w'
    | (Panicked message, w') => (Panicked message, w')
    | (Killed, w') => (Killed, w')
    | (OutOfFuel, w') => (OutOfFuel, w')
    end.

Notation "x <- m ;; k" := (bind m (fun x => k))
  (at level 61, m at next level, right associativity).
Notation "' pat <- m ;; k" := (bind m (fun x => match x with pat => k end))
  (at level 61, pat pattern, m at next level, right associativity).

(** [fatalInvariant] of main.go panics. *)
Definition fatalInvariant {C A : Type} (message : string) : M C A :=
  fun w => (Panicked message, w).

(** One file-system operation, performed unless the process is killed first. *)
Definition perform {C : Type} (op : FS -> option error * FS) : M C (option error) :=
  fun w =>
    match budget w with
    | Some O => (Killed, w)
    | Some (S n) =>
        let '(err, fs) := op (disk w) in
        (Return err, {| client := client w; disk := fs; budget := Some n |})
    | None =>
        let '(err, fs) := op (disk w) in
        (Return err, {| client := client w; disk := fs; budget := None |})
    end.

Definition inspect {C A : Type} (f : FS -> A) : M C A := fun w => (Return (f (disk w)), w).

Definition request {C : Type} (f : C -> (bytes * option error) * C) : M C (bytes * option error) :=
  fun w =>
    let '(r, c) := f (client w) in
    (Return r, {| client := c; disk := disk w; budget := budget w |}).

(** The ancestors of a resolved path that may have to be made, outermost
    first, the path itself last. *)
Fixpoint ancestors (rooted : bool) (out : list string) : list Location :=
  match out with
  | [] => []
  | _ :: before => ancestors rooted before ++ [(rooted, out)]
  end.

Fixpoint mkdir_each {C : Type} (dirs : list Location) : M C (option error) :=
  match dirs with
  | [] => ret None
  | d :: rest =>
      err <- perform (mkdir d) ;;
      match err with
      | Some e => ret (Some e)
      | None => mkdir_each rest
      end
  end.

(** [os.MkdirAll]. *)
Definition os_MkdirAll {C : Type} (path : string) : M C (option error) :=
  if String.eqb path "" then ret (Some ENOENT)
  else mkdir_each (ancestors (fst (resolve path)) (snd (resolve path))).

(** [os.Create]: the handle is the resolved path. *)
Definition os_Create {C : Type} (path : string) : M C (Location + error) :=
  if String.eqb path "" then ret (inr ENOENT)
  else
    err <- perform (create (resolve path)) ;;
    match err with
    | Some e => ret (inr e)
    | None => ret (inl (resolve path))
    end.

(** [File.Write], byte after byte. *)
Fixpoint fh_Write {C : Type} (fh : Location) (data : bytes) : M C (option error) :=
  match data with
  | EmptyString => ret None
  | String b data' =>
      err <- perform (write_byte fh b) ;;
      match err with
      | Some e => ret (Some e)
      | None => fh_Write fh data'
      end
  end.

Definition fh_Sync {C : Type} (fh : Location) : M C (option error) := perform (fsync fh).

Definition os_Rename {C : Type} (oldpath newpath : string) : M C (option error) :=
  perform (rename (resolve oldpath) (resolve newpath)).

(** ** Documents

    A parsed page, as [goquery.NewDocumentFromReader] builds it.  The HTML
    parser itself is a parameter; it reads from memory and does not
    fail. *)

Unset Elimination Schemes.
Inductive Node : Type :=
| TextNode (data : string)
| ElementNode (tag : string) (attrs : list (string * string)) (children : list Node).
Set Elimination Schemes.

Class Parser : Type := { NewDocumentFromReader : bytes -> Node }.

(** The elements below a node, in document order. *)
Fixpoint descendants (n : Node) : list Node :=
  match n with
  | TextNode _ => []
  | ElementNode _ _ children => flat_map (fun c => c :: descendants c) children
  end.

(** [Selection.Text]: the text below a node. *)
Fixpoint Text (n : Node) : string :=
  match n with
  | TextNode data => data
  | ElementNode _ _ children => String.concat "" (map Text children)
  end.

Fixpoint assoc (key : string) (attrs : list (string * string)) : option string :=
  match attrs with
  | [] => None
  | (k, v) :: rest => if String.eqb k key then Some v else assoc key rest
  end.

(** [Selection.Attr]. *)
Definition Attr (n : Node) (key : string) : option string :=
  match n with
  | TextNode _ => None
  | ElementNode _ attrs _ => assoc key attrs
  end.

Definition has_tag (tag : string) (n : Node) : bool :=
  match n with
  | TextNode _ => false
  | ElementNode t _ _ => String.eqb t tag
  end.

(** [doc.Find("a")]. *)
Definition Find_a (doc : Node) : list Node := filter (has_tag "a") (descendants doc).

(** [doc.Find("a[href^='/view/']:has(img)")]. *)
Definition Find_view_links (doc : Node) : list Node :=
  filter (fun n =>
            has_tag "a" n &&
            match Attr n "href" with
            | Some href => HasPrefix href "/view/"
            | None => false
            end &&
            existsb (has_tag "img") (descendants n))
         (descendants doc).

(** ** submission.go *)

Definition ErrSubmissionImageNotFound := errors_New "failed to find download link in HTML".
Definition ErrUnexpectedLinkFormat := errors_New "unexpected download link format".
Definition ErrInvalidFilePath := errors_New "invalid file path".

Record Submission : Type := {
  id : N;
  submissionDir : string
}.

Definition NewSubmission (id : N) (submissionDir : string) : Submission :=
  {| id := id; submissionDir := submissionDir |}.

(** The callback of [EachWithBreak] in [parseURLAndFilenameFromViewPage]:
    the href of the first link whose trimmed text is "Download" and which
    has an href. *)
Fixpoint find_download_href (links : list Node) : option string :=
  match links with
  | [] => None
  | s :: rest =>
      if String.eqb (TrimSpace (Text s)) "Download" then
        match Attr s "href" with
        | Some foundHref => Some foundHref
        | None => find_download_href rest
        end
      else find_download_href rest
  end.

(** The [strings.NewReplacer] of the file name: each reserved byte (the
    angle brackets, the colon, the double quote, the backslash, the bar,
    the question mark and the star) becomes [_]. *)
Definition reserved : list ascii := ["<"; ">"; ":"; "034"; "\"; "|"; "?"; "*"]%char.

Definition replacer (a : ascii) : ascii :=
  if existsb (Ascii.eqb a) reserved then "_"%char else a.

Definition parseURLAndFilenameFromViewPage `{Parser} (pageContent : bytes)
    : (string * string) + error :=
  let doc := NewDocumentFromReader pageContent in
  match find_download_href (Find_a doc) with
  | None => inr ErrSubmissionImageNotFound
  | Some href =>
      if negb (HasPrefix href "//") then
        inr (fmt_Errorf "" ErrUnexpectedLinkFormat (": " ++ href))
      else
        let downloadURL := "https:" ++ href in
        let urlParts := Split downloadURL "/" in
        let filename := last urlParts "" in
        inl (downloadURL, map_bytes replacer filename)
  end.

Section Programs.

Context {C : Type} `{Client C} `{Parser}.

(** [WriteAndFsyncFile]. *)
Definition WriteAndFsyncFile (filePath : string) (data : bytes) : M C (option error) :=
  if negb (String.eqb filePath (Clean filePath)) then
    ret (Some (fmt_Errorf "" ErrInvalidFilePath (": " ++ filePath)))
  else
    created <- os_Create filePath ;;
    match created with
    | inr err => ret (Some (fmt_Errorf "failed to create file: " err ""))
    | inl fh =>
        err <- fh_Write fh data ;;
        match err with
        | Some e => ret (Some (fmt_Errorf "failed to write file: " e ""))
        | None =>
            err <- fh_Sync fh ;;
            match err with
            | Some e => ret (Some (fmt_Errorf "failed to sync file: " e ""))
            | None => ret None
            end
        end
    end.

(** The name a directory entry must end with to match the pattern
    [*.<id>.html]. *)
Definition marker_suffix (id : N) : string := "." ++ FormatUint id ++ ".html".

Definition is_marker (dir : Location) (id : N) (p : Location) : bool :=
  match snd p with
  | name :: before => path_eqb (fst p, before) dir && HasSuffix name (marker_suffix id)
  | [] => false
  end.

(** [Submission.IsSaved]: [filepath.Glob] of [*.<id>.html] joined to the
    submission directory lists that directory and keeps the names the
    pattern matches, those that end with [.<id>.html], files and
    directories alike.  The directory part is taken literally: it holds
    none of the bytes [filepath.Match] gives a meaning to. *)
Definition IsSaved_on (fs : FS) (s : Submission) : bool :=
  existsb (fun entry => is_marker (resolve (submissionDir s)) (id s) (fst entry)) fs.

Definition IsSaved (s : Submission) : M C bool := inspect (fun fs => IsSaved_on fs s).

(** [Submission.saveSubmissionFiles]. *)
Definition saveSubmissionFiles (s : Submission) (filename : string)
    (fileContent pageContent : bytes) : M C (option error) :=
  let filePath := filepath_Join (submissionDir s) filename in
  err <- WriteAndFsyncFile filePath fileContent ;;
  match err with
  | Some e => ret (Some (fmt_Errorf "failed to save file: " e ""))
  | None =>
      let htmlFilename := filename ++ "." ++ FormatUint (id s) ++ ".html" in
      let htmlPath := filepath_Join (submissionDir s) htmlFilename in
      let htmlTempfile := htmlPath ++ ".tmp" in
      err <- WriteAndFsyncFile htmlTempfile pageContent ;;
      match err with
      | Some e => ret (Some (fmt_Errorf "failed to save HTML page: " e ""))
      | None =>
          err <- os_Rename htmlTempfile htmlPath ;;
          match err with
          | Some e => ret (Some (fmt_Errorf "failed to finalize HTML page save: " e ""))
          | None => ret None
          end
      end
  end.

(** [Submission.Save]. *)
Definition Save (s : Submission) : M C (option error) :=
  saved <- IsSaved s ;;
  if saved then ret None
  else
    err <- os_MkdirAll (submissionDir s) ;;
    match err with
    | Some e => ret (Some (fmt_Errorf "failed to create target directory: " e ""))
    | None =>
        let submissionURL := "https://www.furaffinity.net/view/" ++ FormatUint (id s) in
        ' (pageContent, err) <- request (GetWithDelay submissionURL) ;;
        match err with
        | Some e => ret (Some (fmt_Errorf "failed to get submission page: " e ""))
        | None =>
            match parseURLAndFilenameFromViewPage pageContent with
            | inr e => ret (Some e)
            | inl (downloadURL, filename) =>
                ' (fileContent, err) <- request (Get downloadURL) ;;
                match err with
                | None => saveSubmissionFiles s filename fileContent pageContent
                | Some e =>
                    if errors_Is e ErrHTTPNotFound then ret None
                    else ret (Some (fmt_Errorf "failed to download file: " e ""))
                end
            end
        end
    end.

(** ** artist.go *)

Definition maxWatchlistPages : nat := 100.
Definition maxGalleryPages : nat := 1000.
Definition minNewUsernamesThreshold : nat := 2.

Record Artist : Type := {
  username : string;
  artistDir : string
}.

Definition NewArtist (artistUsername artistDir : string) : Artist :=
  {| username := artistUsername; artistDir := artistDir |}.

(** The callback of [EachWithBreak] in [Artist.parseSubmissionsFromPage],
    over the selected links: the submissions of the page so far, and whether
    the crawl is to stop. *)
Fixpoint parse_links (links : list Node) (submissionDir : string) (reCrawl : bool)
    (pageSubmissions : list Submission) : M C (list Submission * bool) :=
  match links with
  | [] => ret (pageSubmissions, false)
  | s :: rest =>
      match Attr s "href" with
      | None => fatalInvariant "href attr we selected on doesn't exist?! HOW?!"
      | Some href =>
          let substr := TrimSuffix href "/" in
          let substr := TrimPrefix substr "/view/" in
          match ParseUint substr with
          | inr err =>
              fatalInvariant ("Unable to extract id from " ++ href ++ ": " ++ Error err)
          | inl id =>
              let submission := NewSubmission id submissionDir in
              saved <- (if reCrawl then ret false else IsSaved submission) ;;
              if negb reCrawl && saved then ret (pageSubmissions, true)
              else parse_links rest submissionDir reCrawl (pageSubmissions ++ [submission])%list
          end
      end
  end.

Definition parseSubmissionsFromPage (body : bytes) (submissionDir : string) (reCrawl : bool)
    : M C (list Submission * bool) :=
  let doc := NewDocumentFromReader body in
  parse_links (Find_view_links doc) submissionDir reCrawl [].

(** The loop of [Artist.crawlSubmissions], [for pageNum := 1; ; pageNum++]. *)
Fixpoint crawl_pages (a : Artist) (galleryOrScraps submissionDir : string) (reCrawl : bool)
    (fuel pageNum : nat) (submissions : list Submission)
    : M C (list Submission * option error) :=
  match fuel with
  | O => fun w => (OutOfFuel, w)
  | S fuel' =>
      if (maxGalleryPages <? pageNum)%nat then
        fatalInvariant "maximum gallery pages exceeded"
      else
        let url := "https://www.furaffinity.net/" ++ galleryOrScraps ++ "/" ++ username a
                   ++ "/" ++ FormatInt pageNum in
        ' (body, err) <- request (GetWithDelay url) ;;
        match err with
        | Some e => ret ([], Some (fmt_Errorf "failed to fetch gallery page: " e ""))
        | None =>
            ' (pageSubmissions, stopCrawling) <-
                parseSubmissionsFromPage body submissionDir reCrawl ;;
            let submissions := (submissions ++ pageSubmissions)%list in
            if (length pageSubmissions =? 0)%nat || stopCrawling then
              ret (rev submissions, None)
            else crawl_pages a galleryOrScraps submissionDir reCrawl fuel' (S pageNum) submissions
        end
  end.

Definition crawlSubmissions (a : Artist) (reCrawl scraps : bool)
    : M C (list Submission * option error) :=
  let galleryOrScraps := if scraps then "scraps" else "gallery" in
  let submissionDir := if scraps then filepath_Join (artistDir a) "scraps" else artistDir a in
  crawl_pages a galleryOrScraps submissionDir reCrawl (S maxGalleryPages) 1 [].

(** [Artist.Submissions]. *)
Definition Submissions (a : Artist) (reCrawl skipScraps : bool)
    : M C (list Submission * option error) :=
  ' (submissions, err) <- crawlSubmissions a reCrawl false ;;
  match err with
  | Some e => ret ([], Some e)
  | None =>
      if negb skipScraps then
        ' (scraps, err) <- crawlSubmissions a reCrawl true ;;
        match err with
        | Some e => ret ([], Some e)
        | None => ret ((submissions ++ scraps)%list, None)
        end
      else ret (submissions, None)
  end.

End Programs.

(** *** The watchlist

    [watchlistUserRegex], [/user/([^/]+)/]: at a position of the page, the
    text [/user/], then the longest run of bytes other than [/], which must
    not be empty and must be followed by [/]. *)

Fixpoint span_name (s : string) : string * string :=
  match s with
  | EmptyString => (EmptyString, EmptyString)
  | String a s' =>
      if Ascii.eqb a "/" then (EmptyString, s)
      else let '(name, rest) := span_name s' in (String a name, rest)
  end.

Definition match_user_here (s : string) : option string :=
  if HasPrefix s "/user/" then
    match span_name (drop 6 s) with
    | (String a name, String _ _) => Some (String a name)
    | _ => None
    end
  else None.

(** [FindAllSubmatch]: the matches from left to right, none overlapping
    another; each is the whole match and its capture group.  [skip] bytes
    belong to the match found last. *)
Fixpoint FindAllSubmatch_from (skip : nat) (body : string) : list (list string) :=
  match body with
  | EmptyString => []
  | String _ body' =>
      match skip with
      | S skip' => FindAllSubmatch_from skip' body'
      | O =>
          match match_user_here body with
          | Some name =>
              ["/user/" ++ name ++ "/"; name]
                :: FindAllSubmatch_from (6 + String.length name) body'
          | None => FindAllSubmatch_from 0 body'
          end
      end
  end.

Definition FindAllSubmatch (body : bytes) : list (list string) := FindAllSubmatch_from 0 body.

(** The loop over the matches of one page: [seen] is the map of the names
    seen, [usernames] the slice built so far, [newUsernames] the counter of
    this page. *)
Fixpoint add_usernames (matches : list (list string)) (seen : string -> bool)
    (usernames : list string) (newUsernames : nat)
    : (string -> bool) * list string * nat :=
  match matches with
  | [] => (seen, usernames, newUsernames)
  | m :: rest =>
      if (length m <=? 1)%nat then add_usernames rest seen usernames newUsernames
      else
        let u := nth 1 m "" in
        if negb (seen u) then
          add_usernames rest (fun x => if String.eqb x u then true else seen x)
                        (usernames ++ [u])%list (S newUsernames)
        else add_usernames rest seen usernames newUsernames
  end.

Section Watchlist.

Context {C : Type} `{Client C}.

Definition watchlist_url (username : string) (pageNum : nat) : string :=
  "https://www.furaffinity.net/watchlist/by/" ++ username ++ "/" ++ FormatInt pageNum.

(** The loop of [GetWatchlist], [for pageNum := 1; ; pageNum++]. *)
Fixpoint watchlist_pages (username : string) (fuel pageNum : nat)
    (seen : string -> bool) (usernames : list string)
    : M C (list string * option error) :=
  match fuel with
  | O => fun w => (OutOfFuel, w)
  | S fuel' =>
      if (maxWatchlistPages <? pageNum)%nat then
        fatalInvariant "maximum watchlist pages exceeded"
      else
        let url := watchlist_url username pageNum in
        ' (body, err) <- request (Get url) ;;
        match err with
        | Some e => ret ([], Some (fmt_Errorf "failed to fetch watchlist page: " e ""))
        | None =>
            let matches := FindAllSubmatch body in
            let '(seen', usernames', newUsernames) := add_usernames matches seen usernames 0 in
            if (newUsernames <? minNewUsernamesThreshold)%nat then ret (usernames', None)
            else watchlist_pages username fuel' (S pageNum) seen' usernames'
        end
  end.

Definition GetWatchlist (username : string) : M C (list string * option error) :=
  watchlist_pages username (S maxWatchlistPages) 1 (fun _ => false) [].

(** [GetArtistsFromWatchlist]. *)
Definition GetArtistsFromWatchlist (watcherUsername targetDir : string)
    : M C (list Artist * option error) :=
  ' (artistUsernames, err) <- GetWatchlist watcherUsername ;;
  match err with
  | Some e => ret ([], Some e)
  | None =>
      ret (map (fun artistUsername =>
                  NewArtist artistUsername (filepath_Join targetDir artistUsername))
               artistUsernames, None)
  end.

End Watchlist.

(** ** scraper.go *)

Record Scraper : Type := {
  watcher : string;
  artists : list string;
  reCrawl : bool;
  skipScraps : bool;
  outputDir : string
}.

Section Run.

Context {C : Type} `{Client C} `{Parser}.

Fixpoint save_each (submissions : list Submission) : M C (option error) :=
  match submissions with
  | [] => ret None
  | submission :: rest =>
      err <- Save submission ;;
      match err with
      | Some e => ret (Some e)
      | None => save_each rest
      end
  end.

Fixpoint run_artists (s : Scraper) (todo : list Artist) : M C (option error) :=
  match todo with
  | [] => ret None
  | artist :: rest =>
      ' (submissions, err) <- Submissions artist (reCrawl s) (skipScraps s) ;;
      match err with
      | Some e => ret (Some e)
      | None =>
          err <- save_each submissions ;;
          match err with
          | Some e => ret (Some e)
          | None => run_artists s rest
          end
      end
  end.

(** [Scraper.Run]. *)
Definition Run (s : Scraper) : M C (option error) :=
  ' (watchlist, err) <-
      (if String.eqb (watcher s) "" then ret ([], None)
       else GetArtistsFromWatchlist (watcher s) (outputDir s)) ;;
  match err with
  | Some e => ret (Some e)
  | None =>
      let named := map (fun artist => NewArtist artist (filepath_Join (outputDir s) artist))
                       (artists s) in
      run_artists s (watchlist ++ named)%list
  end.

End Run.

(** ** Clients

    The production client, and a site that answers the request number [n]
    of a run by [respond n uri] and keeps the list of what was fetched,
    plainly or with the delay, oldest first. *)

#[export] Instance HTTPClient_Client : Client (HTTPClient * Network) := {
  Get uri c := let '(r, net) := HTTPClient_Get (fst c) uri (snd c) in (r, (fst c, net));
  GetWithDelay uri c :=
    let '(r, net) := HTTPClient_GetWithDelay (fst c) uri (snd c) in (r, (fst c, net))
}.

Inductive Fetch : Type :=
| Plain (uri : string)
| Delayed (uri : string).

Record Site : Type := {
  respond : nat -> string -> bytes * option error;
  fetched : list Fetch
}.

Definition visit (f : Fetch) (s : Site) : Site :=
  {| respond := respond s; fetched := fetched s ++ [f] |}.

#[export] Instance Site_Client : Client Site := {
  Get uri s := (respond s (length (fetched s)) uri, visit (Plain uri) s);
  GetWithDelay uri s := (respond s (length (fetched s)) uri, visit (Delayed uri) s)
}.

(** ** Concrete worlds *)

Definition response (code : Z) (status : string) (body : bytes) : RoundTrip :=
  Responded {| StatusCode := code; Status := status; Body := inl body |}.

Definition outside_with (roundTrip : nat -> string -> RoundTrip)
    (files : string -> (list string * option error) + error) : Outside :=
  {| newRequest := fun _ => None;
     roundTrip := roundTrip;
     clock := fun _ => (1767225600, 500)%Z;
     url_Parse := fun _ => None;
     registeredUsersOnline := fun _ => inr ErrRegisteredUsersNotFound;
     os_Open := files |}.

Definition network_of (o : Outside) : Network :=
  {| outside := o; sent := []; slept := []; clockReads := 0 |}.

(** A server on which nothing exists, and one where the page appears
    between the first request and the second. *)
Definition always_404 : Network :=
  network_of (outside_with (fun _ _ => response 404 "404 Not Found" "") (fun _ => inr ENOENT)).

Definition found_on_second_try : Network :=
  network_of (outside_with
    (fun n _ => match n with
                | O => response 404 "404 Not Found" ""
                | S _ => response 200 "200 OK" "Test Submission 101"
                end)
    (fun _ => inr ENOENT)).

(** A cookies.txt file: a comment, a record that expires in 2099, and a
    record that expires five days after the reading of the clock. *)
Definition tab : string := String "009" "".

Definition cookie_record (fields : list string) : string := String.concat tab fields.

Definition far_future_cookie : string :=
  cookie_record [".furaffinity.net"; "TRUE"; "/"; "TRUE"; "4070937600"; "test_cookie"; "test_value"].

Definition expiring_cookie : string :=
  cookie_record [".furaffinity.net"; "TRUE"; "/"; "TRUE"; "1767657600"; "expired_cookie";
                 "expired_value"].

Definition cookie_files (filename : string) : (list string * option error) + error :=
  if String.eqb filename "cookies.txt" then
    inl (["# Netscape HTTP Cookie File"; far_future_cookie; expiring_cookie], None)
  else inr ENOENT.

Definition cookie_world : Network :=
  network_of (outside_with (fun _ _ => response 404 "404 Not Found" "") cookie_files).

(** A watchlist of three pages and more: the second page repeats the first
    and adds two names, the third adds one. *)
Definition user_link (name : string) : bytes :=
  "<a href=" ++ quoted ("/user/" ++ name ++ "/") ++ ">" ++ name ++ "</a>".

Definition watchlist_page (n : nat) : bytes :=
  String.concat " "
    (map user_link
       match n with
       | 1 => ["lorem"; "ipsum"]
       | 2 => ["lorem"; "ipsum"; "dolor"; "sit"]
       | 3 => ["ipsum"; "sit"; "amet"]
       | _ => ["anim"; "quis"; "nostrud"]
       end%nat).

Definition watchlist_site : Site :=
  {| respond := fun n _ => (watchlist_page (S n), None); fetched := [] |}.

(** The watchlist of the ceiling test: page [i] holds the names
    [artist(2i-1)] and [artist(2i)]. *)
Definition infinite_page (i : nat) : bytes :=
  user_link ("artist" ++ FormatInt (2 * i - 1)) ++ " " ++ user_link ("artist" ++ FormatInt (2 * i)).

Definition infinite_watcher : Site :=
  {| respond := fun n _ => (infinite_page (S n), None); fetched := [] |}.

(** Pages and their documents.  A gallery page is a run of links to
    submissions, each around a preview image; a detail page has a link with
    the text "Download". *)
Definition view_link (number : string) : Node :=
  ElementNode "a" [("href", "/view/" ++ number)]
    [TextNode " "; ElementNode "img" [] []; TextNode " "].

Definition view_link_html (number : string) : bytes :=
  "<a href=" ++ quoted ("/view/" ++ number) ++ "> <img> </a>".

Definition document (nodes : list Node) : Node :=
  ElementNode "html" [] [ElementNode "head" [] []; ElementNode "body" [] nodes].

Definition gallery_page (numbers : list string) : bytes * Node :=
  (String.concat " " (map view_link_html numbers), document (map view_link numbers)).

Definition detail_page (href : string) : bytes * Node :=
  ("<html><body><a href=" ++ quoted href ++ ">Download</a></body></html>",
   document [ElementNode "a" [("href", href)] [TextNode "Download"]]).

Fixpoint document_of (table : list (bytes * Node)) (body : bytes) : Node :=
  match table with
  | [] => document []
  | (html, doc) :: rest => if String.eqb html body then doc else document_of rest body
  end.

(** The gallery of the ceiling test: page [i] links to submission
    [100000 + i]. *)
Definition infinite_gallery_page (i : nat) : bytes * Node :=
  gallery_page [FormatUint (100000 + N.of_nat i)].

Definition known_pages : list (bytes * Node) :=
  [gallery_page ["103"; "104"]; gallery_page ["55555"]; gallery_page [];
   detail_page "//d.furaffinity.net/art/artist/missing-file.jpg";
   detail_page "//d.furaffinity.net/art/artist/pic.104.html";
   detail_page "//d.furaffinity.net/art/artist/..";
   detail_page "//d.furaffinity.net/art/artist-with-two-submissions/1111111111/1111111111.artist-with-two-submissions_test-image-1.jpg"]
  ++ map infinite_gallery_page (seq 1 maxGalleryPages).

#[export] Instance known_parser : Parser :=
  {| NewDocumentFromReader := document_of known_pages |}.

Definition not_found : bytes * option error :=
  ("", Some (fmt_Errorf "resource not found: " ErrHTTPNotFound "")).

Fixpoint answer (table : list (string * bytes)) (uri : string) : bytes * option error :=
  match table with
  | [] => not_found
  | (u, body) :: rest => if String.eqb u uri then (body, None) else answer rest uri
  end.

Definition static_site (table : list (string * bytes)) : Site :=
  {| respond := fun _ uri => answer table uri; fetched := [] |}.

(** The gallery of the re-crawl test, with submission 104 archived. *)
Definition testartist : Artist := NewArtist "testartist" "dl/testartist".

Definition testartist_site : Site :=
  static_site
    [("https://www.furaffinity.net/gallery/testartist/1", fst (gallery_page ["103"; "104"]));
     ("https://www.furaffinity.net/gallery/testartist/2", fst (gallery_page ["55555"]));
     ("https://www.furaffinity.net/gallery/testartist/3", fst (gallery_page []))].

Definition testartist_disk : FS :=
  [((false, ["12345.testartist_test-image-4.104.html"; "testartist"; "dl"]), File "" true);
   ((false, ["testartist"; "dl"]), Directory);
   ((false, ["dl"]), Directory)].

Definition infinite_artist : Artist := NewArtist "infinite-artist" "dl/infinite-artist".

Definition infinite_artist_site : Site :=
  {| respond := fun n _ => (fst (infinite_gallery_page (S n)), None); fetched := [] |}.

(** The site of the save tests: submission 101 with its image, submission
    54321 whose download answers 404, a submission whose download is named
    like an archive marker, and one whose download link ends in [..]. *)
Definition save_site : Site :=
  static_site
    [("https://www.furaffinity.net/view/101",
      fst (detail_page "//d.furaffinity.net/art/artist-with-two-submissions/1111111111/1111111111.artist-with-two-submissions_test-image-1.jpg"));
     ("https://d.furaffinity.net/art/artist-with-two-submissions/1111111111/1111111111.artist-with-two-submissions_test-image-1.jpg",
      "one");
     ("https://www.furaffinity.net/view/54321",
      fst (detail_page "//d.furaffinity.net/art/artist/missing-file.jpg"));
     ("https://www.furaffinity.net/view/104",
      fst (detail_page "//d.furaffinity.net/art/artist/pic.104.html"));
     ("https://d.furaffinity.net/art/artist/pic.104.html", "payload");
     ("https://www.furaffinity.net/view/7",
      fst (detail_page "//d.furaffinity.net/art/artist/.."));
     ("https://d.furaffinity.net/art/artist/..", "payload")].

Definition submission_101 : Submission := NewSubmission 101 "dl/artist".
Definition submission_104 : Submission := NewSubmission 104 "dl/artist".
Definition submission_54321 : Submission := NewSubmission 54321 "dl/artist".

Definition image_101 : string :=
  "1111111111.artist-with-two-submissions_test-image-1.jpg".

Definition href_101 : string :=
  "//d.furaffinity.net/art/artist-with-two-submissions/1111111111/" ++ image_101.

Definition artist_dirs : FS :=
  [((false, ["artist"; "dl"]), Directory); ((false, ["dl"]), Directory)].

(** ** Vocabulary of the statements *)

(** The URL and the cookie that [parseCookieLine] builds from the fields of
    a record. *)
Definition cookie_url (domain path secure : string) : string :=
  (if String.eqb (ToUpper secure) "TRUE" then "https" else "http") ++ "://" ++ domain ++ path.

Definition after_clock (net : Network) : Network :=
  {| outside := outside net; sent := sent net; slept := slept net;
     clockReads := S (clockReads net) |}.

(** The cookie that a line of the file stands for: none for a blank line or
    a comment. *)
Definition record_cookie (line : string) : list (string * Cookie) :=
  if String.eqb line "" || HasPrefix line "#" then []
  else
    let parts := Split line "009" in
    [(cookie_url (nth 0 parts "") (nth 2 parts "") (nth 3 parts ""),
      {| Name := nth 5 parts ""; Value := nth 6 parts "";
         Domain := nth 0 parts ""; Path := nth 2 parts "" |})].

(** The names captured on a watchlist page, in the order of the page. *)
Definition page_names (body : bytes) : list string :=
  map (fun m => nth 1 m "") (FindAllSubmatch body).

Definition mem (x : string) (l : list string) : bool := existsb (String.eqb x) l.

(** A list without its repetitions, each name at its first occurrence. *)
Fixpoint dedup (names : list string) : list string :=
  match names with
  | [] => []
  | u :: rest => u :: filter (fun x => negb (String.eqb x u)) (dedup rest)
  end.

(** The names of a page that are new to a crawl that has seen [seen], each
    once. *)
Fixpoint fresh (seen names : list string) : list string :=
  match names with
  | [] => []
  | u :: rest =>
      if mem u seen then fresh seen rest else u :: fresh (seen ++ [u]) rest
  end.

(** [pages] are the pages of a watchlist up to its growth-drop page: each
    but the last brings at least [minNewUsernamesThreshold] new names to a
    crawl that has seen [seen], and the last one brings fewer. *)
Fixpoint ends_at_growth_drop (seen : list string) (pages : list bytes) : bool :=
  match pages with
  | [] => false
  | body :: rest =>
      let new := fresh seen (page_names body) in
      if (length new <? minNewUsernamesThreshold)%nat then
        match rest with
        | [] => true
        | _ :: _ => false
        end
      else ends_at_growth_drop (seen ++ new) rest
  end.

(** Every page of [pages] brings at least [minNewUsernamesThreshold] new
    names. *)
Fixpoint keeps_growing (seen : list string) (pages : list bytes) : bool :=
  match pages with
  | [] => true
  | body :: rest =>
      let new := fresh seen (page_names body) in
      negb (length new <? minNewUsernamesThreshold)%nat && keeps_growing (seen ++ new) rest
  end.

(** The site answers the next requests, when they ask for the pages
    [first], [first + 1], ... of [url], with [pages] and no error. *)
Definition serves (site : Site) (url : nat -> string) (first : nat) (pages : list bytes) : Prop :=
  forall n, (n < length pages)%nat ->
    respond site (length (fetched site) + n) (url (first + n)%nat) = (nth n pages "", None).

Definition visits (kind : string -> Fetch) (url : nat -> string) (first count : nat)
    : list Fetch :=
  map (fun n => kind (url n)) (seq first count).

Definition visited (site : Site) (more : list Fetch) : Site :=
  {| respond := respond site; fetched := fetched site ++ more |}.

Definition on_site (site : Site) (fs : FS) (budget : option nat) : World Site :=
  {| client := site; disk := fs; budget := budget |}.

Definition gallery_url (a : Artist) (scraps : bool) (pageNum : nat) : string :=
  "https://www.furaffinity.net/" ++ (if scraps then "scraps" else "gallery") ++ "/"
    ++ username a ++ "/" ++ FormatInt pageNum.

Definition gallery_dir (a : Artist) (scraps : bool) : string :=
  if scraps then filepath_Join (artistDir a) "scraps" else artistDir a.

(** The id a selected link leads to, when its href ends with a number. *)
Definition link_id (link : Node) : option N :=
  match Attr link "href" with
  | Some href =>
      match ParseUint (TrimPrefix (TrimSuffix href "/") "/view/") with
      | inl id => Some id
      | inr _ => None
      end
  | None => None
  end.

Fixpoint link_ids (links : list Node) : option (list N) :=
  match links with
  | [] => Some []
  | link :: rest =>
      match link_id link, link_ids rest with
      | Some id, Some ids => Some (id :: ids)
      | _, _ => None
      end
  end.

(** A gallery page that keeps the crawl going: it has links, all to
    numbered submissions, and, unless the crawl is a re-crawl, none of them
    is archived. *)
Definition page_grows `{Parser} (fs : FS) (dir : string) (reCrawl : bool) (body : bytes)
    : bool :=
  match link_ids (Find_view_links (NewDocumentFromReader body)) with
  | Some (id :: ids) =>
      reCrawl || negb (existsb (fun i => IsSaved_on fs (NewSubmission i dir)) (id :: ids))
  | _ => false
  end.

(** A name of a directory entry: not empty, not [.] nor [..], without a
    separator. *)
Definition slashfree (s : string) : Prop := Contains s "/" = false.

Definition proper (name : string) : Prop :=
  name <> "" /\ name <> "." /\ name <> ".." /\ slashfree name.

(** The shape of a resolved path: names, below [..] elements that lead out
    of the working directory when the path is not rooted. *)
Fixpoint clean_out (rooted : bool) (out : list string) : Prop :=
  match out with
  | [] => True
  | name :: before =>
      (proper name /\ clean_out rooted before) \/
      (name = ".." /\ rooted = false /\ Forall (eq "..") before)
  end.

(** [p] is an entry of the directory [dir]. *)
Definition directly_inside (dir p : Location) : Prop :=
  exists name, proper name /\ p = (fst dir, name :: snd dir).

(** An operation of the file system that leaves every path outside
    [targets] as it was. *)
Definition touches (op : FS -> option error * FS) (targets : list Location) : Prop :=
  forall fs q, ~ In q targets -> lookup (snd (op fs)) q = lookup fs q.

(** What a save may have changed since the file system was [before]: the
    entries of the submission directory [dir], and the directories that
    [os.MkdirAll] made on the way to it. *)
Definition contained (dir : Location) (before fs : FS) : Prop :=
  forall q, lookup fs q <> lookup before q ->
    directly_inside dir q \/
    (In q (ancestors (fst dir) (snd dir)) /\
     lookup fs q = Some Directory /\ lookup before q = None).

Section Triples.

Context {C : Type}.

(** A program started where [P] holds returns where [Q] holds of its
    result, and is stopped, by a kill or a panic, only where [K] holds. *)
Definition triple {A : Type} (P : FS -> Prop) (m : M C A) (Q : A -> FS -> Prop)
    (K : FS -> Prop) : Prop :=
  forall w, P (disk w) ->
    match m w with
    | (Return a, w') => Q a (disk w')
    | (_, w') => K (disk w')
    end.

End Triples.

Definition view_url (s : Submission) : string :=
  "https://www.furaffinity.net/view/" ++ FormatUint (id s).

(** The two file systems hold the same files. *)
Definition same_files (before fs : FS) : Prop :=
  forall q content synced,
    lookup fs q = Some (File content synced) <-> lookup before q = Some (File content synced).

(** What a run leaves to be seen: its outcome, the file system, and what
    was fetched. *)
Definition seen {A : Type} (run : Outcome A * World Site) : Outcome A * FS * list Fetch :=
  (fst run, disk (snd run), fetched (client (snd run))).


Fixpoint last_byte (s : string) : option ascii :=
  match s with
  | EmptyString => None
  | String a EmptyString => Some a
  | String _ s' => last_byte s'
  end.

From Stdlib Require DecimalN.

(** ** Further vocabulary *)

(** The network after [requests] more requests for [uri] and [failures]
    more pauses of the retry interval. *)
Definition after_attempts (h : HTTPClient) (uri : string) (requests failures : nat)
    (net : Network) : Network :=
  {| outside := outside net;
     sent := sent net ++ repeat uri requests;
     slept := slept net ++ repeat (retryInterval h) failures;
     clockReads := clockReads net |}.

(** A server that answers 502 to its first two requests, as the flaky
    handler of the tests. *)
Definition flaky_502 : Network :=
  network_of (outside_with
    (fun n _ => match n with
                | 0 | 1 => response 502 "502 Bad Gateway" "502 Bad Gateway"
                | _ => response 200 "200 OK" "Test Submission 101"
                end%nat)
    (fun _ => inr ENOENT)).

(** A record with an empty value, as browsers export it, and one whose
    expiry is the largest [int64]. *)
Definition empty_value_cookie : string :=
  cookie_record [".furaffinity.net"; "TRUE"; "/"; "TRUE"; "4070937600"; "b"].

Definition never_expiring_cookie : string :=
  cookie_record [".furaffinity.net"; "TRUE"; "/"; "TRUE"; "9223372036854775807"; "a";
                 "session"].

(** A page with a figure of registered users online, and one without. *)
Definition counting_outside (users : Z) : Outside :=
  {| newRequest := fun _ => None;
     roundTrip := fun _ _ => response 200 "200 OK" "page";
     clock := fun _ => (1767225600, 500)%Z;
     url_Parse := fun _ => None;
     registeredUsersOnline := fun _ => inl users;
     os_Open := fun _ => inr ENOENT |}.


(** The number a decimal numeral stands for, read from the left with
    [acc] the number read so far. *)
Fixpoint uint_value (d : Decimal.uint) (acc : N) : N :=
  match d with
  | Decimal.Nil => acc
  | Decimal.D0 d' => uint_value d' (10 * acc)
  | Decimal.D1 d' => uint_value d' (10 * acc + 1)
  | Decimal.D2 d' => uint_value d' (10 * acc + 2)
  | Decimal.D3 d' => uint_value d' (10 * acc + 3)
  | Decimal.D4 d' => uint_value d' (10 * acc + 4)
  | Decimal.D5 d' => uint_value d' (10 * acc + 5)
  | Decimal.D6 d' => uint_value d' (10 * acc + 6)
  | Decimal.D7 d' => uint_value d' (10 * acc + 7)
  | Decimal.D8 d' => uint_value d' (10 * acc + 8)
  | Decimal.D9 d' => uint_value d' (10 * acc + 9)
  end%N.

(** The ids the links of a gallery page lead to. *)
Definition page_ids `{Parser} (body : bytes) : list N :=
  match link_ids (Find_view_links (NewDocumentFromReader body)) with
  | Some ids => ids
  | None => []
  end.

(** A watchlist and a gallery that break off after their first page. *)
Definition broken_watchlist : Site :=
  {| respond := fun n _ => match n with
                           | O => (watchlist_page 1, None)
                           | S _ => not_found
                           end;
     fetched := [] |}.

Definition broken_gallery : Site :=
  static_site
    [("https://www.furaffinity.net/gallery/testartist/1", fst (gallery_page ["103"; "104"]))].

(** A gallery whose second link does not end with a number. *)
Definition renamed_links : Parser :=
  {| NewDocumentFromReader := fun _ => document [view_link "103"; view_link "latest"] |}.

(** * Properties *)

Unset Implicit Arguments.

(** ** The transport *)

Lemma Get_attempts_all_fail (h : HTTPClient) (uri : string) :
  forall (n : nat) (net : Network) (lastErr : option error),
    newRequest (outside net) uri = None ->
    (forall k, (k < n)%nat ->
       snd (read_response (roundTrip (outside net) (length (sent net) + k) uri)) <> None) ->
    Get_attempts h uri n lastErr net =
      (("", match n with
            | O => lastErr
            | S m => snd (read_response (roundTrip (outside net) (length (sent net) + m) uri))
            end),
       {| outside := outside net;
          sent := sent net ++ repeat uri n;
          slept := slept net ++ repeat (retryInterval h) n;
          clockReads := clockReads net |}).
Proof.
  induction n as [|n IH]; intros net lastErr Hreq Hfail.
  - simpl. rewrite !app_nil_r. destruct net; reflexivity.
  - simpl. unfold HTTPClient_get. rewrite Hreq.
    pose proof (Hfail 0%nat ltac:(lia)) as H0. rewrite Nat.add_0_r in H0.
    destruct (read_response (roundTrip (outside net) (length (sent net)) uri))
      as [data [e|]] eqn:Hr; [clear H0 | now elim H0].
    rewrite IH.
    + simpl. rewrite length_app. simpl. rewrite <- !app_assoc. simpl.
      f_equal. f_equal.
      destruct n as [|m].
      * rewrite Nat.add_0_r, Hr. reflexivity.
      * replace (length (sent net) + 1 + m)%nat with (length (sent net) + S m)%nat by lia.
        reflexivity.
    + exact Hreq.
    + intros k Hk. simpl. rewrite length_app. simpl.
      replace (length (sent net) + 1 + k)%nat with (length (sent net) + S k)%nat by lia.
      apply Hfail. lia.
Qed.

(** C1 (as amended): [Get] retries after every failed attempt, whatever its
    classification, [notFound] included.  When each of the [tryCount]
    attempts fails, [Get] has sent [tryCount] requests, has slept the retry
    interval after each of them, and returns the error of the last
    attempt. *)
Theorem Get_retries_every_failure :
  forall (h : HTTPClient) (uri : string) (net : Network) (n : nat),
    Z.to_nat (tryCount h) = S n ->
    newRequest (outside net) uri = None ->
    (forall k, (k <= n)%nat ->
       snd (read_response (roundTrip (outside net) (length (sent net) + k) uri)) <> None) ->
    HTTPClient_Get h uri net =
      (("", snd (read_response (roundTrip (outside net) (length (sent net) + n) uri))),
       {| outside := outside net;
          sent := sent net ++ repeat uri (S n);
          slept := slept net ++ repeat (retryInterval h) (S n);
          clockReads := clockReads net |}).
Proof.
  intros h uri net n Hn Hreq Hfail.
  unfold HTTPClient_Get. rewrite Hn.
  rewrite Get_attempts_all_fail; auto.
  intros k Hk. apply Hfail. lia.
Qed.

Lemma Get_retries_every_failure_witness :
  HTTPClient_Get NewHTTPClient "https://www.furaffinity.net/view/00000" always_404 =
    (("", Some (fmt_Errorf "resource not found: " ErrHTTPNotFound "")),
     {| outside := outside always_404;
        sent := repeat "https://www.furaffinity.net/view/00000" 3;
        slept := repeat defaultRetryInterval 3;
        clockReads := 0 |}).
Proof.
  apply (@Get_retries_every_failure NewHTTPClient
           "https://www.furaffinity.net/view/00000" always_404 2).
  - reflexivity.
  - reflexivity.
  - intros k _. simpl. discriminate.
Defined.

(** C1 (counterexample): on a server that answers 404 to every request the
    first attempt is classified [notFound], and [Get] with the default
    policy still sends three requests; when the page appears before the
    second attempt, [Get] does not return the [notFound] error at all. *)
Lemma Get_notFound_is_retried :
  (exists e, snd (fst (HTTPClient_get "u" always_404)) = Some e /\ classify e = notFound) /\
  sent (snd (HTTPClient_Get NewHTTPClient "u" always_404)) = ["u"; "u"; "u"] /\
  (exists e, snd (fst (HTTPClient_get "u" found_on_second_try)) = Some e /\
             classify e = notFound) /\
  HTTPClient_Get NewHTTPClient "u" found_on_second_try =
    (("Test Submission 101", None),
     {| outside := outside found_on_second_try; sent := ["u"; "u"];
        slept := [defaultRetryInterval]; clockReads := 0 |}).
Proof.
  repeat split.
  - eexists. split; reflexivity.
  - eexists. split; reflexivity.
Qed.

(** ** Cookies *)

Lemma digits_some_nonneg (s : string) : forall acc n, digits s acc = Some n -> (acc <= n)%N.
Proof.
  induction s as [|a s IH]; cbn [digits]; intros acc n Hd.
  - injection Hd as <-. lia.
  - destruct (digit a) as [d|]; [|discriminate].
    apply IH in Hd. lia.
Qed.

Lemma ParseInt_range (s : string) (t : Z) :
  ParseInt s = inl t -> (- 2 ^ 63 <= t < 2 ^ 63)%Z.
Proof.
  unfold ParseInt.
  set (split := match s with
                | String "-" s' => (true, s')
                | String "+" s' => (false, s')
                | _ => (false, s)
                end).
  destruct split as [negative body].
  destruct body as [|b body]; [discriminate|].
  destruct (digits (String b body) 0) as [n|]; [|discriminate].
  set (z := if negative then (- Z.of_N n)%Z else Z.of_N n).
  destruct ((- 2 ^ 63 <=? z)%Z && (z <? 2 ^ 63)%Z) eqn:Hb; [|discriminate].
  intros [= <-]. apply andb_true_iff in Hb. destruct Hb as [Hlo Hhi].
  apply Z.leb_le in Hlo. apply Z.ltb_lt in Hhi. lia.
Qed.

Lemma wrap64_small (z : Z) : (- 2 ^ 63 <= z < 2 ^ 63)%Z -> wrap64 z = z.
Proof.
  intros Hz. unfold wrap64. rewrite Z.mod_small; lia.
Qed.

Lemma Time_Add_oneWeek (t : Time) :
  (0 <= nsec t < second)%Z ->
  Time_Add t oneWeekDuration = {| sec := sec t + 604800; nsec := nsec t |}.
Proof.
  intros Hns. unfold Time_Add.
  replace (Z.quot oneWeekDuration second) with 604800%Z by reflexivity.
  replace (Z.rem oneWeekDuration second) with 0%Z by reflexivity.
  rewrite Z.add_0_r.
  destruct (nsec t >=? second)%Z eqn:Hge; [apply Z.geb_le in Hge; lia|].
  destruct (nsec t <? 0)%Z eqn:Hlt; [apply Z.ltb_lt in Hlt; lia|].
  reflexivity.
Qed.


(** C8: a blank line or a [#] line is skipped; a record that does not have
    seven tab-separated fields, or whose expiry is not an integer, is
    rejected; a record that expires less than one week after the reading of
    the clock is rejected with an error that ends with the name of the
    cookie; a record that expires later (within the range of [time.Unix])
    is added to the jar. *)
Theorem parseCookieLine_verdicts :
  forall (line : string) (h : HTTPClient) (net : Network),
    ((line = "" \/ HasPrefix line "#" = true) ->
       parseCookieLine line h net = (None, (h, net))) /\
    (line <> "" -> HasPrefix line "#" = false ->
     length (Split line "009") <> cookiesTxtFieldCount ->
       parseCookieLine line h net =
         (Some (fmt_Errorf "" ErrInvalidCookie (": " ++ line)), (h, net))) /\
    (forall domain flag path secure expiration name value,
       line <> "" -> HasPrefix line "#" = false ->
       Split line "009" = [domain; flag; path; secure; expiration; name; value] ->
       (forall err, ParseInt expiration = inr err ->
          parseCookieLine line h net =
            (Some (fmt_Errorf ("invalid expiration time for cookie " ++ name ++ ": ") err ""),
             (h, net))) /\
       (forall t s ns,
          ParseInt expiration = inl t ->
          clock (outside net) (clockReads net) = (s, ns) ->
          (0 <= s <= 2 ^ 62)%Z -> (0 <= ns < second)%Z ->
          ((t * second < s * second + ns + oneWeekDuration)%Z ->
             parseCookieLine line h net =
               (Some (fmt_Errorf "" ErrExpiredCookie (": " ++ name)), (h, after_clock net)) /\
             Error (fmt_Errorf "" ErrExpiredCookie (": " ++ name)) =
               "cookie is expiring, update your cookies.txt file: " ++ name) /\
          ((s * second + ns + oneWeekDuration <= t * second)%Z ->
           (t + unixToInternal < 2 ^ 63)%Z ->
           url_Parse (outside net) (cookie_url domain path secure) = None ->
             parseCookieLine line h net =
               (None,
                (SetCookies (cookie_url domain path secure)
                   {| Name := name; Value := value; Domain := domain; Path := path |} h,
                 after_clock net))))).
Proof.
  intros line h net. split; [|split].
  - intros [-> | Hc]; unfold parseCookieLine.
    + reflexivity.
    + rewrite Hc, orb_true_r. reflexivity.
  - intros Hne Hc Hlen. unfold parseCookieLine.
    apply String.eqb_neq in Hne. rewrite Hne, Hc. simpl.
    apply Nat.eqb_neq in Hlen. rewrite Hlen. reflexivity.
  - intros domain flag path secure expiration name value Hne Hc Hsplit.
    apply String.eqb_neq in Hne.
    split.
    + intros err Herr. unfold parseCookieLine.
      rewrite Hne, Hc, Hsplit. simpl. rewrite Herr. reflexivity.
    + intros t s ns Ht Hclock Hs Hns.
      pose proof (ParseInt_range _ _ Ht) as Hrange.
      assert (Hweek : oneWeekDuration = (604800 * second)%Z) by reflexivity.
      assert (Hsec : second = 1000000000%Z) by reflexivity.
      assert (HU : unixToInternal = 62135596800%Z) by reflexivity.
      assert (Hnow : time_Now net = ({| sec := s + unixToInternal; nsec := ns |}, after_clock net)).
      { unfold time_Now. rewrite Hclock. reflexivity. }
      split.
      * intros Hlt. split; [|reflexivity].
        unfold parseCookieLine.
        rewrite Hne, Hc, Hsplit. simpl. rewrite Ht, Hnow.
        rewrite Time_Add_oneWeek by (simpl; lia).
        unfold time_Unix, Time_Before. simpl.
        rewrite wrap64_small by lia.
        assert (Hb : ((t + unixToInternal <? s + unixToInternal + 604800)
                      || ((t + unixToInternal =? s + unixToInternal + 604800) && (0 <? ns)))%Z
                     = true).
        { destruct (Z.ltb_spec (t + unixToInternal) (s + unixToInternal + 604800)) as [|Hge];
            [reflexivity|].
          simpl. apply andb_true_iff. split; [apply Z.eqb_eq | apply Z.ltb_lt]; lia. }
        rewrite Hb. reflexivity.
      * intros Hge Hfit Hurl.
        unfold parseCookieLine.
        rewrite Hne, Hc, Hsplit. simpl. rewrite Ht, Hnow.
        rewrite Time_Add_oneWeek by (simpl; lia).
        unfold time_Unix, Time_Before. simpl.
        rewrite wrap64_small by lia.
        assert (Hb : ((t + unixToInternal <? s + unixToInternal + 604800)
                      || ((t + unixToInternal =? s + unixToInternal + 604800) && (0 <? ns)))%Z
                     = false).
        { apply orb_false_iff. split.
          - apply Z.ltb_ge. lia.
          - destruct (Z.eqb_spec (t + unixToInternal) (s + unixToInternal + 604800)) as [He|];
              [|reflexivity].
            simpl. apply Z.ltb_ge. lia. }
        rewrite Hb. unfold cookie_url in *. simpl in Hurl. simpl.
        rewrite Hurl. reflexivity.
Qed.

Lemma parseCookieLine_verdicts_witness :
  parseCookieLine expiring_cookie NewHTTPClient cookie_world =
    (Some (fmt_Errorf "" ErrExpiredCookie ": expired_cookie"),
     (NewHTTPClient, after_clock cookie_world)) /\
  parseCookieLine far_future_cookie NewHTTPClient cookie_world =
    (None,
     (SetCookies "https://.furaffinity.net/"
        {| Name := "test_cookie"; Value := "test_value";
           Domain := ".furaffinity.net"; Path := "/" |} NewHTTPClient,
      after_clock cookie_world)).
Proof.
  split.
  - destruct (parseCookieLine_verdicts expiring_cookie NewHTTPClient cookie_world)
      as (_ & _ & H).
    destruct (H ".furaffinity.net" "TRUE" "/" "TRUE" "1767657600" "expired_cookie"
                "expired_value") as [_ H2];
      [intro Hx; vm_compute in Hx; discriminate | reflexivity | reflexivity |].
    destruct (H2 1767657600%Z 1767225600%Z 500%Z) as [Ha _];
      [reflexivity | reflexivity | lia | unfold second; lia |].
    apply Ha. vm_compute. reflexivity.
  - destruct (parseCookieLine_verdicts far_future_cookie NewHTTPClient cookie_world)
      as (_ & _ & H).
    destruct (H ".furaffinity.net" "TRUE" "/" "TRUE" "4070937600" "test_cookie"
                "test_value") as [_ H2];
      [intro Hx; vm_compute in Hx; discriminate | reflexivity | reflexivity |].
    destruct (H2 4070937600%Z 1767225600%Z 500%Z) as [_ Hb];
      [reflexivity | reflexivity | lia | unfold second; lia |].
    apply Hb.
    + vm_compute. discriminate.
    + vm_compute. reflexivity.
    + reflexivity.
Defined.


Lemma parseCookieLine_jar (line : string) (h : HTTPClient) (net : Network) :
  match parseCookieLine line h net with
  | (None, (h', _)) => Jar h' = (Jar h ++ record_cookie line)%list
  | (Some _, (h', _)) => h' = h
  end.
Proof.
  unfold parseCookieLine, record_cookie.
  destruct (String.eqb line "" || HasPrefix line "#").
  - now rewrite app_nil_r.
  - destruct (negb (length (Split line "009") =? cookiesTxtFieldCount)%nat); [reflexivity|].
    destruct (ParseInt (nth 4 (Split line "009") "")) as [t|err]; [|reflexivity].
    destruct (time_Now net) as [now net1].
    destruct (Time_Before (time_Unix t) (Time_Add now oneWeekDuration)); [reflexivity|].
    unfold cookie_url.
    destruct (url_Parse (outside net1) _); reflexivity.
Qed.

Lemma LoadCookies_lines_jar (lines : list string) :
  forall h net h' net',
    LoadCookies_lines lines h net = (None, (h', net')) ->
    Jar h' = (Jar h ++ flat_map (fun text => record_cookie (TrimSpace text)) lines)%list.
Proof.
  induction lines as [|text rest IH]; simpl; intros h net h' net' Hrun.
  - injection Hrun as <- _. now rewrite app_nil_r.
  - pose proof (parseCookieLine_jar (TrimSpace text) h net) as Hjar.
    destruct (parseCookieLine (TrimSpace text) h net) as [[err|] [h1 net1]]; [discriminate|].
    apply IH in Hrun. rewrite Hrun, Hjar. now rewrite app_assoc.
Qed.

Lemma LoadCookies_lines_stops (before : list string) (bad : string) (after : list string) :
  forall h net h1 net1 err state,
    LoadCookies_lines before h net = (None, (h1, net1)) ->
    parseCookieLine (TrimSpace bad) h1 net1 = (Some err, state) ->
    LoadCookies_lines (before ++ bad :: after) h net =
      (Some (fmt_Errorf "failed to load cookie: " err ""), state).
Proof.
  induction before as [|text rest IH]; simpl; intros h net h1 net1 err state Hrun Hbad.
  - injection Hrun as <- <-. now rewrite Hbad.
  - destruct (parseCookieLine (TrimSpace text) h net) as [[e|] [h2 net2]]; [discriminate|].
    eapply IH; eauto.
Qed.

(** C10: when a line of the file is rejected, [LoadCookies] returns the
    error with the jar holding the cookie of every record that precedes
    that line, after the cookies the jar held before the call. *)
Theorem LoadCookies_keeps_earlier_cookies :
  forall (filename : string) (h : HTTPClient) (net : Network)
         (before : list string) (bad : string) (after : list string)
         (scanErr : option error) (h1 : HTTPClient) (net1 : Network)
         (err : error) (state : HTTPClient * Network),
    os_Open (outside net) filename = inl ((before ++ bad :: after)%list, scanErr) ->
    LoadCookies_lines before h net = (None, (h1, net1)) ->
    parseCookieLine (TrimSpace bad) h1 net1 = (Some err, state) ->
    LoadCookies filename h net =
      (Some (fmt_Errorf "failed to load cookie: " err ""), state) /\
    Jar (fst state) =
      (Jar h ++ flat_map (fun text => record_cookie (TrimSpace text)) before)%list.
Proof.
  intros filename h net before bad after scanErr h1 net1 err state Hopen Hbefore Hbad.
  split.
  - unfold LoadCookies. rewrite Hopen.
    erewrite LoadCookies_lines_stops; eauto.
  - pose proof (parseCookieLine_jar (TrimSpace bad) h1 net1) as Hjar.
    rewrite Hbad in Hjar. destruct state as [h2 net2]. simpl. subst h2.
    eapply LoadCookies_lines_jar; eauto.
Qed.

Lemma LoadCookies_keeps_earlier_cookies_witness :
  LoadCookies "cookies.txt" NewHTTPClient cookie_world =
    (Some (fmt_Errorf "failed to load cookie: "
             (fmt_Errorf "" ErrExpiredCookie ": expired_cookie") ""),
     (SetCookies "https://.furaffinity.net/"
        {| Name := "test_cookie"; Value := "test_value";
           Domain := ".furaffinity.net"; Path := "/" |} NewHTTPClient,
      after_clock (after_clock cookie_world))) /\
  Jar (SetCookies "https://.furaffinity.net/"
         {| Name := "test_cookie"; Value := "test_value";
            Domain := ".furaffinity.net"; Path := "/" |} NewHTTPClient) =
    [("https://.furaffinity.net/",
      {| Name := "test_cookie"; Value := "test_value";
         Domain := ".furaffinity.net"; Path := "/" |})].
Proof.
  apply (@LoadCookies_keeps_earlier_cookies "cookies.txt" NewHTTPClient cookie_world
           ["# Netscape HTTP Cookie File"; far_future_cookie] expiring_cookie []
           None
           (SetCookies "https://.furaffinity.net/"
              {| Name := "test_cookie"; Value := "test_value";
                 Domain := ".furaffinity.net"; Path := "/" |} NewHTTPClient)
           (after_clock cookie_world)).
  - reflexivity.
  - vm_compute. reflexivity.
  - vm_compute. reflexivity.
Defined.

(** The error of the expiring record reads as the test of the loader
    expects it. *)
Example LoadCookies_expired_message :
  option_map Error (fst (LoadCookies "cookies.txt" NewHTTPClient cookie_world)) =
    Some "failed to load cookie: cookie is expiring, update your cookies.txt file: expired_cookie".
Proof. vm_compute. reflexivity. Qed.

(** ** The watchlist crawler *)

Lemma mem_app (x : string) (l m : list string) : mem x (l ++ m) = mem x l || mem x m.
Proof. unfold mem. apply existsb_app. Qed.

Lemma filter_filter (A : Type) (f g : A -> bool) (l : list A) :
  filter f (filter g l) = filter (fun x => g x && f x) l.
Proof.
  induction l as [|a l IH]; simpl; [reflexivity|].
  destruct (g a); simpl; [destruct (f a)|]; now rewrite IH.
Qed.

(** [fresh] keeps, of the deduplicated list, what was not seen before. *)
Lemma fresh_dedup (names : list string) :
  forall seen, fresh seen names = filter (fun x => negb (mem x seen)) (dedup names).
Proof.
  induction names as [|u rest IH]; intros seen; simpl; [reflexivity|].
  destruct (mem u seen) eqn:Hu; simpl.
  - rewrite IH, filter_filter. apply filter_ext. intros x.
    destruct (String.eqb_spec x u) as [->|]; simpl; [now rewrite Hu | reflexivity].
  - f_equal. rewrite IH, filter_filter. apply filter_ext. intros x.
    rewrite mem_app. simpl. rewrite orb_false_r, negb_orb, String.eqb_sym at 1.
    rewrite (String.eqb_sym u x). apply andb_comm.
Qed.

Lemma dedup_fresh (names : list string) : dedup names = fresh [] names.
Proof.
  rewrite fresh_dedup. simpl. induction (dedup names); simpl; congruence.
Qed.

Lemma fresh_app (a : list string) :
  forall seen b, fresh seen (a ++ b) = (fresh seen a ++ fresh (seen ++ fresh seen a) b)%list.
Proof.
  induction a as [|u a IH]; intros seen b; simpl.
  - now rewrite app_nil_r.
  - destruct (mem u seen); simpl; [apply IH|].
    rewrite IH. f_equal. f_equal. now rewrite <- app_assoc.
Qed.

Lemma FindAllSubmatch_from_pairs (body : string) :
  forall skip m, In m (FindAllSubmatch_from skip body) -> length m = 2%nat.
Proof.
  induction body as [|a body IH]; intros skip m Hin; simpl in Hin; [contradiction|].
  destruct skip as [|skip]; [|eauto].
  destruct (match_user_here (String a body)); [|eauto].
  destruct Hin as [<-|Hin]; [reflexivity | eauto].
Qed.

(** The inner loop of [GetWatchlist] appends the new names of the page. *)
Lemma add_usernames_fresh (matches : list (list string)) :
  forall seen usernames count,
    (forall m, In m matches -> length m = 2%nat) ->
    (forall x, seen x = mem x usernames) ->
    let names := map (fun m => nth 1 m "") matches in
    let '(seen', usernames', count') := add_usernames matches seen usernames count in
    usernames' = (usernames ++ fresh usernames names)%list /\
    count' = (count + length (fresh usernames names))%nat /\
    (forall x, seen' x = mem x usernames').
Proof.
  induction matches as [|m rest IH]; intros seen usernames count Hpairs Hseen; simpl.
  - rewrite app_nil_r, Nat.add_0_r. auto.
  - rewrite (Hpairs m (or_introl eq_refl)). simpl.
    rewrite Hseen.
    destruct (mem (nth 1 m "") usernames) eqn:Hu; simpl.
    + apply IH; auto. intros m' Hm'. apply Hpairs. now right.
    + specialize (IH (fun x => if String.eqb x (nth 1 m "") then true else seen x)
                     (usernames ++ [nth 1 m ""])%list (S count)).
      simpl in IH.
      destruct (add_usernames rest _ _ _) as [[seen' usernames'] count'].
      destruct IH as (Hnames & Hcount & Hmem).
      * intros m' Hm'. apply Hpairs. now right.
      * intros x. rewrite mem_app. simpl. rewrite orb_false_r, Hseen.
        destruct (String.eqb x (nth 1 m "")); [now rewrite orb_true_r | now rewrite orb_false_r].
      * repeat split; auto.
        -- rewrite Hnames, <- app_assoc. reflexivity.
        -- rewrite Hcount. simpl. lia.
Qed.

Lemma add_usernames_page (body : bytes) (seen : string -> bool) (usernames : list string) :
  (forall x, seen x = mem x usernames) ->
  let '(seen', usernames', count') := add_usernames (FindAllSubmatch body) seen usernames 0 in
  usernames' = (usernames ++ fresh usernames (page_names body))%list /\
  count' = length (fresh usernames (page_names body)) /\
  (forall x, seen' x = mem x usernames').
Proof.
  intros Hseen.
  pose proof (@add_usernames_fresh (FindAllSubmatch body) seen usernames 0
                (FindAllSubmatch_from_pairs body 0) Hseen) as H.
  simpl in H. exact H.
Qed.

Lemma watchlist_pages_step (user : string) (fuel pageNum : nat) (seen : string -> bool)
    (usernames : list string) (site : Site) (fs : FS) (b : option nat) :
  watchlist_pages user (S fuel) pageNum seen usernames (on_site site fs b) =
    if (maxWatchlistPages <? pageNum)%nat then
      (Panicked "maximum watchlist pages exceeded", on_site site fs b)
    else
      let url := watchlist_url user pageNum in
      let site' := visit (Plain url) site in
      match respond site (length (fetched site)) url with
      | (_, Some e) =>
          (Return ([], Some (fmt_Errorf "failed to fetch watchlist page: " e "")),
           on_site site' fs b)
      | (body, None) =>
          let '(seen', usernames', newUsernames) :=
            add_usernames (FindAllSubmatch body) seen usernames 0 in
          if (newUsernames <? minNewUsernamesThreshold)%nat then
            (Return (usernames', None), on_site site' fs b)
          else watchlist_pages user fuel (S pageNum) seen' usernames' (on_site site' fs b)
      end.
Proof.
  cbn [watchlist_pages].
  destruct (maxWatchlistPages <? pageNum)%nat; [reflexivity|].
  unfold bind, request, on_site. cbn [client disk budget Get Site_Client].
  destruct (respond site (length (fetched site)) (watchlist_url user pageNum)) as [body [e|]];
    [reflexivity|].
  destruct (add_usernames (FindAllSubmatch body) seen usernames 0) as [[seen' usernames'] n].
  destruct (n <? minNewUsernamesThreshold)%nat; reflexivity.
Qed.

Lemma visited_visit (site : Site) (f : Fetch) (more : list Fetch) :
  visited (visit f site) more = visited site (f :: more).
Proof. unfold visited, visit. simpl. now rewrite <- app_assoc. Qed.

Lemma visited_nil (site : Site) : visited site [] = site.
Proof. unfold visited. rewrite app_nil_r. now destruct site. Qed.

Lemma serves_tail (site : Site) (url : nat -> string) (first : nat) (body : bytes)
    (rest : list bytes) (f : Fetch) :
  serves site url first (body :: rest) ->
  respond site (length (fetched site)) (url first) = (body, None) /\
  serves (visit f site) url (S first) rest.
Proof.
  intros Hs. split.
  - specialize (Hs 0%nat). simpl in Hs. rewrite !Nat.add_0_r in Hs. apply Hs. lia.
  - intros n Hn. specialize (Hs (S n)). simpl in Hs.
    unfold visit. simpl. rewrite length_app. simpl.
    replace (length (fetched site) + 1 + n)%nat with (length (fetched site) + S n)%nat by lia.
    replace (S (first + n)) with (first + S n)%nat by lia.
    apply Hs. lia.
Qed.

Lemma watchlist_pages_stop (user : string) (pages : list bytes) :
  forall fuel pageNum seen usernames site fs b,
    (length pages <= fuel)%nat ->
    (pageNum + length pages <= S maxWatchlistPages)%nat ->
    (forall x, seen x = mem x usernames) ->
    serves site (watchlist_url user) pageNum pages ->
    ends_at_growth_drop usernames pages = true ->
    watchlist_pages user fuel pageNum seen usernames (on_site site fs b) =
      (Return ((usernames ++ fresh usernames (flat_map page_names pages))%list, None),
       on_site (visited site (visits Plain (watchlist_url user) pageNum (length pages))) fs b).
Proof.
  induction pages as [|body rest IH];
    intros fuel pageNum seen usernames site fs b Hfuel Hceil Hseen Hserves Hends;
    [discriminate|].
  simpl in Hfuel, Hceil.
  destruct fuel as [|fuel]; [lia|].
  rewrite watchlist_pages_step.
  destruct (Nat.ltb_spec maxWatchlistPages pageNum) as [Hgt|_]; [lia|].
  cbv zeta.
  destruct (serves_tail _ _ _ _ _ (Plain (watchlist_url user pageNum)) Hserves) as [Hbody Hrest].
  rewrite Hbody.
  pose proof (add_usernames_page body _ _ Hseen) as Hadd.
  destruct (add_usernames (FindAllSubmatch body) seen usernames 0) as [[seen' usernames'] n].
  destruct Hadd as (Hnames & Hcount & Hmem).
  simpl in Hends. rewrite <- Hcount in Hends.
  change (flat_map page_names (body :: rest))
    with (page_names body ++ flat_map page_names rest)%list.
  rewrite fresh_app, app_assoc, <- Hnames.
  change (visits Plain (watchlist_url user) pageNum (length (body :: rest)))
    with (Plain (watchlist_url user pageNum)
            :: visits Plain (watchlist_url user) (S pageNum) (length rest)).
  rewrite <- visited_visit.
  destruct (n <? minNewUsernamesThreshold)%nat.
  - destruct rest; [|discriminate]. simpl.
    rewrite app_nil_r, visited_nil. reflexivity.
  - rewrite <- Hnames in Hends. apply IH; auto; lia.
Qed.

(** C5: when the site serves the pages of a watchlist up to its growth-drop
    page, the first page that brings fewer than two new names, and that
    page is within the ceiling, [GetWatchlist] returns the names of those
    pages without their repetitions, each at its first occurrence, and has
    fetched those pages, in order, and nothing else: whatever the site
    holds past the growth-drop page is never asked for. *)
Theorem GetWatchlist_stops_at_growth_drop :
  forall (site : Site) (user : string) (pages : list bytes) (fs : FS) (b : option nat),
    (length pages <= maxWatchlistPages)%nat ->
    serves site (watchlist_url user) 1 pages ->
    ends_at_growth_drop [] pages = true ->
    GetWatchlist user (on_site site fs b) =
      (Return (dedup (flat_map page_names pages), None),
       on_site (visited site (visits Plain (watchlist_url user) 1 (length pages))) fs b).
Proof.
  intros site user pages fs b Hlen Hserves Hends.
  unfold GetWatchlist. rewrite dedup_fresh.
  apply (@watchlist_pages_stop user pages (S maxWatchlistPages) 1 (fun _ => false) []);
    auto; lia.
Qed.

Lemma GetWatchlist_stops_at_growth_drop_witness :
  GetWatchlist "test-watcher" (on_site watchlist_site [] None) =
    (Return (["lorem"; "ipsum"; "dolor"; "sit"; "amet"], None),
     on_site (visited watchlist_site
                [Plain "https://www.furaffinity.net/watchlist/by/test-watcher/1";
                 Plain "https://www.furaffinity.net/watchlist/by/test-watcher/2";
                 Plain "https://www.furaffinity.net/watchlist/by/test-watcher/3"]) [] None).
Proof.
  apply (GetWatchlist_stops_at_growth_drop watchlist_site "test-watcher"
           [watchlist_page 1; watchlist_page 2; watchlist_page 3] [] None).
  - unfold maxWatchlistPages. simpl. lia.
  - intros n Hn. destruct n as [|[|[|n]]]; [reflexivity .. | simpl in Hn; lia].
  - vm_compute. reflexivity.
Defined.

Lemma watchlist_pages_ceiling (user : string) (pages : list bytes) :
  forall fuel pageNum seen usernames site fs b,
    (length pages < fuel)%nat ->
    (pageNum + length pages = S maxWatchlistPages)%nat ->
    (forall x, seen x = mem x usernames) ->
    serves site (watchlist_url user) pageNum pages ->
    keeps_growing usernames pages = true ->
    watchlist_pages user fuel pageNum seen usernames (on_site site fs b) =
      (Panicked "maximum watchlist pages exceeded",
       on_site (visited site (visits Plain (watchlist_url user) pageNum (length pages))) fs b).
Proof.
  induction pages as [|body rest IH];
    intros fuel pageNum seen usernames site fs b Hfuel Hceil Hseen Hserves Hgrow;
    simpl in Hfuel, Hceil; (destruct fuel as [|fuel]; [lia|]);
    rewrite watchlist_pages_step.
  - destruct (Nat.ltb_spec maxWatchlistPages pageNum) as [_|Hle]; [|lia].
    unfold visits. simpl. now rewrite visited_nil.
  - destruct (Nat.ltb_spec maxWatchlistPages pageNum) as [Hgt|_]; [lia|].
    cbv zeta.
    destruct (serves_tail _ _ _ _ _ (Plain (watchlist_url user pageNum)) Hserves)
      as [Hbody Hrest].
    rewrite Hbody.
    pose proof (add_usernames_page body _ _ Hseen) as Hadd.
    destruct (add_usernames (FindAllSubmatch body) seen usernames 0)
      as [[seen' usernames'] n].
    destruct Hadd as (Hnames & Hcount & Hmem).
    simpl in Hgrow. rewrite <- Hcount, <- Hnames in Hgrow.
    apply andb_true_iff in Hgrow. destruct Hgrow as [Hn Hgrow].
    apply negb_true_iff in Hn. rewrite Hn.
    change (visits Plain (watchlist_url user) pageNum (length (body :: rest)))
      with (Plain (watchlist_url user pageNum)
              :: visits Plain (watchlist_url user) (S pageNum) (length rest)).
    rewrite <- visited_visit.
    apply IH; auto; lia.
Qed.

(** Whatever the site answers, the watchlist crawl asks for consecutive
    pages, none past the ceiling, and panics only after the page at the
    ceiling. *)
Lemma watchlist_pages_bounded (user : string) :
  forall fuel pageNum seen usernames site fs b r w',
    (pageNum <= S maxWatchlistPages < fuel + pageNum)%nat ->
    watchlist_pages user fuel pageNum seen usernames (on_site site fs b) = (r, w') ->
    exists m,
      (pageNum + m <= S maxWatchlistPages)%nat /\
      w' = on_site (visited site (visits Plain (watchlist_url user) pageNum m)) fs b /\
      r <> OutOfFuel /\ r <> Killed /\
      (forall message, r = Panicked message ->
         message = "maximum watchlist pages exceeded" /\
         (pageNum + m = S maxWatchlistPages)%nat).
Proof.
  induction fuel as [|fuel IH]; intros pageNum seen usernames site fs b r w' Hfuel Hrun;
    [lia|].
  rewrite watchlist_pages_step in Hrun.
  destruct (Nat.ltb_spec maxWatchlistPages pageNum) as [Hgt|Hle].
  - injection Hrun as <- <-. exists 0%nat. unfold visits. simpl. rewrite visited_nil.
    split; [lia|]. split; [reflexivity|]. split; [discriminate|]. split; [discriminate|].
    intros message [= <-]. split; [reflexivity | lia].
  - cbv zeta in Hrun.
    destruct (respond site (length (fetched site)) (watchlist_url user pageNum))
      as [body [e|]].
    + injection Hrun as <- <-. exists 1%nat.
      split; [lia|]. split; [reflexivity|]. repeat (split; [discriminate|]). discriminate.
    + destruct (add_usernames (FindAllSubmatch body) seen usernames 0)
        as [[seen' usernames'] n].
      destruct (n <? minNewUsernamesThreshold)%nat.
      * injection Hrun as <- <-. exists 1%nat.
        split; [lia|]. split; [reflexivity|]. repeat (split; [discriminate|]). discriminate.
      * apply IH in Hrun; [|lia].
        destruct Hrun as (m & Hm & -> & Hfuel' & Hkill & Hpanic).
        exists (S m). rewrite visited_visit.
        split; [lia|]. split; [reflexivity|]. split; [assumption|]. split; [assumption|].
        intros message Hr. apply Hpanic in Hr. split; [tauto | lia].
Qed.

(** ** The gallery crawler *)

Section Gallery.

Context `{Parser}.

Lemma parse_links_reads_only (dir : string) (reCrawl : bool) (links : list Node) :
  forall (acc : list Submission) (w : World Site) r w',
    parse_links links dir reCrawl acc w = (r, w') ->
    w' = w /\ r <> Killed /\ r <> OutOfFuel /\
    r <> Panicked "maximum gallery pages exceeded".
Proof.
  induction links as [|link rest IH]; intros acc w r w' Hrun; simpl in Hrun.
  - injection Hrun as <- <-. repeat split; discriminate.
  - destruct (Attr link "href") as [href|].
    + destruct (ParseUint (TrimPrefix (TrimSuffix href "/") "/view/")) as [id|err].
      * unfold bind in Hrun.
        destruct reCrawl; simpl in Hrun.
        -- now apply IH in Hrun.
        -- destruct (IsSaved_on (disk w) (NewSubmission id dir)).
           ++ injection Hrun as <- <-. repeat split; discriminate.
           ++ now apply IH in Hrun.
      * injection Hrun as <- <-. repeat split; discriminate.
    + injection Hrun as <- <-. repeat split; discriminate.
Qed.

Lemma parse_links_grows (dir : string) (reCrawl : bool) (fs : FS) (links : list Node) :
  forall (ids : list N) (acc : list Submission) (w : World Site),
    disk w = fs ->
    link_ids links = Some ids ->
    reCrawl || negb (existsb (fun i => IsSaved_on fs (NewSubmission i dir)) ids) = true ->
    parse_links links dir reCrawl acc w =
      (Return ((acc ++ map (fun i => NewSubmission i dir) ids)%list, false), w).
Proof.
  induction links as [|link rest IH]; intros ids acc w Hfs Hids Hnew; simpl in Hids.
  - injection Hids as <-. simpl. now rewrite app_nil_r.
  - unfold link_id in Hids. simpl.
    destruct (Attr link "href") as [href|]; [|discriminate].
    destruct (ParseUint (TrimPrefix (TrimSuffix href "/") "/view/")) as [id|err];
      [|discriminate].
    destruct (link_ids rest) as [ids'|] eqn:Hrest; [|discriminate].
    injection Hids as <-.
    unfold bind.
    assert (Hnew' : reCrawl
                    || negb (existsb (fun i => IsSaved_on fs (NewSubmission i dir)) ids') = true).
    { destruct reCrawl; [reflexivity|]. simpl in *.
      apply negb_true_iff in Hnew. apply orb_false_iff in Hnew.
      apply negb_true_iff. tauto. }
    destruct reCrawl; simpl.
    + rewrite (IH ids' _ w Hfs eq_refl Hnew'). now rewrite <- app_assoc.
    + simpl in Hnew. apply negb_true_iff in Hnew. apply orb_false_iff in Hnew.
      unfold IsSaved, inspect. rewrite Hfs. destruct Hnew as [-> _]. simpl.
      rewrite (IH ids' _ w Hfs eq_refl Hnew'). now rewrite <- app_assoc.
Qed.

Lemma crawl_pages_step (a : Artist) (scraps reCrawl : bool) (fuel pageNum : nat)
    (submissions : list Submission) (site : Site) (fs : FS) (b : option nat) :
  crawl_pages a (if scraps then "scraps" else "gallery") (gallery_dir a scraps) reCrawl
              (S fuel) pageNum submissions (on_site site fs b) =
    if (maxGalleryPages <? pageNum)%nat then
      (Panicked "maximum gallery pages exceeded", on_site site fs b)
    else
      let url := gallery_url a scraps pageNum in
      let site' := visit (Delayed url) site in
      match respond site (length (fetched site)) url with
      | (_, Some e) =>
          (Return ([], Some (fmt_Errorf "failed to fetch gallery page: " e "")),
           on_site site' fs b)
      | (body, None) =>
          match parseSubmissionsFromPage body (gallery_dir a scraps) reCrawl
                  (on_site site' fs b) with
          | (Return (pageSubmissions, stopCrawling), w1) =>
              if (length pageSubmissions =? 0)%nat || stopCrawling then
                (Return (rev (submissions ++ pageSubmissions), None), w1)
              else
                crawl_pages a (if scraps then "scraps" else "gallery") (gallery_dir a scraps)
                  reCrawl fuel (S pageNum) (submissions ++ pageSubmissions)%list w1
          | (Panicked message, w1) => (Panicked message, w1)
          | (Killed, w1) => (Killed, w1)
          | (OutOfFuel, w1) => (OutOfFuel, w1)
          end
      end.
Proof.
  cbn [crawl_pages].
  destruct (maxGalleryPages <? pageNum)%nat; [reflexivity|].
  unfold bind at 1. unfold request, on_site. cbn [client disk budget GetWithDelay Site_Client].
  fold (gallery_url a scraps pageNum).
  destruct (respond site (length (fetched site)) (gallery_url a scraps pageNum))
    as [body [e|]]; [reflexivity|].
  unfold bind.
  destruct (parseSubmissionsFromPage body (gallery_dir a scraps) reCrawl _)
    as [[[pageSubmissions stop]| | |] w1]; try reflexivity.
  destruct ((length pageSubmissions =? 0)%nat || stop); reflexivity.
Qed.

Lemma crawl_pages_ceiling (a : Artist) (scraps reCrawl : bool) (fs : FS)
    (pages : list bytes) :
  forall fuel pageNum submissions site b,
    (length pages < fuel)%nat ->
    (pageNum + length pages = S maxGalleryPages)%nat ->
    serves site (gallery_url a scraps) pageNum pages ->
    forallb (page_grows fs (gallery_dir a scraps) reCrawl) pages = true ->
    crawl_pages a (if scraps then "scraps" else "gallery") (gallery_dir a scraps) reCrawl
                fuel pageNum submissions (on_site site fs b) =
      (Panicked "maximum gallery pages exceeded",
       on_site (visited site (visits Delayed (gallery_url a scraps) pageNum (length pages)))
               fs b).
Proof.
  induction pages as [|body rest IH];
    intros fuel pageNum submissions site b Hfuel Hceil Hserves Hgrow;
    simpl in Hfuel, Hceil; (destruct fuel as [|fuel]; [lia|]);
    rewrite crawl_pages_step.
  - destruct (Nat.ltb_spec maxGalleryPages pageNum) as [_|Hle]; [|lia].
    unfold visits. simpl. now rewrite visited_nil.
  - destruct (Nat.ltb_spec maxGalleryPages pageNum) as [Hgt|_]; [lia|].
    cbv zeta.
    destruct (serves_tail _ _ _ _ _ (Delayed (gallery_url a scraps pageNum)) Hserves)
      as [Hbody Hrest].
    rewrite Hbody.
    simpl in Hgrow. apply andb_true_iff in Hgrow. destruct Hgrow as [Hpage Hgrow].
    unfold page_grows in Hpage. unfold parseSubmissionsFromPage.
    destruct (link_ids (Find_view_links (NewDocumentFromReader body))) as [[|id ids]|] eqn:Hids;
      try discriminate.
    erewrite parse_links_grows; [| reflexivity | exact Hids | exact Hpage].
    change (visits Delayed (gallery_url a scraps) pageNum (length (body :: rest)))
      with (Delayed (gallery_url a scraps pageNum)
              :: visits Delayed (gallery_url a scraps) (S pageNum) (length rest)).
    rewrite <- visited_visit.
    cbn [app map length Nat.eqb orb].
    apply IH; auto; lia.
Qed.

(** Whatever the site answers, a gallery crawl asks for consecutive pages,
    none past the ceiling, and takes the ceiling's panic only after the
    page at the ceiling. *)
Lemma crawl_pages_bounded (a : Artist) (scraps reCrawl : bool) :
  forall fuel pageNum submissions site fs b r w',
    (pageNum <= S maxGalleryPages < fuel + pageNum)%nat ->
    crawl_pages a (if scraps then "scraps" else "gallery") (gallery_dir a scraps) reCrawl
                fuel pageNum submissions (on_site site fs b) = (r, w') ->
    exists m,
      (pageNum + m <= S maxGalleryPages)%nat /\
      w' = on_site (visited site (visits Delayed (gallery_url a scraps) pageNum m)) fs b /\
      r <> OutOfFuel /\ r <> Killed /\
      (r = Panicked "maximum gallery pages exceeded" ->
         (pageNum + m = S maxGalleryPages)%nat).
Proof.
  induction fuel as [|fuel IH]; intros pageNum submissions site fs b r w' Hfuel Hrun;
    [lia|].
  rewrite crawl_pages_step in Hrun.
  destruct (Nat.ltb_spec maxGalleryPages pageNum) as [Hgt|Hle].
  - injection Hrun as <- <-. exists 0%nat. unfold visits. simpl. rewrite visited_nil.
    split; [lia|]. split; [reflexivity|]. split; [discriminate|]. split; [discriminate|].
    intros _. lia.
  - cbv zeta in Hrun.
    destruct (respond site (length (fetched site)) (gallery_url a scraps pageNum))
      as [body [e|]].
    + injection Hrun as <- <-. exists 1%nat.
      split; [lia|]. split; [reflexivity|]. repeat (split; [discriminate|]). discriminate.
    + unfold parseSubmissionsFromPage in Hrun.
      destruct (parse_links (Find_view_links (NewDocumentFromReader body))
                  (gallery_dir a scraps) reCrawl []
                  (on_site (visit (Delayed (gallery_url a scraps pageNum)) site) fs b))
        as [r1 w1] eqn:Hparse.
      apply parse_links_reads_only in Hparse.
      destruct Hparse as (-> & Hk & Hf & Hp).
      destruct r1 as [[pageSubmissions stop]|message| |].
      * destruct ((length pageSubmissions =? 0)%nat || stop).
        -- injection Hrun as <- <-. exists 1%nat.
           split; [lia|]. split; [reflexivity|]. repeat (split; [discriminate|]).
           discriminate.
        -- apply IH in Hrun; [|lia].
           destruct Hrun as (m & Hm & -> & Hfuel' & Hkill & Hpanic).
           exists (S m). rewrite visited_visit.
           split; [lia|]. split; [reflexivity|]. split; [assumption|]. split; [assumption|].
           intros Hr. apply Hpanic in Hr. lia.
      * injection Hrun as <- <-. exists 1%nat.
        split; [lia|]. split; [reflexivity|]. repeat (split; [discriminate|]).
        intros Hr. injection Hr as ->. now elim Hp.
      * now elim Hk.
      * now elim Hf.
Qed.

End Gallery.

(** C3: on the pages [103, 104], [55555] and [] with submission 104
    archived, a crawl that is not a re-crawl yields submission 103 and
    fetches the first page only; a re-crawl fetches the three pages and
    yields 55555, 104, 103. *)
Theorem gallery_stop_rule :
  Submissions testartist false true (on_site testartist_site testartist_disk None) =
    (Return ([NewSubmission 103 "dl/testartist"], None),
     on_site (visited testartist_site
                [Delayed "https://www.furaffinity.net/gallery/testartist/1"])
             testartist_disk None) /\
  Submissions testartist true true (on_site testartist_site testartist_disk None) =
    (Return ([NewSubmission 55555 "dl/testartist"; NewSubmission 104 "dl/testartist";
              NewSubmission 103 "dl/testartist"], None),
     on_site (visited testartist_site
                [Delayed "https://www.furaffinity.net/gallery/testartist/1";
                 Delayed "https://www.furaffinity.net/gallery/testartist/2";
                 Delayed "https://www.furaffinity.net/gallery/testartist/3"])
             testartist_disk None).
Proof.
  split; vm_compute; reflexivity.
Qed.

(** C6: a watchlist whose first 100 pages each bring two new names or more,
    and a gallery whose first 1000 pages each keep the crawl going, make the
    crawler panic, and the pages fetched are exactly those up to the
    ceiling.  Whatever the site answers, the pages fetched are consecutive
    from page 1 and none is past the ceiling, and the ceiling's panic is
    only taken once the page at the ceiling was fetched. *)
Theorem crawlers_abort_at_ceiling :
  (forall (site : Site) (user : string) (pages : list bytes) (fs : FS) (b : option nat),
     length pages = maxWatchlistPages ->
     serves site (watchlist_url user) 1 pages ->
     keeps_growing [] pages = true ->
     GetWatchlist user (on_site site fs b) =
       (Panicked "maximum watchlist pages exceeded",
        on_site (visited site (visits Plain (watchlist_url user) 1 maxWatchlistPages)) fs b)) /\
  (forall (site : Site) (user : string) (fs : FS) (b : option nat) r w',
     GetWatchlist user (on_site site fs b) = (r, w') ->
     exists m,
       (m <= maxWatchlistPages)%nat /\
       w' = on_site (visited site (visits Plain (watchlist_url user) 1 m)) fs b /\
       r <> OutOfFuel /\
       (forall message, r = Panicked message ->
          message = "maximum watchlist pages exceeded" /\ m = maxWatchlistPages)) /\
  (forall (P : Parser) (site : Site) (a : Artist) (reCrawl scraps : bool)
          (pages : list bytes) (fs : FS) (b : option nat),
     length pages = maxGalleryPages ->
     serves site (gallery_url a scraps) 1 pages ->
     forallb (page_grows fs (gallery_dir a scraps) reCrawl) pages = true ->
     crawlSubmissions a reCrawl scraps (on_site site fs b) =
       (Panicked "maximum gallery pages exceeded",
        on_site (visited site (visits Delayed (gallery_url a scraps) 1 maxGalleryPages)) fs b)) /\
  (forall (P : Parser) (site : Site) (a : Artist) (reCrawl scraps : bool)
          (fs : FS) (b : option nat) r w',
     crawlSubmissions a reCrawl scraps (on_site site fs b) = (r, w') ->
     exists m,
       (m <= maxGalleryPages)%nat /\
       w' = on_site (visited site (visits Delayed (gallery_url a scraps) 1 m)) fs b /\
       r <> OutOfFuel /\
       (r = Panicked "maximum gallery pages exceeded" -> m = maxGalleryPages)).
Proof.
  split; [|split; [|split]].
  - intros site user pages fs b Hlen Hserves Hgrow.
    unfold GetWatchlist. rewrite <- Hlen.
    apply watchlist_pages_ceiling; auto; lia.
  - intros site user fs b r w' Hrun.
    unfold GetWatchlist in Hrun.
    apply watchlist_pages_bounded in Hrun; [|lia].
    destruct Hrun as (m & Hm & -> & Hfuel & _ & Hpanic).
    exists m. split; [lia|]. split; [reflexivity|]. split; [assumption|].
    intros message Hr. apply Hpanic in Hr. split; [tauto | lia].
  - intros P site a reCrawl scraps pages fs b Hlen Hserves Hgrow.
    unfold crawlSubmissions. fold (gallery_dir a scraps). rewrite <- Hlen.
    apply crawl_pages_ceiling; auto; lia.
  - intros P site a reCrawl scraps fs b r w' Hrun.
    unfold crawlSubmissions in Hrun. fold (gallery_dir a scraps) in Hrun.
    apply crawl_pages_bounded in Hrun; [|lia].
    destruct Hrun as (m & Hm & -> & Hfuel & _ & Hpanic).
    exists m. split; [lia|]. split; [reflexivity|]. split; [assumption|].
    intros Hr. apply Hpanic in Hr. lia.
Qed.

Lemma nth_map_seq (A : Type) (f : nat -> A) (d : A) (first count n : nat) :
  (n < count)%nat -> nth n (map f (seq first count)) d = f (first + n)%nat.
Proof.
  intros Hn. rewrite (nth_indep _ d (f 0%nat)) by now rewrite length_map, length_seq.
  now rewrite map_nth, seq_nth.
Qed.

Lemma crawlers_abort_at_ceiling_witness :
  GetWatchlist "infinite-watcher" (on_site infinite_watcher [] None) =
    (Panicked "maximum watchlist pages exceeded",
     on_site (visited infinite_watcher
                (visits Plain (watchlist_url "infinite-watcher") 1 maxWatchlistPages))
             [] None) /\
  crawlSubmissions infinite_artist false false (on_site infinite_artist_site [] None) =
    (Panicked "maximum gallery pages exceeded",
     on_site (visited infinite_artist_site
                (visits Delayed (gallery_url infinite_artist false) 1 maxGalleryPages))
             [] None).
Proof.
  destruct crawlers_abort_at_ceiling as (Hwatch & _ & Hgallery & _).
  split.
  - apply (Hwatch infinite_watcher "infinite-watcher"
             (map infinite_page (seq 1 maxWatchlistPages)) [] None).
    + now rewrite length_map, length_seq.
    + intros n Hn. rewrite length_map, length_seq in Hn.
      rewrite nth_map_seq by assumption. reflexivity.
    + vm_compute. reflexivity.
  - apply (Hgallery known_parser infinite_artist_site infinite_artist false false
             (map (fun i => fst (infinite_gallery_page i)) (seq 1 maxGalleryPages)) [] None).
    + now rewrite length_map, length_seq.
    + intros n Hn. rewrite length_map, length_seq in Hn.
      rewrite nth_map_seq by assumption. reflexivity.
    + vm_compute. reflexivity.
Defined.

(** ** Paths *)

Lemma Contains_app (a b : string) (c : ascii) :
  Contains (a ++ b) c = Contains a c || Contains b c.
Proof.
  induction a as [|x a IH]; simpl; [reflexivity|].
  now rewrite IH, orb_assoc.
Qed.

Lemma Split_not_nil (s : string) (c : ascii) : Split s c <> [].
Proof.
  destruct s as [|a s]; simpl; [discriminate|].
  destruct (Ascii.eqb a c); [discriminate|].
  destruct (Split s c); discriminate.
Qed.

Lemma Split_free (s : string) (c : ascii) : Contains s c = false -> Split s c = [s].
Proof.
  induction s as [|a s IH]; simpl; intros Hs; [reflexivity|].
  apply orb_false_iff in Hs. destruct Hs as [Ha Hs].
  rewrite Ha, (IH Hs). reflexivity.
Qed.

Lemma Split_app (a b : string) (c : ascii) :
  Split (a ++ String c b) c = (Split a c ++ Split b c)%list.
Proof.
  induction a as [|x a IH]; simpl.
  - now rewrite Ascii.eqb_refl.
  - rewrite IH. destruct (Ascii.eqb x c); [reflexivity|].
    pose proof (Split_not_nil a c) as Hne.
    destruct (Split a c); [contradiction | reflexivity].
Qed.

Lemma Split_fields_free (s : string) (c : ascii) :
  Forall (fun field => Contains field c = false) (Split s c).
Proof.
  induction s as [|a s IH]; simpl.
  - constructor; [reflexivity | constructor].
  - destruct (Ascii.eqb a c) eqn:Ha.
    + constructor; [reflexivity | exact IH].
    + destruct (Split s c) as [|field fields]; inversion IH; subst.
      * constructor; [simpl; now rewrite Ha | constructor].
      * constructor; [simpl; now rewrite Ha | assumption].
Qed.

Lemma Split_concat (l : list string) (c : ascii) :
  l <> [] ->
  Forall (fun field => Contains field c = false) l ->
  Split (String.concat (String c "") l) c = l.
Proof.
  induction l as [|x l IH]; intros Hne Hfree; [contradiction|].
  inversion Hfree as [|? ? Hx Hl]; subst.
  destruct l as [|y l].
  - simpl. now apply Split_free.
  - change (String.concat (String c "") (x :: y :: l))
      with (x ++ String c (String.concat (String c "") (y :: l))).
    rewrite Split_app, (Split_free _ _ Hx), IH; [reflexivity | discriminate | assumption].
Qed.

Lemma proper_slashfree (name : string) : proper name -> slashfree name.
Proof. unfold proper. tauto. Qed.

Lemma clean_step_proper (rooted : bool) (out : list string) (name : string) :
  proper name -> clean_step rooted out name = name :: out.
Proof.
  intros (H0 & H1 & H2 & _). unfold clean_step.
  apply String.eqb_neq in H0, H1, H2. now rewrite H0, H1, H2.
Qed.

Lemma clean_out_dots (out : list string) :
  Forall (eq "..") out -> clean_out false out.
Proof.
  induction 1 as [|x l Hx Hl IH]; simpl; [exact I|].
  right. auto.
Qed.

Lemma clean_out_before (rooted : bool) (name : string) (before : list string) :
  clean_out rooted (name :: before) -> clean_out rooted before.
Proof.
  simpl. intros [[_ Hb] | (_ & -> & Hdots)]; [assumption | now apply clean_out_dots].
Qed.

Lemma clean_step_clean (rooted : bool) (out : list string) (elem : string) :
  clean_out rooted out -> slashfree elem -> clean_out rooted (clean_step rooted out elem).
Proof.
  intros Hout Hfree. unfold clean_step.
  destruct (String.eqb_spec elem "") as [|Hne]; [assumption|].
  destruct (String.eqb_spec elem ".") as [|Hdot]; [assumption|]. simpl.
  destruct (String.eqb_spec elem "..") as [->|Hdd].
  - destruct out as [|last before].
    + destruct rooted; simpl; auto.
    + destruct (String.eqb_spec last "..") as [->|Hlast].
      * simpl in Hout. destruct Hout as [[(_ & _ & Hp & _) _] | (_ & Hr & Hdots)];
          [now elim Hp|].
        simpl. right. repeat split; auto.
      * eapply clean_out_before; eauto.
  - simpl. left. split; [|assumption]. repeat split; assumption.
Qed.

Lemma fold_clean_step_clean (rooted : bool) (elems : list string) :
  forall out,
    clean_out rooted out -> Forall slashfree elems ->
    clean_out rooted (fold_left (clean_step rooted) elems out).
Proof.
  induction elems as [|e elems IH]; intros out Hout Hfree; simpl; [assumption|].
  inversion Hfree; subst. apply IH; [|assumption]. now apply clean_step_clean.
Qed.

Lemma resolve_clean (s : string) : clean_out (fst (resolve s)) (snd (resolve s)).
Proof.
  unfold resolve. simpl. apply fold_clean_step_clean; [exact I|].
  apply Split_fields_free.
Qed.

Lemma clean_out_free (rooted : bool) (out : list string) :
  clean_out rooted out -> Forall slashfree out.
Proof.
  induction out as [|name before IH]; intros Hout; [constructor|].
  constructor.
  - simpl in Hout. destruct Hout as [[Hp _] | (-> & _)];
      [now apply proper_slashfree | reflexivity].
  - apply IH. eapply clean_out_before; eauto.
Qed.

Lemma clean_out_nonempty (rooted : bool) (out : list string) :
  clean_out rooted out -> Forall (fun name => name <> "") out.
Proof.
  induction out as [|name before IH]; intros Hout; [constructor|].
  constructor.
  - simpl in Hout. destruct Hout as [[(Hp & _) _] | (-> & _)]; [assumption | discriminate].
  - apply IH. eapply clean_out_before; eauto.
Qed.

Lemma clean_out_rooted (out : list string) :
  clean_out true out -> Forall proper out.
Proof.
  induction out as [|name before IH]; intros Hout; [constructor|].
  simpl in Hout. destruct Hout as [[Hp Hb] | (_ & Hr & _)]; [|discriminate].
  constructor; auto.
Qed.

(** Reading the elements of a resolved path again gives the same path. *)
Lemma fold_clean_out (rooted : bool) (out : list string) :
  clean_out rooted out -> fold_left (clean_step rooted) (rev out) [] = out.
Proof.
  induction out as [|name before IH]; intros Hout; [reflexivity|].
  simpl. rewrite fold_left_app. simpl.
  rewrite IH by (eapply clean_out_before; eauto).
  simpl in Hout. destruct Hout as [[Hp _] | (-> & -> & Hdots)].
  - now apply clean_step_proper.
  - unfold clean_step. simpl.
    destruct before as [|last before]; [reflexivity|].
    inversion Hdots; subst. reflexivity.
Qed.

Lemma HasPrefix_nil (s : string) : HasPrefix s "" = true.
Proof. now destruct s. Qed.

Lemma is_rooted_app (a b : string) : a <> "" -> is_rooted (a ++ b) = is_rooted a.
Proof.
  destruct a as [|x a]; [contradiction|]. intros _. unfold is_rooted.
  cbn [append HasPrefix]. now rewrite !HasPrefix_nil.
Qed.

Lemma slashfree_not_rooted (s : string) : slashfree s -> is_rooted s = false.
Proof.
  destruct s as [|x s]; [reflexivity|]. unfold slashfree, is_rooted.
  cbn [Contains HasPrefix].
  intros Hs. apply orb_false_iff in Hs. destruct Hs as [Hx _].
  destruct (Ascii.eqb_spec "/"%char x) as [<-|]; [|reflexivity].
  now rewrite Ascii.eqb_refl in Hx.
Qed.

Lemma append_nil_right (s : string) : s ++ "" = s.
Proof. induction s; simpl; congruence. Qed.

Lemma append_assoc (a b c : string) : (a ++ b) ++ c = a ++ (b ++ c).
Proof. induction a; simpl; congruence. Qed.

Lemma concat_head (x : string) (l : list string) :
  exists tail, String.concat "/" (x :: l) = x ++ tail.
Proof.
  destruct l as [|y l].
  - exists "". simpl. now rewrite append_nil_right.
  - eexists. reflexivity.
Qed.

Lemma resolve_render (rooted : bool) (out : list string) :
  clean_out rooted out -> resolve (render (rooted, out)) = (rooted, out).
Proof.
  intros Hout. unfold render. simpl.
  pose proof (clean_out_free _ _ Hout) as Hfree.
  pose proof (clean_out_nonempty _ _ Hout) as Hne.
  destruct rooted.
  - unfold resolve.
    change ("/" ++ String.concat "/" (rev out))
      with (String "/" (String.concat "/" (rev out))).
    assert (Hroot : forall body, is_rooted (String "/" body) = true).
    { intros body. unfold is_rooted. cbn [HasPrefix].
      now rewrite HasPrefix_nil, Ascii.eqb_refl. }
    assert (Hsplit : forall body, Split (String "/" body) "/" = "" :: Split body "/").
    { intros body. cbn [Split]. now rewrite Ascii.eqb_refl. }
    rewrite Hroot, Hsplit. f_equal.
    cbn [fold_left]. change (clean_step true [] "") with (@nil string).
    destruct out as [|name before]; [reflexivity|].
    rewrite Split_concat.
    + now apply fold_clean_out.
    + simpl. intros Hnil. apply app_eq_nil in Hnil. destruct Hnil; discriminate.
    + apply Forall_rev, Hfree.
  - destruct out as [|name before]; [reflexivity|].
    unfold resolve.
    assert (Hrev : rev (name :: before) <> []).
    { simpl. intros Hnil. apply app_eq_nil in Hnil. destruct Hnil; discriminate. }
    assert (Hroot : is_rooted (String.concat "/" (rev (name :: before))) = false).
    { destruct (rev (name :: before)) as [|x l] eqn:Hl; [contradiction|].
      destruct (concat_head x l) as [tail ->].
      assert (Hin : In x (name :: before)).
      { apply in_rev. rewrite Hl. now left. }
      rewrite is_rooted_app.
      - apply slashfree_not_rooted. rewrite Forall_forall in Hfree. now apply Hfree.
      - rewrite Forall_forall in Hne. now apply Hne. }
    rewrite Hroot. f_equal.
    rewrite Split_concat; [|assumption | apply Forall_rev, Hfree].
    now apply fold_clean_out.
Qed.

Lemma resolve_Clean (s : string) : resolve (Clean s) = resolve s.
Proof.
  unfold Clean. rewrite (surjective_pairing (resolve s)) at 1.
  rewrite resolve_render by apply resolve_clean.
  now rewrite <- surjective_pairing.
Qed.

Lemma Clean_Clean (s : string) : Clean (Clean s) = Clean s.
Proof. unfold Clean at 1. now rewrite resolve_Clean. Qed.


Lemma length_append (a b : string) :
  String.length (a ++ b) = (String.length a + String.length b)%nat.
Proof. induction a; simpl; congruence. Qed.

Lemma drop_append (a b : string) : drop (String.length a) (a ++ b) = b.
Proof. induction a; simpl; [now destruct b | assumption]. Qed.

Lemma HasSuffix_append (a suffix : string) : HasSuffix (a ++ suffix) suffix = true.
Proof.
  unfold HasSuffix. rewrite length_append.
  replace (String.length a + String.length suffix - String.length suffix)%nat
    with (String.length a) by lia.
  rewrite drop_append, String.eqb_refl.
  apply andb_true_iff. split; [apply Nat.leb_le; lia | reflexivity].
Qed.

Lemma Clean_not_empty (s : string) : Clean s <> "".
Proof.
  unfold Clean.
  pose proof (clean_out_nonempty _ _ (resolve_clean s)) as Hne.
  destruct (resolve s) as [rooted out]. unfold render. simpl in *.
  destruct rooted; [discriminate|].
  destruct out as [|name before]; [discriminate|].
  destruct (rev (name :: before)) as [|x l] eqn:Hl.
  - simpl in Hl. apply app_eq_nil in Hl. destruct Hl; discriminate.
  - destruct (concat_head x l) as [tail ->].
    assert (Hx : x <> "").
    { rewrite Forall_forall in Hne. apply Hne, in_rev. rewrite Hl. now left. }
    destruct x; [contradiction | discriminate].
Qed.

Lemma resolve_empty : resolve "" = (false, []).
Proof. reflexivity. Qed.

(** The path [filepath.Join] builds from a directory and one element
    without a separator resolves to the directory, followed by that
    element. *)
Lemma resolve_Join (dir elem : string) :
  slashfree elem -> dir <> "" \/ elem <> "" ->
  resolve (filepath_Join dir elem) =
    (fst (resolve dir), clean_step (fst (resolve dir)) (snd (resolve dir)) elem).
Proof.
  intros Hfree Hne. unfold filepath_Join.
  destruct (String.eqb_spec dir "") as [->|Hdir].
  - destruct (String.eqb_spec elem "") as [->|Helem]; [destruct Hne; contradiction|].
    rewrite resolve_Clean. unfold resolve at 1.
    rewrite (slashfree_not_rooted _ Hfree), (Split_free _ _ Hfree). reflexivity.
  - rewrite resolve_Clean. unfold resolve.
    change (dir ++ "/" ++ elem) with (dir ++ String "/" elem).
    rewrite (is_rooted_app _ _ Hdir), Split_app, fold_left_app, (Split_free _ _ Hfree).
    reflexivity.
Qed.

Lemma Clean_Join (dir elem : string) :
  dir <> "" \/ elem <> "" -> Clean (filepath_Join dir elem) = filepath_Join dir elem.
Proof.
  intros Hne. unfold filepath_Join.
  destruct (String.eqb_spec dir "") as [->|Hdir].
  - destruct (String.eqb_spec elem "") as [->|Helem]; [destruct Hne; contradiction|].
    apply Clean_Clean.
  - apply Clean_Clean.
Qed.

Lemma Join_not_empty (dir elem : string) :
  dir <> "" \/ elem <> "" -> filepath_Join dir elem <> "".
Proof.
  intros Hne. unfold filepath_Join.
  destruct (String.eqb_spec dir "") as [->|Hdir].
  - destruct (String.eqb_spec elem "") as [->|Helem]; [destruct Hne; contradiction|].
    apply Clean_not_empty.
  - apply Clean_not_empty.
Qed.

Lemma Join_proper (dir name : string) :
  proper name ->
  resolve (filepath_Join dir name) = (fst (resolve dir), name :: snd (resolve dir)) /\
  filepath_Join dir name = render (fst (resolve dir), name :: snd (resolve dir)).
Proof.
  intros Hp.
  assert (Hne : dir <> "" \/ name <> "") by (right; apply Hp).
  pose proof (resolve_Join dir name (proper_slashfree _ Hp) Hne) as Hres.
  rewrite clean_step_proper in Hres by assumption.
  split; [assumption|].
  rewrite <- (Clean_Join dir name Hne). unfold Clean. now rewrite Hres.
Qed.

Lemma concat_snoc (l : list string) (name tail : string) :
  String.concat "/" (l ++ [name]) ++ tail = String.concat "/" (l ++ [name ++ tail]).
Proof.
  induction l as [|x l IH]; [reflexivity|].
  destruct l as [|y l].
  - simpl. now rewrite !append_assoc.
  - change (String.concat "/" ((x :: y :: l) ++ [name]))
      with (x ++ "/" ++ String.concat "/" ((y :: l) ++ [name])).
    change (String.concat "/" ((x :: y :: l) ++ [name ++ tail]))
      with (x ++ "/" ++ String.concat "/" ((y :: l) ++ [name ++ tail])).
    rewrite <- IH. now rewrite !append_assoc.
Qed.

Lemma render_append (rooted : bool) (name : string) (before : list string) (tail : string) :
  render (rooted, name :: before) ++ tail = render (rooted, (name ++ tail) :: before).
Proof.
  unfold render. cbn [fst snd rev].
  destruct rooted.
  - rewrite append_assoc. now rewrite concat_snoc.
  - apply concat_snoc.
Qed.

Lemma proper_append (name tail : string) :
  slashfree name -> slashfree tail -> (2 < String.length tail)%nat -> proper (name ++ tail).
Proof.
  intros Hn Ht Hlen.
  assert (Hl : (2 < String.length (name ++ tail))%nat) by (rewrite length_append; lia).
  repeat split.
  - intros He. rewrite He in Hl. simpl in Hl. lia.
  - intros He. rewrite He in Hl. simpl in Hl. lia.
  - intros He. rewrite He in Hl. simpl in Hl. lia.
  - unfold slashfree. rewrite Contains_app, Hn, Ht. reflexivity.
Qed.

Lemma string_of_uint_slashfree (d : Decimal.uint) :
  slashfree (NilEmpty.string_of_uint d).
Proof. unfold slashfree. induction d; simpl; auto. Qed.

Lemma marker_suffix_free (id : N) :
  slashfree (marker_suffix id) /\ (2 < String.length (marker_suffix id))%nat.
Proof.
  unfold marker_suffix, FormatUint. split.
  - unfold slashfree. rewrite !Contains_app.
    rewrite (string_of_uint_slashfree (N.to_uint id)). reflexivity.
  - rewrite !length_append. simpl. lia.
Qed.

(** The name of the metadata file is always the name of a directory entry,
    and so is the name of its temporary sibling. *)
Lemma htmlFilename_proper (filename : string) (id : N) :
  slashfree filename ->
  proper (filename ++ marker_suffix id) /\
  proper ((filename ++ marker_suffix id) ++ ".tmp").
Proof.
  intros Hf. destruct (marker_suffix_free id) as [Hfree Hlen].
  assert (Hp : proper (filename ++ marker_suffix id)) by now apply proper_append.
  split; [assumption|].
  apply proper_append; [now apply proper_slashfree | reflexivity | simpl; lia].
Qed.

Lemma Join_tmp (dir name : string) :
  proper name -> proper (name ++ ".tmp") ->
  resolve (filepath_Join dir name ++ ".tmp") =
    (fst (resolve dir), (name ++ ".tmp") :: snd (resolve dir)) /\
  Clean (filepath_Join dir name ++ ".tmp") = filepath_Join dir name ++ ".tmp".
Proof.
  intros Hp Htmp.
  destruct (Join_proper dir name Hp) as [_ ->].
  rewrite render_append.
  assert (Hclean : clean_out (fst (resolve dir)) ((name ++ ".tmp") :: snd (resolve dir))).
  { simpl. left. split; [assumption | apply resolve_clean]. }
  split.
  - now apply resolve_render.
  - unfold Clean. now rewrite resolve_render.
Qed.

(** *** The file name of a download *)

Lemma last_Forall (A : Type) (P : A -> Prop) (l : list A) (d : A) :
  l <> [] -> Forall P l -> P (last l d).
Proof.
  induction l as [|x l IH]; intros Hne Hall; [contradiction|].
  inversion Hall; subst. destruct l as [|y l]; [assumption|].
  apply IH; [discriminate | assumption].
Qed.

Lemma replacer_cases (a : ascii) :
  (In a reserved /\ replacer a = "_"%char) \/ (~ In a reserved /\ replacer a = a).
Proof.
  unfold replacer.
  destruct (existsb (Ascii.eqb a) reserved) eqn:He.
  - left. split; [|reflexivity].
    apply existsb_exists in He. destruct He as (c & Hin & Hc).
    apply Ascii.eqb_eq in Hc. now subst.
  - right. split; [|reflexivity]. intros Hin.
    assert (Ht : existsb (Ascii.eqb a) reserved = true).
    { apply existsb_exists. exists a. split; [assumption | apply Ascii.eqb_refl]. }
    congruence.
Qed.

Lemma replacer_keeps_slashfree (s : string) :
  slashfree s -> slashfree (map_bytes replacer s).
Proof.
  unfold slashfree. induction s as [|a s IH]; simpl; [reflexivity|].
  intros Hs. apply orb_false_iff in Hs. destruct Hs as [Ha Hs].
  rewrite (IH Hs), orb_false_r.
  destruct (replacer_cases a) as [[_ ->] | [_ ->]]; [reflexivity | assumption].
Qed.

Lemma replacer_removes_reserved (s : string) (c : ascii) :
  In c reserved -> Contains (map_bytes replacer s) c = false.
Proof.
  intros Hc. induction s as [|a s IH]; simpl; [reflexivity|].
  rewrite IH, orb_false_r.
  destruct (replacer_cases a) as [[_ ->] | [Hn ->]].
  - destruct (Ascii.eqb_spec "_"%char c) as [<-|]; [|reflexivity].
    simpl in Hc. repeat (destruct Hc as [Hc|Hc]; [discriminate|]). contradiction.
  - destruct (Ascii.eqb_spec a c) as [->|]; [contradiction | reflexivity].
Qed.

Lemma parse_filename `{Parser} (pageContent : bytes) (downloadURL filename : string) :
  parseURLAndFilenameFromViewPage pageContent = inl (downloadURL, filename) ->
  filename = map_bytes replacer (last (Split downloadURL "/") "") /\
  slashfree filename /\
  (forall c, In c reserved -> Contains filename c = false) /\
  exists href, downloadURL = "https:" ++ href /\ HasPrefix href "//" = true.
Proof.
  unfold parseURLAndFilenameFromViewPage.
  destruct (find_download_href (Find_a (NewDocumentFromReader pageContent))) as [href|];
    [|discriminate].
  destruct (HasPrefix href "//") eqn:Hprefix; [|discriminate].
  cbn [negb]. remember ("https:" ++ href) as url eqn:Hurl.
  intros Heq. injection Heq as <- <-.
  split; [reflexivity|]. split; [|split].
  - apply replacer_keeps_slashfree.
    apply (last_Forall _ (fun field => Contains field "/" = false));
      [apply Split_not_nil | apply Split_fields_free].
  - intros c Hc. now apply replacer_removes_reserved.
  - exists href. split; assumption.
Qed.

(** ** The file system *)

Lemma list_eqb_eq (l m : list string) : list_eqb l m = true <-> l = m.
Proof.
  revert m. induction l as [|a l IH]; intros [|b m]; simpl; split; try easy.
  - intros Hb. apply andb_true_iff in Hb. destruct Hb as [Ha Hl].
    apply String.eqb_eq in Ha. apply IH in Hl. now subst.
  - intros [= -> ->]. rewrite String.eqb_refl. now apply IH.
Qed.

Lemma path_eqb_eq (p q : Location) : path_eqb p q = true <-> p = q.
Proof.
  destruct p as [r l], q as [r' l']. unfold path_eqb. simpl. split.
  - intros Hb. apply andb_true_iff in Hb. destruct Hb as [Hr Hl].
    apply Bool.eqb_prop in Hr. apply list_eqb_eq in Hl. now subst.
  - intros [= -> ->]. rewrite Bool.eqb_reflx. now apply list_eqb_eq.
Qed.

Lemma path_eqb_spec (p q : Location) : reflect (p = q) (path_eqb p q).
Proof.
  destruct (path_eqb p q) eqn:Hb; constructor.
  - now apply path_eqb_eq.
  - intros Heq. apply path_eqb_eq in Heq. congruence.
Qed.

Lemma lookup_unlink (p q : Location) (fs : FS) :
  lookup (unlink p fs) q = if path_eqb p q then None else lookup fs q.
Proof.
  induction fs as [|[x e] fs IH]; simpl.
  - now destruct (path_eqb p q).
  - destruct (path_eqb_spec x p) as [->|Hxp]; simpl.
    + rewrite IH. destruct (path_eqb p q); reflexivity.
    + rewrite IH. destruct (path_eqb_spec x q) as [->|Hxq]; [|reflexivity].
      destruct (path_eqb_spec p q) as [->|]; [contradiction | reflexivity].
Qed.

Lemma lookup_store (p q : Location) (e : Entry) (fs : FS) :
  lookup (store p e fs) q = if path_eqb p q then Some e else lookup fs q.
Proof.
  unfold store. simpl. rewrite lookup_unlink. now destruct (path_eqb p q).
Qed.

Lemma lookup_store_same (p : Location) (e : Entry) (fs : FS) :
  lookup (store p e fs) p = Some e.
Proof. rewrite lookup_store. now destruct (path_eqb_spec p p). Qed.

Lemma lookup_store_other (p q : Location) (e : Entry) (fs : FS) :
  p <> q -> lookup (store p e fs) q = lookup fs q.
Proof. intros Hpq. rewrite lookup_store. now destruct (path_eqb_spec p q). Qed.


(** *** What each operation touches *)

Lemma touches_create (p : Location) : touches (create p) [p].
Proof.
  intros fs q Hq. unfold create.
  destruct (is_dir fs p); [reflexivity|].
  destruct (is_dir fs (parent p)); [|reflexivity].
  cbn [snd]. apply lookup_store_other. intros ->. apply Hq. now left.
Qed.

Lemma touches_write_byte (p : Location) (b : ascii) : touches (write_byte p b) [p].
Proof.
  intros fs q Hq. unfold write_byte.
  destruct (lookup fs p) as [[|content synced]|]; try reflexivity.
  cbn [snd]. apply lookup_store_other. intros ->. apply Hq. now left.
Qed.

Lemma touches_fsync (p : Location) : touches (fsync p) [p].
Proof.
  intros fs q Hq. unfold fsync.
  destruct (lookup fs p) as [[|content synced]|]; try reflexivity.
  cbn [snd]. apply lookup_store_other. intros ->. apply Hq. now left.
Qed.

Lemma touches_rename (old new : Location) : touches (rename old new) [old; new].
Proof.
  intros fs q Hq. unfold rename.
  destruct (lookup fs old) as [[|content synced]|]; try reflexivity.
  destruct (is_dir fs new); [reflexivity|].
  destruct (is_dir fs (parent new)); [|reflexivity].
  cbn [snd]. rewrite lookup_store_other, lookup_unlink.
  - destruct (path_eqb_spec old q) as [->|]; [|reflexivity].
    elim Hq. now left.
  - intros ->. apply Hq. right. now left.
Qed.

Lemma touches_contained (dir : Location) (before : FS)
    (op : FS -> option error * FS) (targets : list Location) (fs : FS) :
  touches op targets ->
  Forall (directly_inside dir) targets ->
  contained dir before fs -> contained dir before (snd (op fs)).
Proof.
  intros Htouch Hin Hok q Hq.
  destruct (in_dec (fun a b => reflect_dec _ _ (path_eqb_spec a b)) q targets) as [Ht|Ht].
  - left. rewrite Forall_forall in Hin. now apply Hin.
  - rewrite (Htouch fs q Ht) in Hq |- *. now apply Hok.
Qed.

(** *** Rules for programs *)

Section Rules.

Context {C : Type}.

Lemma triple_ret (A : Type) (P : FS -> Prop) (a : A) (Q : A -> FS -> Prop) (K : FS -> Prop) :
  (forall fs, P fs -> Q a fs) -> triple (C := C) P (ret a) Q K.
Proof. intros HQ w HP. simpl. now apply HQ. Qed.

Lemma triple_bind (A B : Type) (P : FS -> Prop) (m : M C A) (Q : A -> FS -> Prop)
    (k : A -> M C B) (R : B -> FS -> Prop) (K : FS -> Prop) :
  triple P m Q K -> (forall a, triple (Q a) (k a) R K) -> triple P (bind m k) R K.
Proof.
  intros Hm Hk w HP. unfold bind. specialize (Hm w HP).
  destruct (m w) as [[a| | |] w1]; try assumption.
  now apply Hk.
Qed.

Lemma triple_weaken (A : Type) (P P' : FS -> Prop) (m : M C A) (Q Q' : A -> FS -> Prop)
    (K K' : FS -> Prop) :
  triple P' m Q' K' ->
  (forall fs, P fs -> P' fs) -> (forall a fs, Q' a fs -> Q a fs) ->
  (forall fs, K' fs -> K fs) ->
  triple P m Q K.
Proof.
  intros Hm HP HQ HK w Hw. specialize (Hm w (HP _ Hw)).
  destruct (m w) as [[a| | |] w1]; auto.
Qed.

Lemma triple_perform (op : FS -> option error * FS) (P : FS -> Prop)
    (Q : option error -> FS -> Prop) (K : FS -> Prop) :
  (forall fs, P fs -> K fs) ->
  (forall fs, P fs -> Q (fst (op fs)) (snd (op fs))) ->
  triple (C := C) P (perform op) Q K.
Proof.
  intros HK HQ w HP. unfold perform.
  destruct (budget w) as [[|n]|].
  - now apply HK.
  - specialize (HQ _ HP). destruct (op (disk w)). exact HQ.
  - specialize (HQ _ HP). destruct (op (disk w)). exact HQ.
Qed.

Lemma triple_request (f : C -> (bytes * option error) * C) (P : FS -> Prop)
    (Q : bytes * option error -> FS -> Prop) (K : FS -> Prop) :
  (forall fs r, P fs -> Q r fs) -> triple P (request f) Q K.
Proof.
  intros HQ w HP. unfold request. destruct (f (client w)) as [r c]. simpl. now apply HQ.
Qed.

Lemma triple_inspect (A : Type) (f : FS -> A) (P : FS -> Prop)
    (Q : A -> FS -> Prop) (K : FS -> Prop) :
  (forall fs, P fs -> Q (f fs) fs) -> triple (C := C) P (inspect f) Q K.
Proof. intros HQ w HP. simpl. now apply HQ. Qed.

Lemma triple_pure (A : Type) (X : Prop) (P : FS -> Prop) (m : M C A)
    (Q : A -> FS -> Prop) (K : FS -> Prop) :
  (X -> triple P m Q K) -> triple (fun fs => X /\ P fs) m Q K.
Proof. intros Hm w [HX HP]. now apply Hm. Qed.


End Rules.

(** ** Where a save writes *)

Lemma clean_step_target (rooted : bool) (out : list string) (elem : string) :
  slashfree elem ->
  (proper elem /\ clean_step rooted out elem = elem :: out) \/
  clean_step rooted out elem = out \/
  (rooted, clean_step rooted out elem) = parent (rooted, out).
Proof.
  intros Hfree. unfold clean_step at 1 2.
  destruct (String.eqb_spec elem "") as [->|Hne]; [right; left; reflexivity|].
  destruct (String.eqb_spec elem ".") as [->|Hdot]; [right; left; reflexivity|].
  destruct (String.eqb_spec elem "..") as [->|Hdd].
  - right. right. reflexivity.
  - left. simpl. repeat split; assumption.
Qed.

Lemma ancestors_last (rooted : bool) (out : list string) :
  out <> [] -> In (rooted, out) (ancestors rooted out).
Proof.
  destruct out as [|name before]; [contradiction|]. intros _. simpl.
  apply in_or_app. right. now left.
Qed.

Lemma ancestors_before (rooted : bool) (name : string) (before : list string) (q : Location) :
  In q (ancestors rooted before) -> In q (ancestors rooted (name :: before)).
Proof. intros Hq. simpl. apply in_or_app. now left. Qed.

Lemma implicit_dir_is_dir (fs : FS) (p : Location) : implicit_dir p = true -> is_dir fs p = true.
Proof. unfold is_dir. now intros ->. Qed.

(** Once the ancestors of a directory are there, the directory and its
    parent are directories. *)
Lemma dir_and_parent (fs : FS) (rooted : bool) (out : list string) :
  clean_out rooted out ->
  Forall (fun q => is_dir fs q = true) (ancestors rooted out) ->
  is_dir fs (rooted, out) = true /\ is_dir fs (parent (rooted, out)) = true.
Proof.
  intros Hclean Hall. rewrite Forall_forall in Hall. split.
  - destruct out as [|name before]; [now apply implicit_dir_is_dir|].
    apply Hall, ancestors_last. discriminate.
  - unfold parent, clean_step. cbn [fst snd String.eqb Ascii.eqb Bool.eqb orb].
    destruct out as [|last before].
    + apply implicit_dir_is_dir. now destruct rooted.
    + destruct (String.eqb_spec last "..") as [->|Hlast].
      * apply implicit_dir_is_dir.
        simpl in Hclean. destruct Hclean as [[(_ & _ & Hp & _) _] | (_ & _ & Hdots)];
          [now elim Hp|].
        unfold implicit_dir. cbn [snd forallb String.eqb Ascii.eqb Bool.eqb andb].
        apply forallb_forall. intros x Hx. rewrite Forall_forall in Hdots.
        rewrite <- (Hdots x Hx). reflexivity.
      * destruct before as [|name before']; [now apply implicit_dir_is_dir|].
        apply Hall, ancestors_before, ancestors_last. discriminate.
Qed.

Lemma mkdir_contained (dir : Location) (before : FS) (d : Location) (fs : FS) :
  In d (ancestors (fst dir) (snd dir)) ->
  contained dir before fs -> contained dir before (snd (mkdir d fs)).
Proof.
  intros Hd Hok q Hq. unfold mkdir in *.
  destruct (is_dir fs d); [now apply Hok|].
  destruct (lookup fs d) as [e|] eqn:Hfs; [now apply Hok|].
  destruct (is_dir fs (parent d)); [|now apply Hok].
  cbn [snd] in *. rewrite lookup_store in *.
  destruct (path_eqb_spec d q) as [<-|Hdq]; [|now apply Hok].
  destruct (lookup before d) as [e|] eqn:Hb.
  - destruct (Hok d) as [Hin | (_ & Hdir & _)]; [congruence | now left | congruence].
  - right. auto.
Qed.

Lemma mkdir_keeps_dirs (d q : Location) (fs : FS) :
  is_dir fs q = true -> is_dir (snd (mkdir d fs)) q = true.
Proof.
  intros Hq. unfold mkdir.
  destruct (is_dir fs d) eqn:Hd; [assumption|].
  destruct (lookup fs d) as [e|]; [assumption|].
  destruct (is_dir fs (parent d)); [|assumption].
  cbn [snd]. unfold is_dir in *. rewrite lookup_store.
  destruct (path_eqb_spec d q) as [<-|]; [congruence | assumption].
Qed.

Lemma mkdir_makes_dir (d : Location) (fs : FS) :
  fst (mkdir d fs) = None -> is_dir (snd (mkdir d fs)) d = true.
Proof.
  unfold mkdir.
  destruct (is_dir fs d) eqn:Hd; [intros _; assumption|].
  destruct (lookup fs d) as [e|]; [discriminate|].
  destruct (is_dir fs (parent d)); [|discriminate].
  intros _. cbn [snd]. unfold is_dir. rewrite lookup_store_same. apply orb_true_r.
Qed.

Section Containment.

Context {C : Type} `{Client C} `{Parser}.

Variable dir : string.
Variable before : FS.

Local Abbreviation D := (resolve dir).
Local Abbreviation ok := (contained (resolve dir) before).

Lemma perform_contained (op : FS -> option error * FS) (targets : list Location) :
  touches op targets -> Forall (directly_inside D) targets ->
  triple (C := C) ok (perform op) (fun _ => ok) ok.
Proof.
  intros Htouch Hin. apply triple_perform; [auto|].
  intros fs Hfs. eapply touches_contained; eauto.
Qed.

Lemma fh_Write_contained (p : Location) (data : bytes) :
  directly_inside D p ->
  triple (C := C) ok (fh_Write p data) (fun _ => ok) ok.
Proof.
  intros Hp. induction data as [|b data IH]; simpl.
  - now apply triple_ret.
  - eapply triple_bind.
    + apply (perform_contained _ [p]); [apply touches_write_byte | now constructor].
    + intros [e|]; [now apply triple_ret | exact IH].
Qed.

Lemma os_Create_contained (path : string) :
  triple (C := C)
    (fun fs => ok fs /\ (directly_inside D (resolve path) \/ is_dir fs (resolve path) = true))
    (os_Create path)
    (fun created fs =>
       ok fs /\ forall fh, created = inl fh -> fh = resolve path /\ directly_inside D fh)
    ok.
Proof.
  unfold os_Create. destruct (String.eqb path "").
  - apply triple_ret. intros fs [Hok _]. split; [assumption | discriminate].
  - eapply triple_bind with
      (Q := fun err fs => ok fs /\ (err = None -> directly_inside D (resolve path))).
    + apply triple_perform; [tauto|].
      intros fs [Hok Hp].
      assert (Hc : directly_inside D (resolve path) ->
                   ok (snd (create (resolve path) fs))).
      { intros Hin. eapply touches_contained;
          [apply touches_create | constructor; [exact Hin | constructor] | exact Hok]. }
      unfold create in *.
      destruct (is_dir fs (resolve path)) eqn:Hd.
      * split; [assumption | discriminate].
      * destruct Hp as [Hp|Hp]; [|discriminate]. specialize (Hc Hp).
        destruct (is_dir fs (parent (resolve path))); split; auto; discriminate.
    + intros [e|]; apply triple_ret; intros fs [Hok Hp].
      * split; [assumption | discriminate].
      * split; [assumption|]. intros fh [= <-]. auto.
Qed.

Lemma WriteAndFsyncFile_contained (path : string) (data : bytes) :
  triple (C := C)
    (fun fs => ok fs /\ (directly_inside D (resolve path) \/ is_dir fs (resolve path) = true))
    (WriteAndFsyncFile path data) (fun _ => ok) ok.
Proof.
  unfold WriteAndFsyncFile.
  destruct (negb (String.eqb path (Clean path))); [apply triple_ret; tauto|].
  eapply triple_bind; [apply os_Create_contained|].
  intros [fh|err]; [|apply triple_ret; tauto].
  apply triple_weaken with
    (P' := fun fs => directly_inside D fh /\ ok fs) (Q' := fun _ => ok) (K' := ok); auto.
  - apply triple_pure. intros Hfh.
    eapply triple_bind; [now apply fh_Write_contained|].
    intros [e|]; [now apply triple_ret|].
    eapply triple_bind.
    + apply (perform_contained _ [fh]); [apply touches_fsync | now constructor].
    + intros [e|]; now apply triple_ret.
  - intros fs [Hok Hfh]. split; [|assumption]. now destruct (Hfh fh eq_refl).
Qed.

Lemma mkdir_each_contained (todo : list Location) :
  forall done,
    Forall (fun d => In d (ancestors (fst D) (snd D))) todo ->
    triple (C := C)
      (fun fs => ok fs /\ Forall (fun q => is_dir fs q = true) done)
      (mkdir_each todo)
      (fun err fs =>
         ok fs /\ (err = None -> Forall (fun q => is_dir fs q = true) (done ++ todo)))
      ok.
Proof.
  induction todo as [|d rest IH]; intros done Hin; simpl.
  - apply triple_ret. intros fs [Hok Hdone]. rewrite app_nil_r. auto.
  - inversion Hin as [|? ? Hd Hrest]; subst.
    eapply triple_bind with
      (Q := fun err fs =>
              ok fs /\ (err = None -> Forall (fun q => is_dir fs q = true) (done ++ [d]))).
    + apply triple_perform; [tauto|].
      intros fs [Hok Hdone]. split; [now apply mkdir_contained|].
      intros Hnone. apply Forall_app. split.
      * eapply Forall_impl; [|exact Hdone]. intros q. apply mkdir_keeps_dirs.
      * constructor; [now apply mkdir_makes_dir | constructor].
    + intros [e|].
      * apply triple_ret. intros fs [Hok _]. split; [assumption | discriminate].
      * eapply triple_weaken; [apply (IH (done ++ [d])%list Hrest) | | | auto].
        -- intros fs [Hok Hdone]. auto.
        -- intros err fs [Hok Hall]. split; [assumption|].
           intros Hnone. rewrite <- app_assoc in Hall. now apply Hall.
Qed.

Lemma os_MkdirAll_contained :
  triple (C := C) ok (os_MkdirAll dir)
    (fun err fs =>
       ok fs /\
       (err = None ->
          dir <> "" /\ is_dir fs D = true /\ is_dir fs (parent D) = true))
    ok.
Proof.
  unfold os_MkdirAll.
  destruct (String.eqb_spec dir "") as [Hdir|Hdir].
  - apply triple_ret. intros fs Hok. split; [assumption | discriminate].
  - eapply triple_weaken;
      [apply (mkdir_each_contained (ancestors (fst D) (snd D)) []) | | | auto].
    + apply Forall_forall. auto.
    + intros fs Hok. split; [assumption | constructor].
    + intros err fs [Hok Hall]. split; [assumption|].
      intros Hnone. split; [assumption|].
      specialize (Hall Hnone). simpl in Hall.
      rewrite (surjective_pairing D).
      apply dir_and_parent; [apply resolve_clean | assumption].
Qed.

Lemma saveSubmissionFiles_contained (s : Submission) (filename : string)
    (fileContent pageContent : bytes) :
  submissionDir s = dir -> dir <> "" -> slashfree filename ->
  triple (C := C)
    (fun fs => ok fs /\ is_dir fs D = true /\ is_dir fs (parent D) = true)
    (saveSubmissionFiles s filename fileContent pageContent) (fun _ => ok) ok.
Proof.
  intros Hs Hdir Hfree. unfold saveSubmissionFiles. rewrite Hs.
  destruct (htmlFilename_proper filename (id s) Hfree) as [Hhtml Htmp].
  destruct (Join_proper dir _ Hhtml) as [Hph _].
  destruct (Join_tmp dir _ Hhtml Htmp) as [Hpt _].
  change (filename ++ "." ++ FormatUint (id s) ++ ".html")
    with (filename ++ marker_suffix (id s)).
  eapply triple_bind with (Q := fun _ => ok).
  - eapply triple_weaken; [apply WriteAndFsyncFile_contained | | auto | auto].
    intros fs (Hok & HD & Hparent). split; [assumption|].
    rewrite (resolve_Join dir filename Hfree (or_introl Hdir)).
    destruct (clean_step_target (fst (resolve dir)) (snd (resolve dir)) filename Hfree)
      as [[Hp ->] | [-> | ->]].
    + left. exists filename. auto.
    + right. now rewrite <- surjective_pairing.
    + right. now rewrite <- surjective_pairing.
  - intros [e|]; [now apply triple_ret|].
    eapply triple_bind with (Q := fun _ => ok).
    + eapply triple_weaken; [apply WriteAndFsyncFile_contained | | auto | auto].
      intros fs Hok. split; [assumption|]. left. rewrite Hpt.
      eexists. split; [exact Htmp | reflexivity].
    + intros [e|]; [now apply triple_ret|].
      eapply triple_bind with (Q := fun _ => ok).
      * unfold os_Rename. rewrite Hph, Hpt.
        eapply perform_contained; [apply touches_rename|].
        constructor; [eexists; split; [exact Htmp | reflexivity]|].
        constructor; [eexists; split; [exact Hhtml | reflexivity] | constructor].
      * intros [e|]; now apply triple_ret.
Qed.

Lemma Save_contained (s : Submission) :
  submissionDir s = dir ->
  triple (C := C) ok (Save s) (fun _ => ok) ok.
Proof.
  intros Hs. unfold Save.
  eapply triple_bind with (Q := fun _ => ok); [now apply triple_inspect|].
  intros [|]; [now apply triple_ret|].
  rewrite Hs.
  eapply triple_bind; [apply os_MkdirAll_contained|].
  intros [e|]; [apply triple_ret; tauto|].
  apply triple_weaken with
    (P' := fun fs =>
             dir <> "" /\ (ok fs /\ is_dir fs D = true /\ is_dir fs (parent D) = true))
    (Q' := fun _ => ok) (K' := ok); auto.
  2: { intros fs [Hok Hdirs]. destruct (Hdirs eq_refl) as (? & ? & ?). auto. }
  apply triple_pure. intros Hdir.
  eapply triple_bind; [apply triple_request; intros fs r Hfs; exact Hfs|].
  intros [pageContent [e|]]; [apply triple_ret; tauto|].
  destruct (parseURLAndFilenameFromViewPage pageContent) as [[downloadURL filename]|e] eqn:Hparse;
    [|apply triple_ret; tauto].
  apply parse_filename in Hparse. destruct Hparse as (_ & Hfree & _).
  eapply triple_bind; [apply triple_request; intros fs r Hfs; exact Hfs|].
  intros [fileContent [e|]].
  - destruct (errors_Is e ErrHTTPNotFound); apply triple_ret; tauto.
  - now apply saveSubmissionFiles_contained.
Qed.

End Containment.

(** ** The archive marker *)

Lemma IsSaved_iff (fs : FS) (s : Submission) :
  IsSaved_on fs s = true <->
  exists q, is_marker (resolve (submissionDir s)) (id s) q = true /\ lookup fs q <> None.
Proof.
  unfold IsSaved_on. split.
  - intros He. apply existsb_exists in He. destruct He as ([q e] & Hin & Hm).
    exists q. split; [exact Hm|]. clear Hm.
    induction fs as [|[x e'] fs IH]; [contradiction|]. simpl.
    destruct (path_eqb_spec x q) as [->|Hx]; [discriminate|].
    destruct Hin as [Heq|Hin]; [|now apply IH].
    injection Heq as -> ->. now elim Hx.
  - intros (q & Hm & Hl). apply existsb_exists.
    induction fs as [|[x e] fs IH]; [now elim Hl|]. simpl in Hl.
    destruct (path_eqb_spec x q) as [->|Hx].
    + exists (q, e). split; [now left | exact Hm].
    + destruct (IH Hl) as (entry & Hin & He). exists entry. split; [now right | exact He].
Qed.

Lemma IsSaved_same (fs fs' : FS) (s : Submission) :
  (forall q, is_marker (resolve (submissionDir s)) (id s) q = true ->
     (lookup fs' q <> None <-> lookup fs q <> None)) ->
  IsSaved_on fs' s = IsSaved_on fs s.
Proof.
  intros Hsame.
  destruct (IsSaved_on fs s) eqn:Hfs.
  - apply IsSaved_iff in Hfs. destruct Hfs as (q & Hm & Hl).
    apply IsSaved_iff. exists q. split; [assumption | now apply Hsame].
  - destruct (IsSaved_on fs' s) eqn:Hfs'; [|reflexivity].
    apply IsSaved_iff in Hfs'. destruct Hfs' as (q & Hm & Hl).
    assert (Ht : IsSaved_on fs s = true).
    { apply IsSaved_iff. exists q. split; [assumption | now apply Hsame]. }
    congruence.
Qed.

Lemma ancestors_shorter (rooted : bool) (out : list string) (d : Location) :
  In d (ancestors rooted out) -> (length (snd d) <= length out)%nat.
Proof.
  induction out as [|name before IH]; simpl; [contradiction|].
  intros Hin. apply in_app_or in Hin. destruct Hin as [Hin | [<- | []]].
  - specialize (IH Hin). lia.
  - simpl. lia.
Qed.

Lemma ancestor_not_marker (dir : Location) (id : N) (d : Location) :
  In d (ancestors (fst dir) (snd dir)) -> is_marker dir id d = false.
Proof.
  intros Hin. apply ancestors_shorter in Hin. unfold is_marker.
  destruct (snd d) as [|name before] eqn:Hd; [reflexivity|].
  destruct (path_eqb_spec (fst d, before) dir) as [<-|]; [|reflexivity].
  simpl in Hin. lia.
Qed.

Lemma touches_mkdir (d : Location) : touches (mkdir d) [d].
Proof.
  intros fs q Hq. unfold mkdir.
  destruct (is_dir fs d); [reflexivity|].
  destruct (lookup fs d); [reflexivity|].
  destruct (is_dir fs (parent d)); [|reflexivity].
  cbn [snd]. apply lookup_store_other. intros ->. apply Hq. now left.
Qed.

Lemma touches_IsSaved (op : FS -> option error * FS) (targets : list Location)
    (s : Submission) (fs : FS) :
  touches op targets ->
  Forall (fun p => is_marker (resolve (submissionDir s)) (id s) p = false) targets ->
  IsSaved_on (snd (op fs)) s = IsSaved_on fs s.
Proof.
  intros Htouch Hnot. apply IsSaved_same. intros q Hq.
  rewrite (Htouch fs q); [reflexivity|].
  intros Hin. rewrite Forall_forall in Hnot. rewrite (Hnot q Hin) in Hq. discriminate.
Qed.

Lemma mkdir_same_files (before : FS) (d : Location) (fs : FS) :
  same_files before fs -> same_files before (snd (mkdir d fs)).
Proof.
  intros Hsame q content synced. unfold mkdir.
  destruct (is_dir fs d); [apply Hsame|].
  destruct (lookup fs d) as [e|] eqn:Hd; [apply Hsame|].
  destruct (is_dir fs (parent d)); [|apply Hsame].
  cbn [snd]. rewrite lookup_store.
  destruct (path_eqb_spec d q) as [<-|]; [|apply Hsame].
  split; [discriminate|]. intros Hb. apply Hsame in Hb. congruence.
Qed.

Section SaveFacts.

Context {C : Type} `{Client C} `{Parser}.

Lemma mkdir_each_invariant (I : FS -> Prop) (todo : list Location) :
  (forall d fs, In d todo -> I fs -> I (snd (mkdir d fs))) ->
  triple (C := C) I (mkdir_each todo) (fun _ => I) I.
Proof.
  induction todo as [|d rest IH]; intros Hstep; simpl.
  - now apply triple_ret.
  - eapply triple_bind with (Q := fun _ => I).
    + apply triple_perform; [auto|]. intros fs Hfs. apply Hstep; [now left | assumption].
    + intros [e|]; [now apply triple_ret|].
      apply IH. intros d' fs Hd'. apply Hstep. now right.
Qed.

Lemma os_MkdirAll_keeps (s : Submission) (before : FS) :
  triple (C := C)
    (fun fs => same_files before fs /\ IsSaved_on fs s = IsSaved_on before s)
    (os_MkdirAll (submissionDir s))
    (fun _ fs => same_files before fs /\ IsSaved_on fs s = IsSaved_on before s)
    (fun fs => same_files before fs /\ IsSaved_on fs s = IsSaved_on before s).
Proof.
  unfold os_MkdirAll.
  destruct (String.eqb (submissionDir s) ""); [now apply triple_ret|].
  apply mkdir_each_invariant. intros d fs Hd [Hfiles Hsaved]. split.
  - now apply mkdir_same_files.
  - rewrite <- Hsaved. apply (touches_IsSaved (mkdir d) [d]); [apply touches_mkdir|].
    constructor; [now apply ancestor_not_marker | constructor].
Qed.

Lemma os_MkdirAll_result (s : Submission) (w wm : World C) r :
  os_MkdirAll (submissionDir s) w = (r, wm) ->
  same_files (disk w) (disk wm) /\ IsSaved_on (disk wm) s = IsSaved_on (disk w) s.
Proof.
  intros Hrun.
  pose proof (os_MkdirAll_keeps s (disk w) w) as Ht.
  rewrite Hrun in Ht.
  assert (Hstart : same_files (disk w) (disk w) /\ IsSaved_on (disk w) s = IsSaved_on (disk w) s).
  { split; [|reflexivity]. intros q content synced. reflexivity. }
  specialize (Ht Hstart). now destruct r.
Qed.

(** The steps of [Save] up to the fetch of the binary. *)
Lemma Save_until_download (s : Submission) (w wm : World C) (page : bytes) (c1 : C)
    (url filename : string) (data : bytes) (err : option error) (c2 : C) :
  IsSaved_on (disk w) s = false ->
  os_MkdirAll (submissionDir s) w = (Return None, wm) ->
  GetWithDelay (view_url s) (client wm) = ((page, None), c1) ->
  parseURLAndFilenameFromViewPage page = inl (url, filename) ->
  Get url c1 = ((data, err), c2) ->
  Save s w =
    match err with
    | None => saveSubmissionFiles s filename data page
    | Some e =>
        if errors_Is e ErrHTTPNotFound then ret None
        else ret (Some (fmt_Errorf "failed to download file: " e ""))
    end {| client := c2; disk := disk wm; budget := budget wm |}.
Proof.
  intros Hsaved Hmkdir Hpage Hparse Hget.
  unfold Save, bind at 1. unfold IsSaved, inspect. rewrite Hsaved.
  unfold bind at 1. rewrite Hmkdir.
  unfold bind at 1. unfold request at 1. fold (view_url s). rewrite Hpage.
  rewrite Hparse. unfold bind at 1. unfold request. cbn [client disk budget].
  rewrite Hget. reflexivity.
Qed.

(** C7: when the page of the submission is fetched and its download link
    is well formed, an error of the plain fetch of the binary that is
    [ErrHTTPNotFound] makes [Save] return success, and the loop over the
    submissions goes on with the next one; any other error makes [Save]
    fail with that error wrapped.  In both cases the files are those there
    were before the call, and the submission is not archived. *)
Theorem Save_asset_fetch_error :
  forall (s : Submission) (w wm : World C) (page : bytes) (c1 : C)
         (url filename : string) (data : bytes) (e : error) (c2 : C),
    IsSaved_on (disk w) s = false ->
    os_MkdirAll (submissionDir s) w = (Return None, wm) ->
    GetWithDelay (view_url s) (client wm) = ((page, None), c1) ->
    parseURLAndFilenameFromViewPage page = inl (url, filename) ->
    Get url c1 = ((data, Some e), c2) ->
    let w' := {| client := c2; disk := disk wm; budget := budget wm |} in
    (errors_Is e ErrHTTPNotFound = true ->
       Save s w = (Return None, w') /\
       forall rest, save_each (s :: rest) w = save_each rest w') /\
    (errors_Is e ErrHTTPNotFound = false ->
       Save s w = (Return (Some (fmt_Errorf "failed to download file: " e "")), w')) /\
    same_files (disk w) (disk w') /\
    IsSaved_on (disk w') s = false.
Proof.
  intros s w wm page c1 url filename data e c2 Hsaved Hmkdir Hpage Hparse Hget w'.
  pose proof (Save_until_download s w wm page c1 url filename data (Some e) c2
                Hsaved Hmkdir Hpage Hparse Hget) as Hsave.
  destruct (os_MkdirAll_result s w wm _ Hmkdir) as [Hfiles Hstill].
  cbv beta iota in Hsave. fold w' in Hsave.
  split; [|split; [|split]].
  - intros Hnf. rewrite Hnf in Hsave. split; [exact Hsave|].
    intros rest. simpl. unfold bind. now rewrite Hsave.
  - intros Hother. now rewrite Hother in Hsave.
  - exact Hfiles.
  - simpl. now rewrite Hstill.
Qed.



(** C9: the file name of an accepted detail page is the last [/]-separated
    piece of the download URL with the reserved bytes replaced by [_], and
    holds no [/] and no reserved byte.  Whatever [Save] does, the paths
    whose entry it changes are entries of the submission directory, apart
    from the directories [os.MkdirAll] makes on the way to that
    directory. *)
Theorem Save_writes_inside_submissionDir :
  (forall (pageContent : bytes) (downloadURL filename : string),
     parseURLAndFilenameFromViewPage pageContent = inl (downloadURL, filename) ->
     filename = map_bytes replacer (last (Split downloadURL "/") "") /\
     Contains filename "/" = false /\
     (forall c, In c reserved -> Contains filename c = false)) /\
  (forall (s : Submission) (w : World C) r (w' : World C),
     Save s w = (r, w') ->
     contained (resolve (submissionDir s)) (disk w) (disk w')).
Proof.
  split.
  - intros pageContent downloadURL filename Hparse.
    apply parse_filename in Hparse. tauto.
  - intros s w r w' Hrun.
    pose proof (Save_contained (submissionDir s) (disk w) s eq_refl w) as Ht.
    rewrite Hrun in Ht.
    assert (Hstart : contained (resolve (submissionDir s)) (disk w) (disk w)).
    { intros q Hq. now elim Hq. }
    specialize (Ht Hstart). now destruct r.
Qed.

End SaveFacts.

(** ** Interruptions *)

Lemma last_byte_append (a b : string) : b <> "" -> last_byte (a ++ b) = last_byte b.
Proof.
  intros Hb. induction a as [|x a IH]; [reflexivity|].
  cbn [append last_byte]. rewrite IH.
  destruct (a ++ b) eqn:Hab; [|reflexivity].
  destruct a; [simpl in Hab; contradiction | discriminate].
Qed.

Lemma take_drop (n : nat) (s : string) : take n s ++ drop n s = s.
Proof.
  revert s. induction n as [|n IH]; intros [|a s]; simpl; try reflexivity.
  now rewrite IH.
Qed.

Lemma HasSuffix_split (s suffix : string) :
  HasSuffix s suffix = true -> exists front, s = front ++ suffix.
Proof.
  unfold HasSuffix. intros Hb. apply andb_true_iff in Hb. destruct Hb as [_ Heq].
  apply String.eqb_eq in Heq.
  exists (take (String.length s - String.length suffix) s).
  rewrite <- Heq at 2. symmetry. apply take_drop.
Qed.







Section Interruptions.

Context {C : Type} `{Client C} `{Parser}.




End Interruptions.

(** ** The save protocol on the test site *)

Section CrashSafety.

Context {C : Type} `{Client C} `{Parser}.



End CrashSafety.


(** C2 (the case the code misses): submission 104 is not archived, its
    detail page links to a download named [pic.104.html], and the process is
    killed right after [os.Create] of the binary.  The empty binary matches
    the pattern [*.104.html]: the submission counts as archived with no
    payload and no metadata page, and the next [Save] returns success
    without fetching or writing anything. *)
Theorem Save_killed_after_create_of_marker_named_download :
  let w := on_site save_site [] (Some 3) in
  let stopped := snd (Save submission_104 w) in
  let again := on_site (client stopped) (disk stopped) None in
  IsSaved_on (disk w) submission_104 = false /\
  seen (Save submission_104 w) =
    (Killed,
     ((false, ["pic.104.html"; "artist"; "dl"]), File "" false) :: artist_dirs,
     [Delayed "https://www.furaffinity.net/view/104";
      Plain "https://d.furaffinity.net/art/artist/pic.104.html"]) /\
  IsSaved_on (disk stopped) submission_104 = true /\
  lookup (disk stopped) (false, ["pic.104.html.104.html"; "artist"; "dl"]) = None /\
  seen (Save submission_104 again) =
    (Return None, disk stopped, fetched (client stopped)).
Proof.
  vm_compute. repeat split.
Qed.

(** Killed at the same point, a save whose download has an ordinary name
    leaves the submission unarchived, and the next [Save] completes the
    pair. *)
Example Save_resumes_after_kill :
  let w := on_site save_site [] (Some 3) in
  let stopped := snd (Save submission_101 w) in
  let again := on_site (client stopped) (disk stopped) None in
  fst (Save submission_101 w) = Killed /\
  IsSaved_on (disk stopped) submission_101 = false /\
  fst (Save submission_101 again) = Return None /\
  disk (snd (Save submission_101 again)) =
    ((false, [image_101 ++ ".101.html"; "artist"; "dl"]),
     File (fst (detail_page href_101)) true)
      :: ((false, [image_101; "artist"; "dl"]), File "one" true) :: artist_dirs.
Proof.
  vm_compute. repeat split.
Qed.

(** A download link that ends in [..] passes the check of
    [WriteAndFsyncFile], since [filepath.Join] has already cleaned the
    path; the target is the parent of the submission directory, and the
    save fails there because that is a directory. *)
Example Save_of_dotdot_download :
  parseURLAndFilenameFromViewPage (fst (detail_page "//d.furaffinity.net/art/artist/.."))
    = inl ("https://d.furaffinity.net/art/artist/..", "..") /\
  filepath_Join "dl/artist" ".." = "dl" /\
  Clean "dl" = "dl" /\
  seen (Save (NewSubmission 7 "dl/artist") (on_site save_site [] None)) =
    (Return (Some (fmt_Errorf "failed to save file: "
                     (fmt_Errorf "failed to create file: " EISDIR "") "")),
     artist_dirs,
     [Delayed "https://www.furaffinity.net/view/7";
      Plain "https://d.furaffinity.net/art/artist/.."]).
Proof.
  vm_compute. repeat split.
Qed.

Lemma Save_asset_fetch_error_witness :
  seen (Save submission_54321 (on_site save_site [] None)) =
    (Return None, artist_dirs,
     [Delayed "https://www.furaffinity.net/view/54321";
      Plain "https://d.furaffinity.net/art/artist/missing-file.jpg"]) /\
  IsSaved_on artist_dirs submission_54321 = false.
Proof.
  pose proof (@Save_asset_fetch_error Site _ known_parser submission_54321
                (on_site save_site [] None) (on_site save_site artist_dirs None)
                (fst (detail_page "//d.furaffinity.net/art/artist/missing-file.jpg"))
                (visited save_site [Delayed "https://www.furaffinity.net/view/54321"])
                "https://d.furaffinity.net/art/artist/missing-file.jpg" "missing-file.jpg"
                "" (fmt_Errorf "resource not found: " ErrHTTPNotFound "")
                (visited save_site
                   [Delayed "https://www.furaffinity.net/view/54321";
                    Plain "https://d.furaffinity.net/art/artist/missing-file.jpg"])
                ltac:(reflexivity) ltac:(vm_compute; reflexivity)
                ltac:(vm_compute; reflexivity) ltac:(vm_compute; reflexivity)
                ltac:(vm_compute; reflexivity)) as (Hnf & _ & _ & Hstill).
  destruct (Hnf eq_refl) as [Hsave _].
  split; [now rewrite Hsave | exact Hstill].
Defined.


Lemma Save_writes_inside_submissionDir_witness :
  (image_101 = map_bytes replacer (last (Split ("https:" ++ href_101) "/") "") /\
   Contains image_101 "/" = false /\
   (forall c, In c reserved -> Contains image_101 c = false)) /\
  contained (resolve "dl/artist") []
    (disk (snd (Save submission_101 (on_site save_site [] None)))).
Proof.
  destruct (@Save_writes_inside_submissionDir Site _ known_parser) as [Hname Hinside].
  split.
  - apply (Hname (fst (detail_page href_101))). vm_compute. reflexivity.
  - apply (Hinside submission_101 (on_site save_site [] None)
             (fst (Save submission_101 (on_site save_site [] None)))).
    apply surjective_pairing.
Defined.

(** ** More on the transport *)

Lemma after_attempts_zero (h : HTTPClient) (uri : string) (net : Network) :
  after_attempts h uri 0 0 net = net.
Proof. unfold after_attempts. simpl. rewrite !app_nil_r. now destruct net. Qed.

Lemma Get_attempts_first_success (h : HTTPClient) (uri : string) (body : bytes) :
  forall (k n : nat) (net : Network) (lastErr : option error),
    newRequest (outside net) uri = None ->
    (k < n)%nat ->
    (forall j, (j < k)%nat ->
       snd (read_response (roundTrip (outside net) (length (sent net) + j) uri)) <> None) ->
    read_response (roundTrip (outside net) (length (sent net) + k) uri) = (body, None) ->
    Get_attempts h uri n lastErr net = ((body, None), after_attempts h uri (S k) k net).
Proof.
  induction k as [|k IH]; intros n net lastErr Hreq Hk Hfail Hok;
    (destruct n as [|n]; [lia|]); simpl; unfold HTTPClient_get; rewrite Hreq.
  - rewrite Nat.add_0_r in Hok. rewrite Hok. unfold after_attempts, send. simpl.
    now rewrite app_nil_r.
  - pose proof (Hfail 0%nat ltac:(lia)) as H0. rewrite Nat.add_0_r in H0.
    destruct (read_response (roundTrip (outside net) (length (sent net)) uri))
      as [data [e|]]; [clear H0 | now elim H0].
    rewrite (IH n); try assumption; try lia.
    + unfold after_attempts. simpl. rewrite <- !app_assoc. reflexivity.
    + intros j Hj. simpl. rewrite length_app. simpl.
      replace (length (sent net) + 1 + j)%nat with (length (sent net) + S j)%nat by lia.
      apply Hfail. lia.
    + simpl. rewrite length_app. simpl.
      replace (length (sent net) + 1 + k)%nat with (length (sent net) + S k)%nat by lia.
      exact Hok.
Qed.

(** X1: when the first [k] attempts fail and the next one, still within
    the retry policy, succeeds, [Get] returns the body of that attempt; it
    has sent [k + 1] requests and slept the retry interval [k] times. *)
Theorem Get_returns_first_success :
  forall (h : HTTPClient) (uri : string) (net : Network) (k : nat) (body : bytes),
    newRequest (outside net) uri = None ->
    (Z.of_nat k < tryCount h)%Z ->
    (forall j, (j < k)%nat ->
       snd (read_response (roundTrip (outside net) (length (sent net) + j) uri)) <> None) ->
    read_response (roundTrip (outside net) (length (sent net) + k) uri) = (body, None) ->
    HTTPClient_Get h uri net = ((body, None), after_attempts h uri (S k) k net).
Proof.
  intros h uri net k body Hreq Hk Hfail Hok. unfold HTTPClient_Get.
  apply Get_attempts_first_success; auto. lia.
Qed.

Lemma Get_returns_first_success_witness :
  HTTPClient_Get NewHTTPClient "/view/101" flaky_502 =
    (("Test Submission 101", None), after_attempts NewHTTPClient "/view/101" 3 2 flaky_502).
Proof.
  apply (Get_returns_first_success NewHTTPClient "/view/101" flaky_502 2).
  - reflexivity.
  - reflexivity.
  - intros j Hj. destruct j as [|[|j]]; [discriminate | discriminate | lia].
  - reflexivity.
Defined.

Lemma Get_attempts_no_request (h : HTTPClient) (uri : string) (err : error) :
  forall (n : nat) (net : Network) (lastErr : option error),
    newRequest (outside net) uri = Some err ->
    Get_attempts h uri n lastErr net =
      (("", match n with
            | O => lastErr
            | S _ => Some (fmt_Errorf "failed to create request: " err "")
            end),
       after_attempts h uri 0 n net).
Proof.
  induction n as [|n IH]; intros net lastErr Hreq.
  - simpl. now rewrite after_attempts_zero.
  - simpl. unfold HTTPClient_get. rewrite Hreq. rewrite IH by exact Hreq.
    unfold after_attempts. simpl. rewrite <- !app_assoc. now destruct n.
Qed.

Lemma Get_attempts_bounded (h : HTTPClient) (uri : string) :
  forall (n : nat) (net : Network) (lastErr : option error),
    newRequest (outside net) uri = None ->
    exists requests failures,
      snd (Get_attempts h uri n lastErr net) = after_attempts h uri requests failures net /\
      (requests <= n)%nat /\ (failures <= n)%nat /\
      match snd (fst (Get_attempts h uri n lastErr net)) with
      | Some _ => failures = n
      | None => n <> 0%nat -> requests = S failures
      end.
Proof.
  induction n as [|n IH]; intros net lastErr Hreq.
  - exists 0%nat, 0%nat. simpl. rewrite after_attempts_zero.
    repeat split; try lia. destruct lastErr; auto. intros Hn. now elim Hn.
  - simpl. unfold HTTPClient_get. rewrite Hreq.
    destruct (read_response (roundTrip (outside net) (length (sent net)) uri))
      as [data [e|]].
    + destruct (IH (time_Sleep (retryInterval h) (send uri net)) (Some e) Hreq)
        as (requests & failures & Hnet & Hr & Hf & Hres).
      exists (S requests), (S failures). rewrite Hnet.
      split; [unfold after_attempts; simpl; now rewrite <- !app_assoc|].
      repeat split; try lia.
      destruct n as [|n]; [simpl in *; lia|].
      destruct (snd (fst (Get_attempts h uri (S n) _ _))); [lia|].
      intros _. rewrite Hres; [reflexivity | discriminate].
    + exists 1%nat, 0%nat. simpl.
      split; [unfold after_attempts, send; simpl; now rewrite app_nil_r|].
      repeat split; try lia.
Qed.

(** X2: whatever the network does, [Get] sends at most [tryCount] requests,
    all for the uri it was given, and pauses once after each failed attempt:
    as many times as it has sent requests less one when it returns a body,
    and [tryCount] times when it returns an error.  With a [tryCount] of
    zero or less it sends nothing and returns no error and no body. *)
Theorem Get_attempts_are_bounded :
  forall (h : HTTPClient) (uri : string) (net : Network),
    (exists requests failures,
       snd (HTTPClient_Get h uri net) = after_attempts h uri requests failures net /\
       (requests <= Z.to_nat (tryCount h))%nat /\
       (failures <= Z.to_nat (tryCount h))%nat /\
       match snd (fst (HTTPClient_Get h uri net)) with
       | Some _ => failures = Z.to_nat (tryCount h)
       | None => (0 < tryCount h)%Z -> requests = S failures
       end) /\
    ((tryCount h <= 0)%Z -> HTTPClient_Get h uri net = (("", None), net)).
Proof.
  intros h uri net. split.
  - unfold HTTPClient_Get. set (n := Z.to_nat (tryCount h)).
    destruct (newRequest (outside net) uri) as [err|] eqn:Hreq.
    + rewrite (Get_attempts_no_request h uri err n net None Hreq).
      exists 0%nat, n. cbn [fst snd]. repeat split; try lia.
      destruct n as [|n'] eqn:Hn; [|reflexivity]. subst n. lia.
    + destruct (Get_attempts_bounded h uri n net None Hreq)
        as (requests & failures & Hnet & Hr & Hf & Hres).
      exists requests, failures. repeat split; try assumption.
      destruct (snd (fst (Get_attempts h uri n None net))); [assumption|].
      intros Hpos. apply Hres. subst n. lia.
  - intros Hle. unfold HTTPClient_Get.
    replace (Z.to_nat (tryCount h)) with 0%nat by lia. reflexivity.
Qed.

(** X3: how [get] reads a response.  A 404 gives an error that is
    [ErrHTTPNotFound] and not [ErrHTTPStatusNotOK]; any other status than
    200 gives an error that is [ErrHTTPStatusNotOK], not [ErrHTTPNotFound],
    and whose text ends with the status line; a 200 whose body can be read
    gives the body.  In each case one request was sent. *)
Theorem get_reads_the_status :
  forall (uri : string) (net : Network) (r : Response),
    newRequest (outside net) uri = None ->
    roundTrip (outside net) (length (sent net)) uri = Responded r ->
    snd (HTTPClient_get uri net) = send uri net /\
    (StatusCode r = 404%Z ->
       exists e, fst (HTTPClient_get uri net) = ("", Some e) /\
                 errors_Is e ErrHTTPNotFound = true /\
                 errors_Is e ErrHTTPStatusNotOK = false) /\
    (StatusCode r <> 404%Z -> StatusCode r <> 200%Z ->
       exists e, fst (HTTPClient_get uri net) = ("", Some e) /\
                 errors_Is e ErrHTTPStatusNotOK = true /\
                 errors_Is e ErrHTTPNotFound = false /\
                 Error e = "HTTP request failed with non-200 status: " ++ Status r) /\
    (StatusCode r = 200%Z -> forall body, Body r = inl body ->
       fst (HTTPClient_get uri net) = (body, None)).
Proof.
  intros uri net r Hreq Hresp. unfold HTTPClient_get. rewrite Hreq, Hresp.
  split; [reflexivity|]. unfold read_response. cbn [fst].
  split; [|split].
  - intros H404. rewrite H404. eexists. split; [reflexivity|]. split; reflexivity.
  - intros Hn404 Hn200.
    apply Z.eqb_neq in Hn404, Hn200. rewrite Hn404, Hn200.
    eexists. split; [reflexivity|]. repeat split.
  - intros H200 body Hbody. rewrite H200, Hbody. reflexivity.
Qed.

Lemma get_reads_the_status_witness :
  exists e, fst (HTTPClient_get "/view/00000" always_404) = ("", Some e) /\
            errors_Is e ErrHTTPNotFound = true /\
            errors_Is e ErrHTTPStatusNotOK = false.
Proof.
  exact (proj1 (proj2 (get_reads_the_status "/view/00000" always_404
                         {| StatusCode := 404; Status := "404 Not Found"; Body := inl "" |}
                         eq_refl eq_refl)) eq_refl).
Defined.

Lemma Get_outside (h : HTTPClient) (uri : string) (net : Network) :
  outside (snd (HTTPClient_Get h uri net)) = outside net.
Proof.
  unfold HTTPClient_Get.
  destruct (newRequest (outside net) uri) as [err|] eqn:Hreq.
  - now rewrite (Get_attempts_no_request h uri err _ net None Hreq).
  - destruct (Get_attempts_bounded h uri (Z.to_nat (tryCount h)) net None Hreq)
      as (requests & failures & Hnet & _). now rewrite Hnet.
Qed.

(** X4: [GetWithDelay] returns the bytes that [Get] returns, in every case,
    and sends nothing more.  When [Get] fails, or the page shows no figure
    of registered users, it returns the error and does not pause; otherwise
    it pauses once, and with the delay function of [NewHTTPClient] the
    pause is five minutes when more than 10000 users are on line and one
    second when 10000 or fewer are. *)
Theorem GetWithDelay_pauses_by_users_online :
  forall (h : HTTPClient) (uri : string) (net : Network),
    delayFunc h = delayFunc NewHTTPClient ->
    let got := HTTPClient_Get h uri net in
    let result := HTTPClient_GetWithDelay h uri net in
    fst (fst result) = fst (fst got) /\
    sent (snd result) = sent (snd got) /\
    match snd (fst got), registeredUsersOnline (outside net) (fst (fst got)) with
    | Some e, _ => snd (fst result) = Some e /\ snd result = snd got
    | None, inr e => snd (fst result) = Some e /\ snd result = snd got
    | None, inl users =>
        snd (fst result) = None /\
        slept (snd result) =
          (slept (snd got) ++
             [if (10000 <? users)%Z then (300 * second)%Z else second])%list
    end.
Proof.
  intros h uri net Hdelay got result. subst got result.
  unfold HTTPClient_GetWithDelay.
  pose proof (Get_outside h uri net) as Hout.
  destruct (HTTPClient_Get h uri net) as [[ret [e|]] net1]; cbn [fst snd] in *.
  - repeat split.
  - rewrite Hout.
    destruct (registeredUsersOnline (outside net) ret) as [users|e]; cbn [fst snd].
    + repeat split. rewrite Hdelay. cbn [slept time_Sleep delayFunc NewHTTPClient].
      unfold highUserThreshold, highUserDelayTime, defaultDelayTime.
      rewrite Z.gtb_ltb. destruct (10000 <? users)%Z; reflexivity.
    + repeat split.
Qed.

Lemma GetWithDelay_pauses_by_users_online_witness :
  slept (snd (HTTPClient_GetWithDelay (SetRetryPolicy 1 0 NewHTTPClient) "/watchlist/by/x/"
                (network_of (counting_outside 10000)))) = [second] /\
  slept (snd (HTTPClient_GetWithDelay (SetRetryPolicy 1 0 NewHTTPClient) "/watchlist/by/x/"
                (network_of (counting_outside 10001)))) = [(300 * second)%Z].
Proof.
  split.
  - exact (proj2 (proj2 (proj2 (GetWithDelay_pauses_by_users_online
             (SetRetryPolicy 1 0 NewHTTPClient) "/watchlist/by/x/"
             (network_of (counting_outside 10000)) eq_refl)))).
  - exact (proj2 (proj2 (proj2 (GetWithDelay_pauses_by_users_online
             (SetRetryPolicy 1 0 NewHTTPClient) "/watchlist/by/x/"
             (network_of (counting_outside 10001)) eq_refl)))).
Defined.

(** ** More on the cookies file *)

Lemma rev_string_app (a b : string) :
  forall acc, rev_string (a ++ b) acc = rev_string b (rev_string a acc).
Proof. induction a as [|c a IH]; intros acc; simpl; [reflexivity | apply IH]. Qed.

Lemma TrimSpace_trailing_tab (s : string) : TrimSpace (s ++ tab) = TrimSpace s.
Proof. unfold TrimSpace. rewrite rev_string_app. reflexivity. Qed.

(** X5: [LoadCookies] on a file that cannot be opened returns the wrapped
    error and leaves the client and the clock alone.  On a file whose lines
    are all accepted, the jar gains the cookie of every record of the file,
    in the order of the file, after the cookies it held; an error of the
    scanner is then reported, with those cookies already in the jar. *)
Theorem LoadCookies_loads_every_record :
  forall (filename : string) (h : HTTPClient) (net : Network),
    (forall err, os_Open (outside net) filename = inr err ->
       LoadCookies filename h net =
         (Some (fmt_Errorf "failed to open cookies file: " err ""), (h, net))) /\
    (forall lines scanErr h' net',
       os_Open (outside net) filename = inl (lines, scanErr) ->
       LoadCookies_lines lines h net = (None, (h', net')) ->
       LoadCookies filename h net =
         (match scanErr with
          | Some err => Some (fmt_Errorf "error reading cookies file: " err "")
          | None => None
          end, (h', net')) /\
       Jar h' = (Jar h ++ flat_map (fun text => record_cookie (TrimSpace text)) lines)%list /\
       tryCount h' = tryCount h /\ retryInterval h' = retryInterval h).
Proof.
  intros filename h net. split.
  - intros err Hopen. unfold LoadCookies. now rewrite Hopen.
  - intros lines scanErr h' net' Hopen Hlines.
    split; [|split].
    + unfold LoadCookies. rewrite Hopen, Hlines. now destruct scanErr.
    + eapply LoadCookies_lines_jar; eauto.
    + clear Hopen. revert h net Hlines.
      induction lines as [|text rest IH]; simpl; intros h net Hlines.
      * now injection Hlines as <- _.
      * destruct (parseCookieLine (TrimSpace text) h net) as [[e|] [h1 net1]] eqn:Hline;
          [discriminate|].
        apply IH in Hlines. destruct Hlines as [Ht Hr].
        enough (tryCount h1 = tryCount h /\ retryInterval h1 = retryInterval h) by
          (split; [rewrite Ht | rewrite Hr]; tauto).
        clear -Hline. unfold parseCookieLine in Hline.
        destruct (String.eqb (TrimSpace text) "" || HasPrefix (TrimSpace text) "#");
          [now injection Hline as <- _|].
        destruct (negb _); [discriminate|].
        destruct (ParseInt _); [|discriminate].
        destruct (time_Now net) as [now net2].
        destruct (Time_Before _ _); [discriminate|].
        destruct (url_Parse _ _); [discriminate|].
        injection Hline as <- _. split; reflexivity.
Qed.

Lemma LoadCookies_loads_every_record_witness :
  exists h' net',
    LoadCookies "jar.txt" NewHTTPClient
      (network_of (outside_with (fun _ _ => response 404 "404 Not Found" "")
         (fun _ => inl (["# Netscape HTTP Cookie File"; ""; far_future_cookie],
                        Some (errors_New "unexpected EOF"))))) =
      (Some (fmt_Errorf "error reading cookies file: " (errors_New "unexpected EOF") ""),
       (h', net')) /\
    Jar h' = [("https://.furaffinity.net/",
               {| Name := "test_cookie"; Value := "test_value";
                  Domain := ".furaffinity.net"; Path := "/" |})].
Proof.
  eexists. eexists.
  destruct (proj2 (LoadCookies_loads_every_record "jar.txt" NewHTTPClient
              (network_of (outside_with (fun _ _ => response 404 "404 Not Found" "")
                 (fun _ => inl (["# Netscape HTTP Cookie File"; ""; far_future_cookie],
                                Some (errors_New "unexpected EOF"))))))
              _ _ _ _ eq_refl eq_refl) as (Hload & Hjar & _).
  split; [exact Hload | exact Hjar].
Defined.

(** X6: the scanner loop trims each line before it counts the fields, so a
    tab at the end of a line is not seen: a record whose seventh field, the
    value, is empty arrives with six fields and is rejected as
    [ErrInvalidCookie], the jar and the clock untouched. *)
Theorem LoadCookies_rejects_empty_value :
  forall (record : string) (rest : list string) (h : HTTPClient) (net : Network),
    TrimSpace record = record ->
    record <> "" -> HasPrefix record "#" = false ->
    length (Split record "009") = 6%nat ->
    length (Split (record ++ tab) "009") = cookiesTxtFieldCount /\
    LoadCookies_lines ((record ++ tab) :: rest) h net =
      (Some (fmt_Errorf "failed to load cookie: "
               (fmt_Errorf "" ErrInvalidCookie (": " ++ record)) ""),
       (h, net)).
Proof.
  intros record rest h net Htrim Hne Hhash Hsix. split.
  - unfold tab. rewrite Split_app. rewrite length_app. simpl.
    unfold cookiesTxtFieldCount. lia.
  - simpl. rewrite TrimSpace_trailing_tab, Htrim. unfold parseCookieLine.
    destruct (String.eqb_spec record ""); [contradiction|]. rewrite Hhash. simpl.
    rewrite Hsix. reflexivity.
Qed.

Lemma LoadCookies_rejects_empty_value_witness :
  LoadCookies_lines [(empty_value_cookie ++ tab)%string] NewHTTPClient cookie_world =
    (Some (fmt_Errorf "failed to load cookie: "
             (fmt_Errorf "" ErrInvalidCookie (": " ++ empty_value_cookie)) ""),
     (NewHTTPClient, cookie_world)).
Proof.
  apply (LoadCookies_rejects_empty_value empty_value_cookie [] NewHTTPClient cookie_world).
  - reflexivity.
  - discriminate.
  - reflexivity.
  - reflexivity.
Defined.

(** X7: [time.Unix] adds the offset of the Unix epoch in 64-bit arithmetic.
    An expiry of [2^63 - 62135596800] seconds or more, which [ParseInt]
    accepts, wraps around to a time before year 1, and the record is
    rejected as expiring whatever the clock reads after 1970. *)
Theorem parseCookieLine_rejects_wrapped_expiry :
  forall (line : string) (h : HTTPClient) (net : Network)
         (domain flag path secure expiration name value : string) (t s ns : Z),
    line <> "" -> HasPrefix line "#" = false ->
    Split line "009" = [domain; flag; path; secure; expiration; name; value] ->
    ParseInt expiration = inl t ->
    (2 ^ 63 - unixToInternal <= t)%Z ->
    clock (outside net) (clockReads net) = (s, ns) ->
    (0 <= s)%Z ->
    parseCookieLine line h net =
      (Some (fmt_Errorf "" ErrExpiredCookie (": " ++ name)), (h, after_clock net)).
Proof.
  intros line h net domain flag path secure expiration name value t s ns
    Hne Hhash Hsplit Hparse Hbig Hclock Hs.
  unfold parseCookieLine.
  destruct (String.eqb_spec line ""); [contradiction|]. rewrite Hhash, Hsplit. simpl.
  rewrite Hparse. unfold time_Now. rewrite Hclock.
  pose proof (ParseInt_range _ _ Hparse) as Hrange.
  assert (Hwrap : wrap64 (t + unixToInternal) = (t + unixToInternal - 2 ^ 64)%Z).
  { unfold wrap64.
    replace (t + unixToInternal + 2 ^ 63)%Z
      with ((t + unixToInternal - 2 ^ 63) + 1 * 2 ^ 64)%Z by lia.
    rewrite Z.mod_add by lia. unfold unixToInternal in *. rewrite Z.mod_small; lia. }
  assert (Hbefore : forall now, (unixToInternal <= sec now)%Z ->
            Time_Before (time_Unix t) now = true).
  { intros now Hnow. unfold Time_Before, time_Unix. cbn [sec nsec]. rewrite Hwrap.
    apply orb_true_iff. left. apply Z.ltb_lt. unfold unixToInternal in *. lia. }
  rewrite Hbefore; [reflexivity|].
  unfold Time_Add. cbn [sec nsec].
  replace (Z.quot oneWeekDuration second) with 604800%Z by reflexivity.
  destruct (_ >=? second)%Z; [|destruct (_ <? 0)%Z]; cbn [sec]; lia.
Qed.

Lemma parseCookieLine_rejects_wrapped_expiry_witness :
  parseCookieLine never_expiring_cookie NewHTTPClient cookie_world =
    (Some (fmt_Errorf "" ErrExpiredCookie ": a"), (NewHTTPClient, after_clock cookie_world)).
Proof.
  apply (parseCookieLine_rejects_wrapped_expiry never_expiring_cookie NewHTTPClient
           cookie_world ".furaffinity.net" "TRUE" "/" "TRUE" "9223372036854775807" "a"
           "session" 9223372036854775807 1767225600 500).
  - discriminate.
  - reflexivity.
  - reflexivity.
  - reflexivity.
  - vm_compute. discriminate.
  - reflexivity.
  - lia.
Defined.

(** ** Numbers in names and links *)

Lemma digits_string_of_uint (d : Decimal.uint) :
  forall acc, digits (NilEmpty.string_of_uint d) acc = Some (uint_value d acc).
Proof.
  induction d; intros acc; cbn [NilEmpty.string_of_uint digits uint_value];
    try reflexivity;
    match goal with
    | |- context [digit ?c] => change (digit c) with (Some (N_of_ascii c - 48)%N)
    end; cbv beta iota; rewrite IHd; f_equal; f_equal; try reflexivity;
    cbn; lia.
Qed.

Lemma of_uint_acc_value (d : Decimal.uint) :
  forall acc, N.pos (Pos.of_uint_acc d acc) = uint_value d (N.pos acc).
Proof.
  induction d; intros acc; cbn [Pos.of_uint_acc uint_value]; try reflexivity;
    rewrite IHd; f_equal; lia.
Qed.

Lemma of_uint_value (d : Decimal.uint) : N.of_uint d = uint_value d 0.
Proof.
  unfold N.of_uint.
  induction d; cbn [Pos.of_uint uint_value]; try reflexivity;
    try (rewrite of_uint_acc_value; reflexivity).
  exact IHd.
Qed.

Lemma digits_FormatUint (n : N) : digits (FormatUint n) 0 = Some n.
Proof.
  unfold FormatUint. rewrite digits_string_of_uint, <- of_uint_value.
  f_equal. apply DecimalN.Unsigned.of_to.
Qed.

Lemma FormatUint_not_empty (n : N) : FormatUint n <> "".
Proof.
  intros He. pose proof (digits_FormatUint n) as Hd. rewrite He in Hd.
  simpl in Hd. injection Hd as <-. discriminate.
Qed.

Lemma ParseUint_FormatUint (n : N) : (n < 2 ^ 64)%N -> ParseUint (FormatUint n) = inl n.
Proof.
  intros Hn. unfold ParseUint. rewrite digits_FormatUint.
  apply N.ltb_lt in Hn. rewrite Hn.
  destruct (FormatUint n) eqn:He; [now elim (FormatUint_not_empty n) | reflexivity].
Qed.








(** ** A save that nothing stops *)


Section Alone.

Context {C : Type} `{Client C} `{Parser}.






(** X10: how [Save] fails before it asks for the binary.  When the target
    directory cannot be made, it returns that error wrapped and asks the
    site for nothing.  When the detail page cannot be fetched it returns
    that error wrapped, and when the page has no usable download link it
    returns [ErrSubmissionImageNotFound], or [ErrUnexpectedLinkFormat] for
    a link that does not start with two slashes; the detail page is then
    the only request made.  In each case no file has changed and the
    submission is not archived. *)
Theorem Save_fails_before_download :
  forall (s : Submission) (w wm : World C) (made : option error),
    IsSaved_on (disk w) s = false ->
    os_MkdirAll (submissionDir s) w = (Return made, wm) ->
    same_files (disk w) (disk wm) /\
    IsSaved_on (disk wm) s = false /\
    (forall e, made = Some e ->
       Save s w = (Return (Some (fmt_Errorf "failed to create target directory: " e "")), wm)) /\
    (forall page err c1,
       made = None ->
       GetWithDelay (view_url s) (client wm) = ((page, err), c1) ->
       let w' := {| client := c1; disk := disk wm; budget := budget wm |} in
       (forall e, err = Some e ->
          Save s w = (Return (Some (fmt_Errorf "failed to get submission page: " e "")), w')) /\
       (forall e, err = None -> parseURLAndFilenameFromViewPage page = inr e ->
          Save s w = (Return (Some e), w') /\
          (e = ErrSubmissionImageNotFound \/
           exists href, e = fmt_Errorf "" ErrUnexpectedLinkFormat (": " ++ href) /\
                        HasPrefix href "//" = false))).
Proof.
  intros s w wm made Hsaved Hmkdir.
  destruct (os_MkdirAll_result s w wm _ Hmkdir) as [Hfiles Hstill].
  split; [exact Hfiles|]. split; [now rewrite Hstill|].
  assert (Hstart : Save s w =
            match made with
            | Some e => ret (Some (fmt_Errorf "failed to create target directory: " e ""))
            | None =>
                ' (pageContent, err) <- request (GetWithDelay (view_url s)) ;;
                match err with
                | Some e => ret (Some (fmt_Errorf "failed to get submission page: " e ""))
                | None =>
                    match parseURLAndFilenameFromViewPage pageContent with
                    | inr e => ret (Some e)
                    | inl (downloadURL, filename) =>
                        ' (fileContent, err) <- request (Get downloadURL) ;;
                        match err with
                        | None => saveSubmissionFiles s filename fileContent pageContent
                        | Some e =>
                            if errors_Is e ErrHTTPNotFound then ret None
                            else ret (Some (fmt_Errorf "failed to download file: " e ""))
                        end
                    end
                end
            end wm).
  { unfold Save, bind at 1. unfold IsSaved, inspect. rewrite Hsaved.
    unfold bind at 1. rewrite Hmkdir. reflexivity. }
  split.
  - intros e ->. exact Hstart.
  - intros page err c1 -> Hpage w'.
    unfold bind at 1 in Hstart. unfold request at 1 in Hstart.
    rewrite Hpage in Hstart. fold w' in Hstart.
    split.
    + intros e ->. exact Hstart.
    + intros e -> Hparse. rewrite Hparse in Hstart. split; [exact Hstart|].
      unfold parseURLAndFilenameFromViewPage in Hparse.
      destruct (find_download_href (Find_a (NewDocumentFromReader page))) as [href|].
      * destruct (HasPrefix href "//") eqn:Hprefix; cbn [negb] in Hparse; [discriminate|].
        injection Hparse as <-. right. exists href. auto.
      * injection Hparse as <-. now left.
Qed.

(** X11: the check of [WriteAndFsyncFile] and the paths [saveSubmissionFiles]
    builds.  A path that [filepath.Clean] would change is refused with
    [ErrInvalidFilePath] before the file system is touched; and the two
    paths [saveSubmissionFiles] writes to, built with [filepath.Join] from
    a file name without a separator, are never refused by that check. *)
Theorem WriteAndFsyncFile_checks_the_path :
  (forall (filePath : string) (data : bytes) (w : World C),
     Clean filePath <> filePath ->
     WriteAndFsyncFile filePath data w =
       (Return (Some (fmt_Errorf "" ErrInvalidFilePath (": " ++ filePath))), w)) /\
  (forall (s : Submission) (filename : string),
     submissionDir s <> "" \/ filename <> "" ->
     slashfree filename ->
     let filePath := filepath_Join (submissionDir s) filename in
     let htmlTempfile :=
       filepath_Join (submissionDir s) (filename ++ "." ++ FormatUint (id s) ++ ".html")
         ++ ".tmp" in
     Clean filePath = filePath /\ Clean htmlTempfile = htmlTempfile).
Proof.
  split.
  - intros filePath data w Hdirty. unfold WriteAndFsyncFile.
    destruct (String.eqb_spec filePath (Clean filePath)) as [He|_]; [|reflexivity].
    now elim Hdirty.
  - intros s filename Hne Hfree filePath htmlTempfile. split.
    + now apply Clean_Join.
    + destruct (htmlFilename_proper filename (id s) Hfree) as [Hhtml Htmp].
      now destruct (Join_tmp (submissionDir s) _ Hhtml Htmp).
Qed.

End Alone.


Lemma Save_fails_before_download_witness :
  Save (NewSubmission 99999 "dl/artist") (on_site save_site artist_dirs None) =
    (Return (Some (fmt_Errorf "failed to get submission page: "
                     (fmt_Errorf "resource not found: " ErrHTTPNotFound "") "")),
     on_site (visit (Delayed "https://www.furaffinity.net/view/99999") save_site)
             artist_dirs None).
Proof.
  destruct (@Save_fails_before_download Site _ known_parser
              (NewSubmission 99999 "dl/artist") (on_site save_site artist_dirs None)
              (on_site save_site artist_dirs None) None eq_refl eq_refl)
    as (_ & _ & _ & Hfetch).
  exact (proj1 (Hfetch "" (Some (fmt_Errorf "resource not found: " ErrHTTPNotFound ""))
                  (visit (Delayed "https://www.furaffinity.net/view/99999") save_site)
                  eq_refl eq_refl) _ eq_refl).
Defined.

Lemma WriteAndFsyncFile_checks_the_path_witness :
  WriteAndFsyncFile "dl/artist/../../etc/passwd" "x" (on_site save_site artist_dirs (Some 0)) =
    (Return (Some (fmt_Errorf "" ErrInvalidFilePath ": dl/artist/../../etc/passwd")),
     on_site save_site artist_dirs (Some 0)) /\
  Clean (filepath_Join "dl/artist" "..") = filepath_Join "dl/artist" "..".
Proof.
  split.
  - apply (proj1 (@WriteAndFsyncFile_checks_the_path Site)). discriminate.
  - apply (proj2 (@WriteAndFsyncFile_checks_the_path Site)
             (NewSubmission 7 "dl/artist") "..").
    + left. discriminate.
    + reflexivity.
Defined.

(** ** More on the watchlist *)

Lemma span_name_free (s : string) : Contains (fst (span_name s)) "/" = false.
Proof.
  induction s as [|a s IH]; [reflexivity|]. simpl.
  destruct (Ascii.eqb a "/") eqn:Ha; [reflexivity|].
  destruct (span_name s) as [name rest]. simpl in *. now rewrite Ha.
Qed.

Lemma match_user_here_name (s name : string) :
  match_user_here s = Some name -> name <> "" /\ slashfree name.
Proof.
  unfold match_user_here. destruct (HasPrefix s "/user/"); [|discriminate].
  pose proof (span_name_free (drop 6 s)) as Hfree.
  destruct (span_name (drop 6 s)) as [[|a name'] [|b rest]]; try discriminate.
  intros [= <-]. split; [discriminate | exact Hfree].
Qed.

Lemma FindAllSubmatch_from_names (body : string) :
  forall skip m, In m (FindAllSubmatch_from skip body) ->
    exists name, m = ["/user/" ++ name ++ "/"; name] /\ name <> "" /\ slashfree name.
Proof.
  induction body as [|a body IH]; intros skip m Hin; simpl in Hin; [contradiction|].
  destruct skip as [|skip]; [|eauto].
  destruct (match_user_here (String a body)) as [name|] eqn:Hm; [|eauto].
  destruct Hin as [<-|Hin]; [|eauto].
  exists name. split; [reflexivity | now apply (match_user_here_name (String a body))].
Qed.

Lemma page_names_good (body : bytes) (name : string) :
  In name (page_names body) -> name <> "" /\ slashfree name.
Proof.
  unfold page_names. intros Hin. apply in_map_iff in Hin.
  destruct Hin as (m & <- & Hm).
  apply FindAllSubmatch_from_names in Hm. destruct Hm as (name & -> & Hgood). exact Hgood.
Qed.

Lemma span_name_app (name rest : string) :
  slashfree name -> span_name (name ++ String "/" rest) = (name, String "/" rest).
Proof.
  unfold slashfree. induction name as [|a name IH]; intros Hfree; [reflexivity|].
  simpl in *. apply orb_false_iff in Hfree. destruct Hfree as [Ha Hfree].
  rewrite Ha, (IH Hfree). reflexivity.
Qed.

Lemma FindAllSubmatch_from_short (body : string) :
  forall skip, (String.length body <= skip)%nat -> FindAllSubmatch_from skip body = [].
Proof.
  induction body as [|a body IH]; intros skip Hlen; [reflexivity|].
  simpl in Hlen. destruct skip as [|skip]; [lia|]. simpl. apply IH. lia.
Qed.

(** X12: what [watchlistUserRegex] captures.  Every name found on a page is
    not empty and holds no slash; and the text [/user/<name>/], for such a
    name, gives exactly that name. *)
Theorem watchlistUserRegex_captures_names :
  (forall (body : bytes) (m : list string),
     In m (FindAllSubmatch body) ->
     exists name, m = ["/user/" ++ name ++ "/"; name] /\ name <> "" /\ slashfree name) /\
  (forall name : string,
     name <> "" -> slashfree name ->
     FindAllSubmatch ("/user/" ++ name ++ "/") = [["/user/" ++ name ++ "/"; name]]).
Proof.
  split.
  - intros body m Hin. now apply (FindAllSubmatch_from_names body 0).
  - intros name Hne Hfree. unfold FindAllSubmatch.
    change ("/user/" ++ name ++ "/") with (String "/" ("user/" ++ name ++ "/")).
    cbn [FindAllSubmatch_from].
    assert (Hm : match_user_here (String "/" ("user/" ++ name ++ "/")) = Some name).
    { unfold match_user_here. cbn [HasPrefix append Ascii.eqb Bool.eqb andb drop].
      change (name ++ "/") with (name ++ String "/" "").
      rewrite (span_name_app name "" Hfree).
      destruct name; [now elim Hne | reflexivity]. }
    rewrite Hm. f_equal. apply FindAllSubmatch_from_short.
    rewrite !length_append. simpl. lia.
Qed.

Lemma watchlistUserRegex_captures_names_witness :
  FindAllSubmatch "/user/.../" = [["/user/.../"; "..."]].
Proof.
  apply (proj2 watchlistUserRegex_captures_names "...").
  - discriminate.
  - reflexivity.
Defined.

Lemma mem_In (x : string) (l : list string) : mem x l = true <-> In x l.
Proof.
  unfold mem. rewrite existsb_exists. split.
  - intros (y & Hin & He). apply String.eqb_eq in He. now subst.
  - intros Hin. exists x. split; [assumption | apply String.eqb_refl].
Qed.

Lemma fresh_In (names : list string) :
  forall seen x, In x (fresh seen names) -> In x names.
Proof.
  induction names as [|u rest IH]; intros seen x Hin; simpl in Hin; [contradiction|].
  destruct (mem u seen).
  - right. eauto.
  - destruct Hin as [<-|Hin]; [now left | right; eauto].
Qed.

Lemma fresh_NoDup (names : list string) :
  forall seen, NoDup seen -> NoDup (seen ++ fresh seen names).
Proof.
  induction names as [|u rest IH]; intros seen Hseen; simpl.
  - now rewrite app_nil_r.
  - destruct (mem u seen) eqn:Hu; [now apply IH|].
    change (u :: fresh (seen ++ [u]) rest) with ([u] ++ fresh (seen ++ [u]) rest)%list.
    rewrite app_assoc. apply IH.
    apply NoDup_app; [assumption | repeat constructor; auto |].
    intros x Hx [<-|[]]. apply mem_In in Hx. congruence.
Qed.

Lemma watchlist_pages_names (user : string) :
  forall fuel pageNum seen usernames site fs b names w',
    (forall x, seen x = mem x usernames) ->
    NoDup usernames ->
    Forall (fun name => name <> "" /\ slashfree name) usernames ->
    watchlist_pages user fuel pageNum seen usernames (on_site site fs b)
      = (Return (names, None), w') ->
    NoDup names /\ Forall (fun name => name <> "" /\ slashfree name) names.
Proof.
  induction fuel as [|fuel IH];
    intros pageNum seen usernames site fs b names w' Hseen Hnodup Hgood Hrun;
    [discriminate|].
  rewrite watchlist_pages_step in Hrun.
  destruct (maxWatchlistPages <? pageNum)%nat; [discriminate|].
  cbv zeta in Hrun.
  destruct (respond site (length (fetched site)) (watchlist_url user pageNum))
    as [body [e|]]; [discriminate|].
  pose proof (add_usernames_page body _ _ Hseen) as Hadd.
  destruct (add_usernames (FindAllSubmatch body) seen usernames 0) as [[seen' usernames'] n].
  destruct Hadd as (Hnames & _ & Hmem).
  assert (Hnodup' : NoDup usernames') by (rewrite Hnames; now apply fresh_NoDup).
  assert (Hgood' : Forall (fun name => name <> "" /\ slashfree name) usernames').
  { rewrite Hnames. apply Forall_app. split; [assumption|].
    apply Forall_forall. intros x Hx. apply fresh_In in Hx.
    now apply (page_names_good body). }
  destruct (n <? minNewUsernamesThreshold)%nat.
  - injection Hrun as <- _. auto.
  - eapply IH; eauto.
Qed.

(** X13: the artists [GetArtistsFromWatchlist] returns.  No name comes
    twice; every name is not empty and holds no slash; the directory of an
    artist is [filepath.Join] of the target directory and the name, which
    is an entry of the target directory for every name but [.] and [..]:
    for [.] it is the target directory itself, and for [..] the directory
    above it. *)
Theorem GetArtistsFromWatchlist_directories :
  forall (site : Site) (watcherUsername targetDir : string) (fs : FS) (b : option nat)
         (found : list Artist) (w' : World Site),
    GetArtistsFromWatchlist watcherUsername targetDir (on_site site fs b)
      = (Return (found, None), w') ->
    NoDup (map username found) /\
    Forall (fun a =>
              username a <> "" /\ slashfree (username a) /\
              artistDir a = filepath_Join targetDir (username a) /\
              (username a <> "." -> username a <> ".." ->
                 directly_inside (resolve targetDir) (resolve (artistDir a))) /\
              (username a = "." -> resolve (artistDir a) = resolve targetDir) /\
              (username a = ".." -> resolve (artistDir a) = parent (resolve targetDir)))
           found.
Proof.
  intros site watcherUsername targetDir fs b found w' Hrun.
  unfold GetArtistsFromWatchlist, bind in Hrun.
  destruct (GetWatchlist watcherUsername (on_site site fs b)) as [[[names [e|]]| | |] w1]
    eqn:Hlist; try discriminate.
  injection Hrun as <- _.
  unfold GetWatchlist in Hlist.
  apply watchlist_pages_names in Hlist;
    [| reflexivity | constructor | constructor].
  destruct Hlist as [Hnodup Hgood].
  split.
  - rewrite map_map. cbn [username NewArtist]. now rewrite map_id.
  - apply Forall_map. eapply Forall_impl; [|exact Hgood].
    intros name [Hne Hfree]. cbn [username artistDir NewArtist].
    split; [assumption|]. split; [assumption|]. split; [reflexivity|].
    pose proof (resolve_Join targetDir name Hfree (or_intror Hne)) as Hres.
    split; [|split].
    + intros Hdot Hdots. exists name. split; [repeat split; assumption|].
      rewrite Hres. now rewrite clean_step_proper by (repeat split; assumption).
    + intros ->. rewrite Hres. unfold clean_step. cbn. apply surjective_pairing.
    + intros ->. exact Hres.
Qed.

Lemma GetArtistsFromWatchlist_directories_witness :
  NoDup ["lorem"; "ipsum"; "dolor"; "sit"; "amet"] /\
  Forall (fun a => artistDir a = filepath_Join "dl" (username a))
    (map (fun name => NewArtist name (filepath_Join "dl" name))
         ["lorem"; "ipsum"; "dolor"; "sit"; "amet"]).
Proof.
  destruct (GetArtistsFromWatchlist_directories watchlist_site "test-watcher" "dl" [] None
              (map (fun name => NewArtist name (filepath_Join "dl" name))
                   ["lorem"; "ipsum"; "dolor"; "sit"; "amet"])
              (snd (GetArtistsFromWatchlist "test-watcher" "dl"
                      (on_site watchlist_site [] None))))
    as [Hnodup Hall].
  - vm_compute. reflexivity.
  - split; [exact Hnodup|].
    eapply Forall_impl; [|exact Hall]. intros a H. apply H.
Defined.

Lemma watchlist_pages_fetch_error (user : string) (pages : list bytes) :
  forall fuel pageNum seen usernames site fs b body e,
    (length pages < fuel)%nat ->
    (pageNum + length pages <= maxWatchlistPages)%nat ->
    (forall x, seen x = mem x usernames) ->
    serves site (watchlist_url user) pageNum pages ->
    keeps_growing usernames pages = true ->
    respond site (length (fetched site) + length pages)
      (watchlist_url user (pageNum + length pages)) = (body, Some e) ->
    watchlist_pages user fuel pageNum seen usernames (on_site site fs b) =
      (Return ([], Some (fmt_Errorf "failed to fetch watchlist page: " e "")),
       on_site (visited site (visits Plain (watchlist_url user) pageNum (S (length pages))))
               fs b).
Proof.
  induction pages as [|page rest IH];
    intros fuel pageNum seen usernames site fs b body e Hfuel Hceil Hseen Hserves Hgrow Hfail;
    simpl in Hfuel, Hceil; (destruct fuel as [|fuel]; [lia|]);
    rewrite watchlist_pages_step;
    (destruct (Nat.ltb_spec maxWatchlistPages pageNum) as [Hgt|_]; [lia|]); cbv zeta.
  - simpl in Hfail. rewrite !Nat.add_0_r in Hfail. rewrite Hfail. reflexivity.
  - destruct (serves_tail _ _ _ _ _ (Plain (watchlist_url user pageNum)) Hserves)
      as [Hbody Hrest].
    rewrite Hbody.
    pose proof (add_usernames_page page _ _ Hseen) as Hadd.
    destruct (add_usernames (FindAllSubmatch page) seen usernames 0)
      as [[seen' usernames'] n].
    destruct Hadd as (Hnames & Hcount & Hmem).
    simpl in Hgrow. rewrite <- Hcount, <- Hnames in Hgrow.
    apply andb_true_iff in Hgrow. destruct Hgrow as [Hn Hgrow].
    apply negb_true_iff in Hn. rewrite Hn.
    change (visits Plain (watchlist_url user) pageNum (S (length (page :: rest))))
      with (Plain (watchlist_url user pageNum)
              :: visits Plain (watchlist_url user) (S pageNum) (S (length rest))).
    rewrite <- visited_visit.
    apply (IH fuel (S pageNum) seen' usernames' _ fs b body e); auto; try lia.
    unfold visit. cbn [respond fetched]. rewrite length_app. simpl in *.
    replace (length (fetched site) + 1 + length rest)%nat
      with (length (fetched site) + S (length rest))%nat by lia.
    replace (S (pageNum + length rest)) with (pageNum + S (length rest))%nat by lia.
    exact Hfail.
Qed.

(** ** More on the gallery *)

Lemma serves_app (site : Site) (url : nat -> string) (first : nat) (pages : list bytes)
    (last : bytes) :
  serves site url first (pages ++ [last]) ->
  serves site url first pages /\
  respond site (length (fetched site) + length pages) (url (first + length pages)%nat)
    = (last, None).
Proof.
  intros Hs. split.
  - intros n Hn. rewrite (Hs n) by (rewrite length_app; simpl; lia).
    now rewrite app_nth1.
  - rewrite (Hs (length pages)) by (rewrite length_app; simpl; lia).
    now rewrite app_nth2, Nat.sub_diag by lia.
Qed.

Lemma visits_snoc (kind : string -> Fetch) (url : nat -> string) (first count : nat) :
  visits kind url first (S count) =
    (visits kind url first count ++ [kind (url (first + count)%nat)])%list.
Proof. unfold visits. now rewrite seq_S, map_app. Qed.

Lemma visit_visited (site : Site) (more : list Fetch) (f : Fetch) :
  visit f (visited site more) = visited site (more ++ [f]).
Proof. unfold visit, visited. cbn [respond fetched]. now rewrite app_assoc. Qed.

Lemma length_visits (kind : string -> Fetch) (url : nat -> string) (first count : nat) :
  length (visits kind url first count) = count.
Proof. unfold visits. now rewrite length_map, length_seq. Qed.

Lemma last_byte_Contains (s : string) (c : ascii) :
  last_byte s = Some c -> Contains s c = true.
Proof.
  induction s as [|a s IH]; [discriminate|]. cbn [last_byte Contains].
  destruct s as [|b s].
  - intros [= ->]. now rewrite Ascii.eqb_refl.
  - intros Hl. rewrite (IH Hl). apply orb_true_r.
Qed.

Lemma take_append (a b : string) : take (String.length a) (a ++ b) = a.
Proof. induction a as [|x a IH]; simpl; [now destruct b | now rewrite IH]. Qed.

Lemma view_href_id (id : N) (href : string) :
  (id < 2 ^ 64)%N ->
  href = "/view/" ++ FormatUint id \/ href = "/view/" ++ FormatUint id ++ "/" ->
  ParseUint (TrimPrefix (TrimSuffix href "/") "/view/") = inl id.
Proof.
  intros Hid Hhref.
  assert (Htrim : TrimSuffix href "/" = "/view/" ++ FormatUint id).
  { destruct Hhref as [->| ->].
    - unfold TrimSuffix.
      destruct (HasSuffix ("/view/" ++ FormatUint id) "/") eqn:Hs; [|reflexivity].
      apply HasSuffix_split in Hs. destruct Hs as [front Heq].
      apply (f_equal last_byte) in Heq.
      rewrite (last_byte_append front "/") in Heq by discriminate.
      rewrite last_byte_append in Heq by apply FormatUint_not_empty.
      apply last_byte_Contains in Heq.
      pose proof (string_of_uint_slashfree (N.to_uint id)) as Hfree.
      unfold slashfree in Hfree. fold (FormatUint id) in Hfree. congruence.
    - change ("/view/" ++ FormatUint id ++ "/") with (("/view/" ++ FormatUint id) ++ "/").
      unfold TrimSuffix. rewrite HasSuffix_append, length_append.
      replace (String.length ("/view/" ++ FormatUint id) + String.length "/"
               - String.length "/")%nat
        with (String.length ("/view/" ++ FormatUint id)) by (simpl; lia).
      apply take_append. }
  rewrite Htrim. unfold TrimPrefix.
  cbn [append HasPrefix Ascii.eqb Bool.eqb andb String.length drop].
  rewrite HasPrefix_nil. now apply ParseUint_FormatUint.
Qed.

Section GalleryFacts.

Context `{Parser}.

Lemma parse_links_stops (dir : string) (fs : FS) (link : Node) (rest : list Node) (x : N) :
  forall (links : list Node) (ids : list N) (acc : list Submission) (w : World Site),
    disk w = fs ->
    link_ids links = Some ids ->
    existsb (fun i => IsSaved_on fs (NewSubmission i dir)) ids = false ->
    link_id link = Some x ->
    IsSaved_on fs (NewSubmission x dir) = true ->
    parse_links (links ++ link :: rest) dir false acc w =
      (Return ((acc ++ map (fun i => NewSubmission i dir) ids)%list, true), w).
Proof.
  induction links as [|first links IH]; intros ids acc w Hfs Hids Hnew Hx Hsaved;
    simpl in Hids.
  - injection Hids as <-. cbn [app map parse_links]. unfold link_id in Hx.
    destruct (Attr link "href") as [href|]; [|discriminate].
    destruct (ParseUint (TrimPrefix (TrimSuffix href "/") "/view/")) as [id|err];
      [|discriminate].
    injection Hx as ->. unfold bind, IsSaved, inspect. rewrite Hfs, Hsaved.
    cbn [negb andb]. now rewrite app_nil_r.
  - unfold link_id in Hids. cbn [app parse_links].
    destruct (Attr first "href") as [href|]; [|discriminate].
    destruct (ParseUint (TrimPrefix (TrimSuffix href "/") "/view/")) as [id|err];
      [|discriminate].
    destruct (link_ids links) as [ids'|] eqn:Hrest; [|discriminate].
    injection Hids as <-. simpl in Hnew. apply orb_false_iff in Hnew.
    destruct Hnew as [Hid Hnew].
    unfold bind, IsSaved, inspect. rewrite Hfs, Hid. cbn [negb andb].
    rewrite (IH ids' _ w Hfs eq_refl Hnew Hx Hsaved). cbn [map]. now rewrite <- app_assoc.
Qed.

Lemma parse_links_panics (dir : string) (reCrawl : bool) (fs : FS) (link : Node)
    (rest : list Node) (href : string) (err : error) :
  forall (links : list Node) (ids : list N) (acc : list Submission) (w : World Site),
    disk w = fs ->
    link_ids links = Some ids ->
    reCrawl || negb (existsb (fun i => IsSaved_on fs (NewSubmission i dir)) ids) = true ->
    Attr link "href" = Some href ->
    ParseUint (TrimPrefix (TrimSuffix href "/") "/view/") = inr err ->
    parse_links (links ++ link :: rest) dir reCrawl acc w =
      (Panicked ("Unable to extract id from " ++ href ++ ": " ++ Error err), w).
Proof.
  induction links as [|first links IH]; intros ids acc w Hfs Hids Hnew Hhref Herr;
    simpl in Hids.
  - cbn [app parse_links]. rewrite Hhref, Herr. reflexivity.
  - unfold link_id in Hids. cbn [app parse_links].
    destruct (Attr first "href") as [href'|]; [|discriminate].
    destruct (ParseUint (TrimPrefix (TrimSuffix href' "/") "/view/")) as [id|err'];
      [|discriminate].
    destruct (link_ids links) as [ids'|] eqn:Hrest; [|discriminate].
    injection Hids as <-.
    assert (Hnew' : reCrawl
                    || negb (existsb (fun i => IsSaved_on fs (NewSubmission i dir)) ids') = true).
    { destruct reCrawl; [reflexivity|]. simpl in *.
      apply negb_true_iff in Hnew. apply orb_false_iff in Hnew.
      apply negb_true_iff. tauto. }
    unfold bind. destruct reCrawl; simpl.
    + now apply (IH ids').
    + simpl in Hnew. apply negb_true_iff in Hnew. apply orb_false_iff in Hnew.
      unfold IsSaved, inspect. rewrite Hfs. destruct Hnew as [-> _]. simpl.
      now apply (IH ids').
Qed.

Lemma parse_links_yield (dir : string) (reCrawl : bool) (links : list Node) :
  forall (acc : list Submission) (w : World Site) found stop w',
    parse_links links dir reCrawl acc w = (Return (found, stop), w') ->
    exists new,
      found = (acc ++ new)%list /\
      Forall (fun s => submissionDir s = dir /\
                       (reCrawl = false -> IsSaved_on (disk w) s = false)) new.
Proof.
  induction links as [|link rest IH]; intros acc w found stop w' Hrun; simpl in Hrun.
  - injection Hrun as <- _ _. exists []. now rewrite app_nil_r.
  - destruct (Attr link "href") as [href|]; [|discriminate].
    destruct (ParseUint (TrimPrefix (TrimSuffix href "/") "/view/")) as [id|err];
      [|discriminate].
    unfold bind in Hrun.
    assert (Hnext : forall (fresh : reCrawl = false -> IsSaved_on (disk w) (NewSubmission id dir) = false),
              parse_links rest dir reCrawl (acc ++ [NewSubmission id dir]) w
                = (Return (found, stop), w') ->
              exists new,
                found = (acc ++ new)%list /\
                Forall (fun s => submissionDir s = dir /\
                                 (reCrawl = false -> IsSaved_on (disk w) s = false)) new).
    { intros Hfresh Hrest. apply IH in Hrest. destruct Hrest as (new & -> & Hall).
      exists (NewSubmission id dir :: new). rewrite <- app_assoc. split; [reflexivity|].
      constructor; [split; [reflexivity | exact Hfresh] | exact Hall]. }
    destruct reCrawl; simpl in Hrun.
    + apply Hnext; [discriminate | exact Hrun].
    + destruct (IsSaved_on (disk w) (NewSubmission id dir)) eqn:Hsaved.
      * injection Hrun as <- _ _. exists []. now rewrite app_nil_r.
      * apply Hnext; [auto | exact Hrun].
Qed.

Lemma parse_links_href (dir : string) (reCrawl : bool) (links : list Node) :
  forall (acc : list Submission) (w : World Site),
    Forall (fun link => Attr link "href" <> None) links ->
    fst (parse_links links dir reCrawl acc w)
      <> Panicked "href attr we selected on doesn't exist?! HOW?!".
Proof.
  induction links as [|link rest IH]; intros acc w Hall; simpl; [discriminate|].
  inversion Hall as [|? ? Hlink Hrest]; subst.
  destruct (Attr link "href") as [href|]; [|now elim Hlink].
  destruct (ParseUint (TrimPrefix (TrimSuffix href "/") "/view/")) as [id|err];
    [|simpl; discriminate].
  unfold bind. destruct reCrawl; simpl.
  - now apply IH.
  - destruct (IsSaved_on (disk w) (NewSubmission id dir)); simpl;
      [discriminate | now apply IH].
Qed.

Lemma crawl_pages_growing (a : Artist) (scraps reCrawl : bool) (fs : FS)
    (pages : list bytes) :
  forall fuel pageNum submissions site b,
    (pageNum + length pages <= S maxGalleryPages)%nat ->
    serves site (gallery_url a scraps) pageNum pages ->
    forallb (page_grows fs (gallery_dir a scraps) reCrawl) pages = true ->
    crawl_pages a (if scraps then "scraps" else "gallery") (gallery_dir a scraps) reCrawl
                (length pages + fuel) pageNum submissions (on_site site fs b) =
    crawl_pages a (if scraps then "scraps" else "gallery") (gallery_dir a scraps) reCrawl
                fuel (pageNum + length pages)
                (submissions
                   ++ map (fun i => NewSubmission i (gallery_dir a scraps))
                          (flat_map page_ids pages))
                (on_site (visited site
                            (visits Delayed (gallery_url a scraps) pageNum (length pages)))
                         fs b).
Proof.
  induction pages as [|body rest IH]; intros fuel pageNum submissions site b Hceil Hserves Hgrow.
  - cbn [length flat_map map Nat.add]. unfold visits. cbn [seq map].
    now rewrite Nat.add_0_r, app_nil_r, visited_nil.
  - cbn [length] in *. cbn [Nat.add]. rewrite crawl_pages_step.
    destruct (Nat.ltb_spec maxGalleryPages pageNum) as [Hgt|_]; [lia|].
    cbv zeta.
    destruct (serves_tail _ _ _ _ _ (Delayed (gallery_url a scraps pageNum)) Hserves)
      as [Hbody Hrest].
    rewrite Hbody.
    simpl in Hgrow. apply andb_true_iff in Hgrow. destruct Hgrow as [Hpage Hgrow].
    unfold page_grows in Hpage. unfold parseSubmissionsFromPage.
    destruct (link_ids (Find_view_links (NewDocumentFromReader body))) as [[|id ids]|] eqn:Hids;
      try discriminate.
    erewrite parse_links_grows; [| reflexivity | exact Hids | exact Hpage].
    change (visits Delayed (gallery_url a scraps) pageNum (S (length rest)))
      with (Delayed (gallery_url a scraps pageNum)
              :: visits Delayed (gallery_url a scraps) (S pageNum) (length rest)).
    rewrite <- visited_visit.
    cbn [app map length Nat.eqb orb].
    rewrite IH by (auto; lia).
    replace (S pageNum + length rest)%nat with (pageNum + S (length rest))%nat by lia.
    cbn [flat_map]. unfold page_ids at 2. rewrite Hids.
    rewrite map_app, app_assoc. reflexivity.
Qed.

(** The crawl at the page after pages that kept it going. *)
Lemma crawl_pages_then (a : Artist) (scraps reCrawl : bool) (fs : FS)
    (pages : list bytes) (site : Site) (b : option nat) :
  (length pages < maxGalleryPages)%nat ->
  serves site (gallery_url a scraps) 1 pages ->
  forallb (page_grows fs (gallery_dir a scraps) reCrawl) pages = true ->
  let found := map (fun i => NewSubmission i (gallery_dir a scraps))
                   (flat_map page_ids pages) in
  let url := gallery_url a scraps (S (length pages)) in
  let before := visited site (visits Delayed (gallery_url a scraps) 1 (length pages)) in
  let after := visited site (visits Delayed (gallery_url a scraps) 1 (S (length pages))) in
  crawlSubmissions a reCrawl scraps (on_site site fs b) =
    match respond site (length (fetched site) + length pages) url with
    | (_, Some e) =>
        (Return ([], Some (fmt_Errorf "failed to fetch gallery page: " e "")),
         on_site after fs b)
    | (body, None) =>
        match parseSubmissionsFromPage body (gallery_dir a scraps) reCrawl
                (on_site after fs b) with
        | (Return (pageSubmissions, stopCrawling), w1) =>
            if (length pageSubmissions =? 0)%nat || stopCrawling then
              (Return (rev (found ++ pageSubmissions), None), w1)
            else
              crawl_pages a (if scraps then "scraps" else "gallery") (gallery_dir a scraps)
                reCrawl (maxGalleryPages - length pages) (S (S (length pages)))
                (found ++ pageSubmissions)%list w1
        | (Panicked message, w1) => (Panicked message, w1)
        | (Killed, w1) => (Killed, w1)
        | (OutOfFuel, w1) => (OutOfFuel, w1)
        end
    end.
Proof.
  intros Hlen Hserves Hgrow found url before after.
  unfold crawlSubmissions. fold (gallery_dir a scraps).
  replace (S maxGalleryPages)
    with (length pages + S (maxGalleryPages - length pages))%nat by lia.
  rewrite (crawl_pages_growing a scraps reCrawl fs pages _ 1 [] site b) by (auto; lia).
  cbn [app]. fold found. fold before.
  rewrite crawl_pages_step.
  change (1 + length pages)%nat with (S (length pages)).
  destruct (Nat.ltb_spec maxGalleryPages (S (length pages))) as [Hgt|_]; [lia|].
  cbv zeta. fold url.
  assert (Hafter : visit (Delayed url) before = after).
  { unfold before, after. rewrite visit_visited, visits_snoc. reflexivity. }
  rewrite Hafter.
  assert (Hn : length (fetched before) = (length (fetched site) + length pages)%nat).
  { unfold before, visited. cbn [fetched]. now rewrite length_app, length_visits. }
  rewrite Hn. change (respond before) with (respond site). reflexivity.
Qed.

(** X14: a gallery that ends.  When the site serves pages that each keep
    the crawl going and then, within the ceiling, a page without links to
    submissions, the crawl returns the submissions of those pages, the one
    found last first, and has fetched those pages and the empty one, with
    the delay, and nothing else. *)
Theorem crawlSubmissions_ends_at_empty_page :
  forall (a : Artist) (scraps reCrawl : bool) (site : Site) (fs : FS) (b : option nat)
         (pages : list bytes) (last : bytes),
    (length pages < maxGalleryPages)%nat ->
    serves site (gallery_url a scraps) 1 (pages ++ [last]) ->
    forallb (page_grows fs (gallery_dir a scraps) reCrawl) pages = true ->
    Find_view_links (NewDocumentFromReader last) = [] ->
    crawlSubmissions a reCrawl scraps (on_site site fs b) =
      (Return (rev (map (fun i => NewSubmission i (gallery_dir a scraps))
                        (flat_map page_ids pages)), None),
       on_site (visited site (visits Delayed (gallery_url a scraps) 1 (S (length pages))))
               fs b).
Proof.
  intros a scraps reCrawl site fs b pages last Hlen Hserves Hgrow Hempty.
  destruct (serves_app _ _ _ _ _ Hserves) as [Hpages Hlast].
  rewrite (crawl_pages_then a scraps reCrawl fs pages site b Hlen Hpages Hgrow).
  cbv zeta. change (S (length pages)) with (1 + length pages)%nat at 1.
  rewrite Hlast. unfold parseSubmissionsFromPage. rewrite Hempty.
  cbn [parse_links ret length Nat.eqb orb]. now rewrite app_nil_r.
Qed.

(** X15: a crawl that is not a re-crawl stops at the first archived
    submission.  When the site serves pages that each keep the crawl going
    and then, within the ceiling, a page on which a link to an archived
    submission comes after links to submissions that are not archived, the
    crawl returns the submissions of the earlier pages and those before the
    archived one, the one found last first; what comes after the archived
    link is not read, and no further page is fetched. *)
Theorem crawlSubmissions_stops_at_archived :
  forall (a : Artist) (scraps : bool) (site : Site) (fs : FS) (b : option nat)
         (pages : list bytes) (last : bytes)
         (links : list Node) (link : Node) (rest : list Node) (ids : list N) (x : N),
    (length pages < maxGalleryPages)%nat ->
    serves site (gallery_url a scraps) 1 (pages ++ [last]) ->
    forallb (page_grows fs (gallery_dir a scraps) false) pages = true ->
    Find_view_links (NewDocumentFromReader last) = (links ++ link :: rest)%list ->
    link_ids links = Some ids ->
    existsb (fun i => IsSaved_on fs (NewSubmission i (gallery_dir a scraps))) ids = false ->
    link_id link = Some x ->
    IsSaved_on fs (NewSubmission x (gallery_dir a scraps)) = true ->
    crawlSubmissions a false scraps (on_site site fs b) =
      (Return (rev (map (fun i => NewSubmission i (gallery_dir a scraps))
                        (flat_map page_ids pages ++ ids)), None),
       on_site (visited site (visits Delayed (gallery_url a scraps) 1 (S (length pages))))
               fs b).
Proof.
  intros a scraps site fs b pages last links link rest ids x
    Hlen Hserves Hgrow Hlinks Hids Hnew Hx Hsaved.
  destruct (serves_app _ _ _ _ _ Hserves) as [Hpages Hlast].
  rewrite (crawl_pages_then a scraps false fs pages site b Hlen Hpages Hgrow).
  cbv zeta. change (S (length pages)) with (1 + length pages)%nat at 1.
  rewrite Hlast. unfold parseSubmissionsFromPage. rewrite Hlinks.
  erewrite (parse_links_stops (gallery_dir a scraps) fs link rest x links ids []);
    [| reflexivity | exact Hids | exact Hnew | exact Hx | exact Hsaved].
  cbn [app]. rewrite orb_true_r. now rewrite map_app.
Qed.

(** X16: a page that cannot be fetched.  When the pages served so far each
    kept the crawl going and the next fetch fails, [GetWatchlist] and
    [crawlSubmissions] return that error wrapped and no names and no
    submissions: what the earlier pages brought is dropped, and no further
    page is asked for. *)
Theorem crawlers_return_nothing_on_fetch_error :
  (forall (site : Site) (user : string) (pages : list bytes) (fs : FS) (b : option nat)
          (body : bytes) (e : error),
     (length pages < maxWatchlistPages)%nat ->
     serves site (watchlist_url user) 1 pages ->
     keeps_growing [] pages = true ->
     respond site (length (fetched site) + length pages)
       (watchlist_url user (S (length pages))) = (body, Some e) ->
     GetWatchlist user (on_site site fs b) =
       (Return ([], Some (fmt_Errorf "failed to fetch watchlist page: " e "")),
        on_site (visited site (visits Plain (watchlist_url user) 1 (S (length pages))))
                fs b)) /\
  (forall (a : Artist) (scraps reCrawl : bool) (site : Site) (fs : FS) (b : option nat)
          (pages : list bytes) (body : bytes) (e : error),
     (length pages < maxGalleryPages)%nat ->
     serves site (gallery_url a scraps) 1 pages ->
     forallb (page_grows fs (gallery_dir a scraps) reCrawl) pages = true ->
     respond site (length (fetched site) + length pages)
       (gallery_url a scraps (S (length pages))) = (body, Some e) ->
     crawlSubmissions a reCrawl scraps (on_site site fs b) =
       (Return ([], Some (fmt_Errorf "failed to fetch gallery page: " e "")),
        on_site (visited site (visits Delayed (gallery_url a scraps) 1 (S (length pages))))
                fs b)).
Proof.
  split.
  - intros site user pages fs b body e Hlen Hserves Hgrow Hfail.
    unfold GetWatchlist.
    apply (watchlist_pages_fetch_error user pages (S maxWatchlistPages) 1 (fun _ => false) []
             site fs b body e); auto; lia.
  - intros a scraps reCrawl site fs b pages body e Hlen Hserves Hgrow Hfail.
    rewrite (crawl_pages_then a scraps reCrawl fs pages site b Hlen Hserves Hgrow).
    cbv zeta. now rewrite Hfail.
Qed.

(** X17: a link that does not end with a number.  When the pages served so
    far each kept the crawl going and the next page has, after links the
    crawl accepts, a selected link whose href minus [/view/] and a final
    slash is not a [uint64], the crawl panics with the message that names
    the href and the error of [strconv.ParseUint]. *)
Theorem crawlSubmissions_panics_on_unnumbered_link :
  forall (a : Artist) (scraps reCrawl : bool) (site : Site) (fs : FS) (b : option nat)
         (pages : list bytes) (last : bytes)
         (links : list Node) (link : Node) (rest : list Node) (ids : list N)
         (href : string) (err : error),
    (length pages < maxGalleryPages)%nat ->
    serves site (gallery_url a scraps) 1 (pages ++ [last]) ->
    forallb (page_grows fs (gallery_dir a scraps) reCrawl) pages = true ->
    Find_view_links (NewDocumentFromReader last) = (links ++ link :: rest)%list ->
    link_ids links = Some ids ->
    reCrawl || negb (existsb (fun i => IsSaved_on fs (NewSubmission i (gallery_dir a scraps)))
                             ids) = true ->
    Attr link "href" = Some href ->
    ParseUint (TrimPrefix (TrimSuffix href "/") "/view/") = inr err ->
    crawlSubmissions a reCrawl scraps (on_site site fs b) =
      (Panicked ("Unable to extract id from " ++ href ++ ": " ++ Error err),
       on_site (visited site (visits Delayed (gallery_url a scraps) 1 (S (length pages))))
               fs b).
Proof.
  intros a scraps reCrawl site fs b pages last links link rest ids href err
    Hlen Hserves Hgrow Hlinks Hids Hnew Hhref Herr.
  destruct (serves_app _ _ _ _ _ Hserves) as [Hpages Hlast].
  rewrite (crawl_pages_then a scraps reCrawl fs pages site b Hlen Hpages Hgrow).
  cbv zeta. change (S (length pages)) with (1 + length pages)%nat at 1.
  rewrite Hlast. unfold parseSubmissionsFromPage. rewrite Hlinks.
  erewrite (parse_links_panics (gallery_dir a scraps) reCrawl fs link rest href err
              links ids []);
    [reflexivity | reflexivity | exact Hids | exact Hnew | exact Hhref | exact Herr].
Qed.

(** X18: [parseSubmissionsFromPage] reads: it leaves the client and the
    file system as they are, and is not stopped by a kill of the process.
    Every link it selects has an href, so that the panic for a missing
    href is never taken. *)
Theorem parseSubmissionsFromPage_only_reads :
  forall (body : bytes) (submissionDir : string) (reCrawl : bool) (w : World Site),
    snd (parseSubmissionsFromPage body submissionDir reCrawl w) = w /\
    fst (parseSubmissionsFromPage body submissionDir reCrawl w) <> Killed /\
    fst (parseSubmissionsFromPage body submissionDir reCrawl w)
      <> Panicked "href attr we selected on doesn't exist?! HOW?!".
Proof.
  intros body submissionDir reCrawl w. unfold parseSubmissionsFromPage.
  destruct (parse_links (Find_view_links (NewDocumentFromReader body)) submissionDir
              reCrawl [] w) as [r w'] eqn:Hrun.
  pose proof (parse_links_reads_only _ _ _ _ _ _ _ Hrun) as (Hw & Hk & _).
  split; [exact Hw|]. split; [exact Hk|].
  change r with (fst (r, w')). rewrite <- Hrun.
  apply parse_links_href. apply Forall_forall. intros link Hin.
  unfold Find_view_links in Hin. apply filter_In in Hin. destruct Hin as [_ Hsel].
  apply andb_true_iff in Hsel. destruct Hsel as [Hsel _].
  apply andb_true_iff in Hsel. destruct Hsel as [_ Hsel].
  destruct (Attr link "href"); [discriminate | discriminate].
Qed.

(** X19: the id of a submission goes through the links.  A selected link
    whose href is [/view/<id>], with or without a final slash, where [<id>]
    is a [uint64] as [%d] prints it, is read as the submission [id]. *)
Theorem parse_links_reads_the_id :
  forall (link : Node) (id : N) (href submissionDir : string) (reCrawl : bool)
         (w : World Site),
    (id < 2 ^ 64)%N ->
    href = "/view/" ++ FormatUint id \/ href = "/view/" ++ FormatUint id ++ "/" ->
    Attr link "href" = Some href ->
    reCrawl || negb (IsSaved_on (disk w) (NewSubmission id submissionDir)) = true ->
    parse_links [link] submissionDir reCrawl [] w =
      (Return ([NewSubmission id submissionDir], false), w).
Proof.
  intros link id href submissionDir reCrawl w Hid Hhref Hattr Hnew.
  cbn [parse_links]. rewrite Hattr, (view_href_id id href Hid Hhref).
  unfold bind. destruct reCrawl; simpl; [reflexivity|].
  simpl in Hnew. apply negb_true_iff in Hnew.
  unfold IsSaved, inspect. now rewrite Hnew.
Qed.

Lemma crawl_pages_yield (a : Artist) (scraps reCrawl : bool) (fs : FS) :
  forall fuel pageNum submissions site b found w',
    Forall (fun s => submissionDir s = gallery_dir a scraps /\
                     (reCrawl = false -> IsSaved_on fs s = false)) submissions ->
    crawl_pages a (if scraps then "scraps" else "gallery") (gallery_dir a scraps) reCrawl
                fuel pageNum submissions (on_site site fs b) = (Return (found, None), w') ->
    Forall (fun s => submissionDir s = gallery_dir a scraps /\
                     (reCrawl = false -> IsSaved_on fs s = false)) found /\
    exists site', w' = on_site site' fs b.
Proof.
  induction fuel as [|fuel IH]; intros pageNum submissions site b found w' Hall Hrun;
    [discriminate|].
  rewrite crawl_pages_step in Hrun.
  destruct (maxGalleryPages <? pageNum)%nat; [discriminate|].
  cbv zeta in Hrun.
  destruct (respond site (length (fetched site)) (gallery_url a scraps pageNum))
    as [body [e|]]; [discriminate|].
  unfold parseSubmissionsFromPage in Hrun.
  destruct (parse_links (Find_view_links (NewDocumentFromReader body))
              (gallery_dir a scraps) reCrawl []
              (on_site (visit (Delayed (gallery_url a scraps pageNum)) site) fs b))
    as [r1 w1] eqn:Hparse.
  pose proof (parse_links_reads_only _ _ _ _ _ _ _ Hparse) as (-> & _).
  destruct r1 as [[pageSubmissions stop]|message| |]; try discriminate.
  apply parse_links_yield in Hparse. destruct Hparse as (new & -> & Hnew).
  cbn [app disk on_site] in *.
  assert (Hall' : Forall (fun s => submissionDir s = gallery_dir a scraps /\
                                   (reCrawl = false -> IsSaved_on fs s = false))
                         (submissions ++ new)).
  { apply Forall_app. split; assumption. }
  destruct ((length new =? 0)%nat || stop).
  - injection Hrun as <- <-. split; [now apply Forall_rev | eauto].
  - now apply IH in Hrun.
Qed.

(** X20: what [Submissions] yields.  Every submission it returns is to be
    saved in the directory of the artist or, for the scraps, in its
    [scraps] directory; and when the crawl is not a re-crawl, none of them
    is archived.  The file system is as it was. *)
Theorem Submissions_yields_unarchived :
  forall (a : Artist) (reCrawl skipScraps : bool) (site : Site) (fs : FS) (b : option nat)
         (found : list Submission) (w' : World Site),
    Submissions a reCrawl skipScraps (on_site site fs b) = (Return (found, None), w') ->
    disk w' = fs /\
    Forall (fun s =>
              (submissionDir s = artistDir a \/
               submissionDir s = filepath_Join (artistDir a) "scraps") /\
              (reCrawl = false -> IsSaved_on fs s = false))
           found.
Proof.
  intros a reCrawl skipScraps site fs b found w' Hrun.
  unfold Submissions, bind in Hrun.
  destruct (crawlSubmissions a reCrawl false (on_site site fs b))
    as [[[gallery [e|]]| | |] w1] eqn:Hgallery; try discriminate.
  apply (crawl_pages_yield a false reCrawl fs) in Hgallery; [|constructor].
  destruct Hgallery as [Hg [site1 ->]].
  assert (Hg' : Forall (fun s =>
                   (submissionDir s = artistDir a \/
                    submissionDir s = filepath_Join (artistDir a) "scraps") /\
                   (reCrawl = false -> IsSaved_on fs s = false)) gallery).
  { eapply Forall_impl; [|exact Hg]. intros s [Hdir Hnew]. split; [now left | exact Hnew]. }
  destruct skipScraps; cbn [negb] in Hrun.
  - injection Hrun as <- <-. split; [reflexivity | exact Hg'].
  - destruct (crawlSubmissions a reCrawl true (on_site site1 fs b))
      as [[[scraps [e|]]| | |] w2] eqn:Hscraps; try discriminate.
    apply (crawl_pages_yield a true reCrawl fs) in Hscraps; [|constructor].
    destruct Hscraps as [Hs [site2 ->]].
    injection Hrun as <- <-. split; [reflexivity|].
    apply Forall_app. split; [exact Hg'|].
    eapply Forall_impl; [|exact Hs]. intros s [Hdir Hnew]. split; [now right | exact Hnew].
Qed.

End GalleryFacts.

Lemma crawlSubmissions_ends_at_empty_page_witness :
  crawlSubmissions testartist true false (on_site testartist_site testartist_disk None) =
    (Return ([NewSubmission 55555 "dl/testartist"; NewSubmission 104 "dl/testartist";
              NewSubmission 103 "dl/testartist"], None),
     on_site (visited testartist_site
                (visits Delayed (gallery_url testartist false) 1 3))
             testartist_disk None).
Proof.
  apply (@crawlSubmissions_ends_at_empty_page known_parser testartist false true
           testartist_site testartist_disk None
           [fst (gallery_page ["103"; "104"]); fst (gallery_page ["55555"])]
           (fst (gallery_page []))).
  - unfold maxGalleryPages. simpl. lia.
  - intros n Hn. destruct n as [|[|[|n]]]; [reflexivity .. | simpl in Hn; lia].
  - vm_compute. reflexivity.
  - reflexivity.
Defined.

Lemma crawlSubmissions_stops_at_archived_witness :
  crawlSubmissions testartist false false (on_site testartist_site testartist_disk None) =
    (Return ([NewSubmission 103 "dl/testartist"], None),
     on_site (visited testartist_site
                (visits Delayed (gallery_url testartist false) 1 1))
             testartist_disk None).
Proof.
  apply (@crawlSubmissions_stops_at_archived known_parser testartist false
           testartist_site testartist_disk None [] (fst (gallery_page ["103"; "104"]))
           [view_link "103"] (view_link "104") [] [103%N] 104%N).
  - unfold maxGalleryPages. simpl. lia.
  - intros n Hn. destruct n as [|n]; [reflexivity | simpl in Hn; lia].
  - reflexivity.
  - reflexivity.
  - reflexivity.
  - reflexivity.
  - reflexivity.
  - reflexivity.
Defined.

Lemma crawlers_return_nothing_on_fetch_error_witness :
  GetWatchlist "test-watcher" (on_site broken_watchlist [] None) =
    (Return ([], Some (fmt_Errorf "failed to fetch watchlist page: "
                         (fmt_Errorf "resource not found: " ErrHTTPNotFound "") "")),
     on_site (visited broken_watchlist
                (visits Plain (watchlist_url "test-watcher") 1 2)) [] None) /\
  crawlSubmissions testartist true false (on_site broken_gallery [] None) =
    (Return ([], Some (fmt_Errorf "failed to fetch gallery page: "
                         (fmt_Errorf "resource not found: " ErrHTTPNotFound "") "")),
     on_site (visited broken_gallery
                (visits Delayed (gallery_url testartist false) 1 2)) [] None).
Proof.
  split.
  - apply (proj1 (@crawlers_return_nothing_on_fetch_error known_parser)
             broken_watchlist "test-watcher" [watchlist_page 1] [] None "").
    + unfold maxWatchlistPages. simpl. lia.
    + intros n Hn. destruct n as [|n]; [reflexivity | simpl in Hn; lia].
    + vm_compute. reflexivity.
    + reflexivity.
  - apply (proj2 (@crawlers_return_nothing_on_fetch_error known_parser)
             testartist false true broken_gallery [] None
             [fst (gallery_page ["103"; "104"])] "").
    + unfold maxGalleryPages. simpl. lia.
    + intros n Hn. destruct n as [|n]; [reflexivity | simpl in Hn; lia].
    + vm_compute. reflexivity.
    + reflexivity.
Defined.

Lemma crawlSubmissions_panics_on_unnumbered_link_witness :
  @crawlSubmissions Site Site_Client renamed_links testartist true false
      (on_site broken_gallery [] None) =
    (Panicked ("Unable to extract id from /view/latest: "
               ++ "strconv.ParseUint: parsing " ++ quoted "latest" ++ ": invalid syntax"),
     on_site (visited broken_gallery
                (visits Delayed (gallery_url testartist false) 1 1)) [] None).
Proof.
  apply (@crawlSubmissions_panics_on_unnumbered_link renamed_links testartist false true
           broken_gallery [] None [] (fst (gallery_page ["103"; "104"]))
           [view_link "103"] (view_link "latest") [] [103%N] "/view/latest"
           (errors_New ("strconv.ParseUint: parsing " ++ quoted "latest"
                        ++ ": invalid syntax"))).
  - unfold maxGalleryPages. simpl. lia.
  - intros n Hn. destruct n as [|n]; [reflexivity | simpl in Hn; lia].
  - reflexivity.
  - reflexivity.
  - reflexivity.
  - reflexivity.
  - reflexivity.
  - reflexivity.
Defined.

Lemma parse_links_reads_the_id_witness :
  parse_links [view_link "103/"] "dl/testartist" false [] (on_site testartist_site [] None) =
    (Return ([NewSubmission 103 "dl/testartist"], false), on_site testartist_site [] None).
Proof.
  apply (@parse_links_reads_the_id (view_link "103/") 103 "/view/103/" "dl/testartist" false
           (on_site testartist_site [] None)).
  - reflexivity.
  - right. reflexivity.
  - reflexivity.
  - reflexivity.
Defined.

Lemma Submissions_yields_unarchived_witness :
  Forall (fun s => IsSaved_on testartist_disk s = false) [NewSubmission 103 "dl/testartist"].
Proof.
  destruct (@Submissions_yields_unarchived known_parser testartist false true
              testartist_site testartist_disk None [NewSubmission 103 "dl/testartist"]
              (snd (Submissions testartist false true
                      (on_site testartist_site testartist_disk None))))
    as [_ Hall].
  - vm_compute. reflexivity.
  - eapply Forall_impl; [|exact Hall]. intros s [_ Hnew]. now apply Hnew.
Defined.

(** ** The loops of [Scraper.Run] *)

Section Loops.

Context {C : Type} `{Client C} `{Parser}.

Lemma save_each_app (done rest : list Submission) :
  forall w w1,
    save_each done w = (Return None, w1) ->
    save_each (done ++ rest) w = save_each rest w1.
Proof.
  induction done as [|s done IH]; intros w w1 Hdone; simpl in *.
  - now injection Hdone as <-.
  - unfold bind in *.
    destruct (Save s w) as [[[e|]| | |] w0]; try discriminate.
    now apply IH.
Qed.

Lemma run_artists_app (s : Scraper) (done rest : list Artist) :
  forall w w1,
    run_artists s done w = (Return None, w1) ->
    run_artists s (done ++ rest) w = run_artists s rest w1.
Proof.
  induction done as [|a done IH]; intros w w1 Hdone; simpl in *.
  - now injection Hdone as <-.
  - unfold bind in *.
    destruct (Submissions a (reCrawl s) (skipScraps s) w) as [[[found [e|]]| | |] w0];
      try discriminate.
    destruct (save_each found w0) as [[[e|]| | |] w2]; try discriminate.
    now apply IH.
Qed.

(** X21: the loops of [Run] stop at the first failure.  After submissions
    that were saved without error, a [Save] that returns an error, panics
    or is killed ends the loop with that outcome, and the submissions after
    it are not looked at; in the same way, after artists that were done
    without error, an artist whose listing fails, or one of whose
    submissions fails, ends the run with that outcome. *)
Theorem Run_loops_stop_at_first_failure :
  (forall (done : list Submission) (submission : Submission) (rest : list Submission)
          (w w1 w2 : World C) (r : Outcome (option error)),
     save_each done w = (Return None, w1) ->
     Save submission w1 = (r, w2) ->
     r <> Return None ->
     save_each (done ++ submission :: rest) w = (r, w2)) /\
  (forall (s : Scraper) (done : list Artist) (artist : Artist) (rest : list Artist)
          (w w1 w2 : World C) (found : list Submission),
     run_artists s done w = (Return None, w1) ->
     (forall e,
        Submissions artist (reCrawl s) (skipScraps s) w1 = (Return (found, Some e), w2) ->
        run_artists s (done ++ artist :: rest) w = (Return (Some e), w2)) /\
     (forall w3 r,
        Submissions artist (reCrawl s) (skipScraps s) w1 = (Return (found, None), w2) ->
        save_each found w2 = (r, w3) ->
        r <> Return None ->
        run_artists s (done ++ artist :: rest) w = (r, w3))).
Proof.
  split.
  - intros done submission rest w w1 w2 r Hdone Hsave Hr.
    rewrite (save_each_app done _ w w1 Hdone). simpl. unfold bind. rewrite Hsave.
    destruct r as [[e|]|message| |]; try reflexivity. now elim Hr.
  - intros s done artist rest w w1 w2 found Hdone. split.
    + intros e Hlist. rewrite (run_artists_app s done _ w w1 Hdone).
      simpl. unfold bind. now rewrite Hlist.
    + intros w3 r Hlist Hsave Hr. rewrite (run_artists_app s done _ w w1 Hdone).
      simpl. unfold bind. rewrite Hlist, Hsave.
      destruct r as [[e|]|message| |]; try reflexivity. now elim Hr.
Qed.

End Loops.

Lemma Run_loops_stop_at_first_failure_witness :
  save_each [submission_54321; NewSubmission 99999 "dl/artist"; submission_101]
      (on_site save_site artist_dirs None) =
    (Return (Some (fmt_Errorf "failed to get submission page: "
                     (fmt_Errorf "resource not found: " ErrHTTPNotFound "") "")),
     on_site (visited save_site
                [Delayed "https://www.furaffinity.net/view/54321";
                 Plain "https://d.furaffinity.net/art/artist/missing-file.jpg";
                 Delayed "https://www.furaffinity.net/view/99999"])
             artist_dirs None).
Proof.
  apply (proj1 (@Run_loops_stop_at_first_failure Site _ known_parser)
           [submission_54321] (NewSubmission 99999 "dl/artist") [submission_101]
           (on_site save_site artist_dirs None)
           (on_site (visited save_site
                       [Delayed "https://www.furaffinity.net/view/54321";
                        Plain "https://d.furaffinity.net/art/artist/missing-file.jpg"])
                    artist_dirs None)).
  - vm_compute. reflexivity.
  - vm_compute. reflexivity.
  - discriminate.
Defined.
